(** * dingo: the command/script execution core and the shell session driver

    A shallow embedding of [pkg/dingo/command.go] (the [remoteScript]
    executor), of the [remoteShell] driver and of the factories of
    [pkg/dingo/client.go], together with the properties of their
    natural-language specification.

    The Go methods mutate their receiver, talk to an SSH transport and to the
    local file system, and may panic.  They are rendered here as functions of
    a small state-and-panic monad over the receiver and a [World]; every call
    that leaves the package (opening a session, running a command, reading a
    file, printing) and every store to a field of the receiver is appended to
    the world's trace.  The transport and the file system are an arbitrary
    [Env]: an oracle that answers each call from the history so far.

    The second part covers what surrounds that core: the other shell
    factories, the [remoteFileSystem] with the [FileSystem] and [Close]
    methods of the client and the SFTP options, and the parsing done by the
    command line.  File transfer has a trace of calls of its own, answered by
    a [Sftp.Backend]. *)

From Stdlib Require Import ZArith List String Ascii Bool Lia.
From stdpp Require Import base gmap.
Import ListNotations.

Local Open Scope Z_scope.
Local Open Scope list_scope.

(** ** Go strings *)

(** A Go string is rendered as the sequence of items that Go's UTF-8 decoder
    walks over: Unicode code points (an undecodable byte is an item of its
    own, outside every character class used below).  [strings.Split] on
    ["\n"] and [strings.TrimSpace] act on this sequence. *)
Definition rune := Z.
Definition gostring := list rune.

Definition lit (s : string) : gostring :=
  map (fun a => Z.of_N (N_of_ascii a)) (list_ascii_of_string s).

(** ['\n'] *)
Definition newline : rune := 10.

(** [unicode.IsSpace]: the Latin-1 spaces, then the White_Space table. *)
Definition IsSpace (r : rune) : bool :=
  if (0 <=? r) && (r <=? 255) then
    (r =? 9) || (r =? 10) || (r =? 11) || (r =? 12) || (r =? 13)
    || (r =? 32) || (r =? 133) || (r =? 160)
  else
    (r =? 5760) || ((8192 <=? r) && (r <=? 8202)) || (r =? 8232)
    || (r =? 8233) || (r =? 8239) || (r =? 8287) || (r =? 12288).

Fixpoint TrimLeftSpace (s : gostring) : gostring :=
  match s with
  | [] => []
  | r :: s' => if IsSpace r then TrimLeftSpace s' else s
  end.

Definition TrimRightSpace (s : gostring) : gostring :=
  rev (TrimLeftSpace (rev s)).

(** [strings.TrimSpace] *)
Definition TrimSpace (s : gostring) : gostring :=
  TrimRightSpace (TrimLeftSpace s).

(** [strings.Split(s, sep)] for a separator of one rune: as many pieces as
    separators plus one, the empty string giving one empty piece. *)
Fixpoint Split (s : gostring) (sep : rune) : list gostring :=
  match s with
  | [] => [[]]
  | r :: s' =>
      if r =? sep then [] :: Split s' sep
      else match Split s' sep with
           | piece :: pieces => (r :: piece) :: pieces
           | [] => [[r]]
           end
  end.

Definition is_empty (s : gostring) : bool :=
  match s with [] => true | _ :: _ => false end.

Fixpoint HasPrefix (s prefix : gostring) : bool :=
  match prefix, s with
  | [], _ => true
  | _ :: _, [] => false
  | p :: prefix', r :: s' => (r =? p) && HasPrefix s' prefix'
  end.

(** [strings.Contains] *)
Fixpoint Contains (s substr : gostring) : bool :=
  HasPrefix s substr
  || match s with
     | [] => false
     | _ :: s' => Contains s' substr
     end.

(** ** Errors, streams, sessions *)

(** An [error] value: built by this package with [errors.New], or handed
    back by the transport or the file system. *)
Inductive error :=
| errors_New (msg : gostring)
| foreign (msg : gostring).

Definition Error (e : error) : gostring :=
  match e with errors_New m => m | foreign m => m end.

(** [io.Writer] and [io.Reader] values; a nil interface is [None]. *)
Inductive Writer := os_Stdout | os_Stderr | Buffer (addr : nat).
Inductive Reader := os_Stdin | strings_NewReader (s : gostring) | UserReader (id : nat).

(** [ssh.TerminalModes], a map from opcode to value. *)
Definition TerminalModes := list (Z * Z).

(** [*ssh.Client] *)
Definition ssh_Client := nat.

(** The stream slots of an [ssh.Session]. *)
Record Session := mkSession {
  sid : nat;
  Stdin : option Reader;
  Stdout : option Writer;
  Stderr : option Writer
}.

(** What a session is asked to do. *)
Inductive Request :=
| ReqRun (cmd : gostring)
| ReqShell
| ReqWait
| ReqRequestPty (term : gostring) (h w : Z) (modes : TerminalModes).

(** How a call to a collaborator ends: nil error, an error, or a panic. *)
Inductive Status :=
| Done
| Failed (msg : gostring)
| Aborted (msg : gostring).

Inductive Fd := FdOut | FdErr.

(** The remote output delivered while the call runs, and how it ends. *)
Record Reply := mkReply {
  chunks : list (Fd * gostring);
  status : Status
}.

(** A store to a field of the receiver. *)
Inductive Store :=
| StScript (s : gostring)
| StScriptType (t : Z)
| StErr (e : option error)
| StStdin (r : option Reader)
| StStdout (w : option Writer)
| StStderr (w : option Writer).

Inductive Event :=
| EvNewSession (c : ssh_Client) (r : Status) (id : nat)
| EvCall (s : Session) (q : Request) (r : Reply)
| EvClose (id : nat)
| EvOpen (path : gostring) (r : Status)
| EvCopy (path : gostring) (content : gostring) (r : Status)
| EvFileClose (path : gostring)
| EvPrintln (e : error)
| EvStore (st : Store).

(** The collaborators: each answer may depend on everything that happened
    before. *)
Record Env := mkEnv {
  dial : list Event -> ssh_Client -> Status;
  serve : list Event -> Session -> Request -> Reply;
  fs_open : list Event -> gostring -> Status;
  fs_copy : list Event -> gostring -> gostring * Status
}.

(** The heap of [bytes.Buffer]s, the counters that name fresh buffers and
    sessions, and the trace. *)
Record World := mkWorld {
  heap : gmap nat gostring;
  next_addr : nat;
  next_sid : nat;
  trace : list Event
}.

Definition contents (h : gmap nat gostring) (a : nat) : gostring :=
  default [] (h !! a).

Definition log (e : Event) (w : World) : World :=
  mkWorld (heap w) (next_addr w) (next_sid w) (trace w ++ [e]).

(** [dst.Write(p)]; a nil writer and the process streams keep nothing. *)
Definition Write (dst : option Writer) (p : gostring) (h : gmap nat gostring)
  : gmap nat gostring :=
  match dst with
  | Some (Buffer a) => <[a := contents h a ++ p]> h
  | _ => h
  end.

Definition sink (s : Session) (fd : Fd) : option Writer :=
  match fd with FdOut => Stdout s | FdErr => Stderr s end.

Fixpoint deliver (s : Session) (cs : list (Fd * gostring)) (h : gmap nat gostring)
  : gmap nat gostring :=
  match cs with
  | [] => h
  | (fd, p) :: cs' => deliver s cs' (Write (sink s fd) p h)
  end.

(** ** The monad: receiver and world threaded, panics propagated *)

Inductive outcome (A : Type) :=
| Returned (a : A)
| Panicked (msg : gostring).
Arguments Returned {A} a.
Arguments Panicked {A} msg.

Record Res (O A : Type) := mkRes {
  out : outcome A;
  self : O;
  world : World
}.
Arguments mkRes {O A} out self world.
Arguments out {O A} r.
Arguments self {O A} r.
Arguments world {O A} r.

Definition M (O A : Type) := O -> World -> Res O A.

Definition ret {O A} (a : A) : M O A :=
  fun o w => mkRes (Returned a) o w.

Definition panic {O A} (msg : gostring) : M O A :=
  fun o w => mkRes (Panicked msg) o w.

Definition bind {O A B} (m : M O A) (k : A -> M O B) : M O B :=
  fun o w =>
    match m o w with
    | mkRes (Returned a) o' w' => k a o' w'
    | mkRes (Panicked msg) o' w' => mkRes (Panicked msg) o' w'
    end.

Notation "x <- m ;; k" := (bind m (fun x => k))
  (at level 62, m at next level, right associativity, only parsing).
Notation "m ;;; k" := (bind m (fun _ => k))
  (at level 62, right associativity, only parsing).

Definition this {O} : M O O :=
  fun o w => mkRes (Returned o) o w.

Definition emit {O} (e : Event) : M O unit :=
  fun o w => mkRes (Returned tt) o (log e w).

(** [defer d] in front of [body]: [d] runs when [body] is left, by a return
    or by a panic. *)
Definition defer {O A} (d : M O unit) (body : M O A) : M O A :=
  fun o w =>
    match body o w with
    | mkRes res o1 w1 =>
        match d o1 w1 with
        | mkRes (Returned _) o2 w2 => mkRes res o2 w2
        | mkRes (Panicked msg) o2 w2 => mkRes (Panicked msg) o2 w2
        end
    end.

Definition nil_dereference : gostring :=
  lit "runtime error: invalid memory address or nil pointer dereference".

Definition as_error (msg : gostring) : option error := Some (foreign msg).

Section Collaborators.
Variable env : Env.
Context {O : Type}.

(** [client.NewSession()] *)
Definition NewSession (c : option ssh_Client) : M O (Session + error) :=
  match c with
  | None => panic nil_dereference
  | Some c => fun o w =>
      let st := dial env (trace w) c in
      let id := next_sid w in
      let w' := log (EvNewSession c st id) w in
      match st with
      | Done =>
          mkRes (Returned (inl (mkSession id None None None))) o
                (mkWorld (heap w') (next_addr w') (S id) (trace w'))
      | Failed msg => mkRes (Returned (inr (foreign msg))) o w'
      | Aborted msg => mkRes (Panicked msg) o w'
      end
  end.

(** [session.Run(cmd)], [session.Shell()], [session.Wait()] and
    [session.RequestPty(...)]: the remote output reaches the streams the
    session is bound to. *)
Definition call (s : Session) (q : Request) : M O (option error) :=
  fun o w =>
    let rp := serve env (trace w) s q in
    let w' := log (EvCall s q rp)
                  (mkWorld (deliver s (chunks rp) (heap w))
                           (next_addr w) (next_sid w) (trace w)) in
    match status rp with
    | Done => mkRes (Returned None) o w'
    | Failed msg => mkRes (Returned (as_error msg)) o w'
    | Aborted msg => mkRes (Panicked msg) o w'
    end.

(** [session.Close()]; its error is never looked at. *)
Definition Close (s : Session) : M O unit := emit (EvClose (sid s)).

(** [os.Open(path)] *)
Definition os_Open (path : gostring) : M O (option error) :=
  fun o w =>
    let st := fs_open env (trace w) path in
    let w' := log (EvOpen path st) w in
    match st with
    | Done => mkRes (Returned None) o w'
    | Failed msg => mkRes (Returned (as_error msg)) o w'
    | Aborted msg => mkRes (Panicked msg) o w'
    end.

(** [io.Copy(&buffer, file)]: what reached the buffer, and the error. *)
Definition io_Copy (path : gostring) : M O (gostring * option error) :=
  fun o w =>
    let '(content, st) := fs_copy env (trace w) path in
    let w' := log (EvCopy path content st) w in
    match st with
    | Done => mkRes (Returned (content, None)) o w'
    | Failed msg => mkRes (Returned (content, as_error msg)) o w'
    | Aborted msg => mkRes (Panicked msg) o w'
    end.

Definition file_Close (path : gostring) : M O unit := emit (EvFileClose path).
End Collaborators.

(** [var b bytes.Buffer; &b]: a fresh, empty buffer. *)
Definition new_Buffer {O} : M O nat :=
  fun o w =>
    let a := next_addr w in
    mkRes (Returned a) o (mkWorld (<[a := []]> (heap w)) (S a) (next_sid w) (trace w)).

(** [b.Bytes()]: the nil slice as long as nothing was written. *)
Definition Buffer_Bytes {O} (a : nat) : M O (option gostring) :=
  fun o w =>
    match contents (heap w) a with
    | [] => mkRes (Returned None) o w
    | c => mkRes (Returned (Some c)) o w
    end.

(** ** Script types and terminal configuration *)

(** [type ScriptType byte], with [CommandLine], [RawScript] and [ScriptFile]
    numbered by [iota]. *)
Definition ScriptType := Z.
Definition CommandLine : ScriptType := 0.
Definition RawScript : ScriptType := 1.
Definition ScriptFile : ScriptType := 2.

Record TerminalConfig := mkTerminalConfig {
  Term : gostring;
  Width : Z;
  Height : Z;
  Modes : TerminalModes
}.

Definition DefaultTerminalConfig : TerminalConfig :=
  mkTerminalConfig (lit "xterm") 80 40 [].

(** ** command.go: the [remoteScript] executor *)

Module RemoteScript.

Record remoteScript := mk {
  client : option ssh_Client;
  scriptType : ScriptType;
  script : gostring;
  scriptFile : gostring;
  err : option error;
  stdout : option Writer;
  stderr : option Writer
}.

(** Stores to the fields of the receiver. *)
Definition set_script (s : gostring) : M remoteScript unit :=
  fun rs w =>
    mkRes (Returned tt)
          (mk (client rs) (scriptType rs) s (scriptFile rs) (err rs) (stdout rs) (stderr rs))
          (log (EvStore (StScript s)) w).

Definition set_scriptType (t : ScriptType) : M remoteScript unit :=
  fun rs w =>
    mkRes (Returned tt)
          (mk (client rs) t (script rs) (scriptFile rs) (err rs) (stdout rs) (stderr rs))
          (log (EvStore (StScriptType t)) w).

Definition set_err (e : option error) : M remoteScript unit :=
  fun rs w =>
    mkRes (Returned tt)
          (mk (client rs) (scriptType rs) (script rs) (scriptFile rs) e (stdout rs) (stderr rs))
          (log (EvStore (StErr e)) w).

Definition set_stdout (o : option Writer) : M remoteScript unit :=
  fun rs w =>
    mkRes (Returned tt)
          (mk (client rs) (scriptType rs) (script rs) (scriptFile rs) (err rs) o (stderr rs))
          (log (EvStore (StStdout o)) w).

Definition set_stderr (o : option Writer) : M remoteScript unit :=
  fun rs w =>
    mkRes (Returned tt)
          (mk (client rs) (scriptType rs) (script rs) (scriptFile rs) (err rs) (stdout rs) o)
          (log (EvStore (StStderr o)) w).

Definition unsupported_script_type : error :=
  errors_New (lit "unsupported script type").

Definition cmd_wrong_type : error :=
  errors_New (lit "Cmd() can only be used with CommandLine script type").

Section WithEnv.
Variable env : Env.

(** [runSingleCommand]: one command in a session of its own. *)
Definition runSingleCommand (cmd : gostring) : M remoteScript (option error) :=
  rs <- this ;;
  r <- NewSession env (client rs) ;;
  match r with
  | inr e => ret (Some e)
  | inl session =>
      defer (Close session)
        (rs <- this ;;
         let session := mkSession (sid session) (Stdin session) (stdout rs) (Stderr session) in
         let session := mkSession (sid session) (Stdin session) (Stdout session) (stderr rs) in
         call env session (ReqRun cmd))
  end.

(** The loop of [runCommands] over the pieces of the split. *)
Fixpoint runCommands_loop (commands : list gostring) : M remoteScript (option error) :=
  match commands with
  | [] => ret None
  | cmd :: rest =>
      let cmd := TrimSpace cmd in
      if is_empty cmd then runCommands_loop rest
      else
        e <- runSingleCommand cmd ;;
        match e with
        | Some e => ret (Some e)
        | None => runCommands_loop rest
        end
  end.

Definition runCommands : M remoteScript (option error) :=
  rs <- this ;;
  let commands := Split (script rs) newline in
  runCommands_loop commands.

(** [runScript]: the script is the standard input of a remote shell. *)
Definition runScript : M remoteScript (option error) :=
  rs <- this ;;
  r <- NewSession env (client rs) ;;
  match r with
  | inr e => ret (Some e)
  | inl session =>
      defer (Close session)
        (rs <- this ;;
         let session := mkSession (sid session) (Some (strings_NewReader (script rs)))
                                  (Stdout session) (Stderr session) in
         let session := mkSession (sid session) (Stdin session) (stdout rs) (Stderr session) in
         let session := mkSession (sid session) (Stdin session) (Stdout session) (stderr rs) in
         e <- call env session ReqShell ;;
         match e with
         | Some e => ret (Some e)
         | None => call env session ReqWait
         end)
  end.

(** [runScriptFile]: the file is read, run as a raw script, and the
    fields are put back. *)
Definition runScriptFile : M remoteScript (option error) :=
  rs <- this ;;
  e <- os_Open env (scriptFile rs) ;;
  match e with
  | Some e => ret (Some e)
  | None =>
      defer (file_Close (scriptFile rs))
        (r <- io_Copy env (scriptFile rs) ;;
         let '(buffer, e) := r in
         match e with
         | Some e => ret (Some e)
         | None =>
             rs <- this ;;
             let originalScript := script rs in
             let originalType := scriptType rs in
             set_script buffer ;;;
             set_scriptType RawScript ;;;
             e <- runScript ;;
             set_script originalScript ;;;
             set_scriptType originalType ;;;
             ret e
         end)
  end.

(** [Run]: the deferred error if there is one, else the strategy of the
    script type. *)
Definition Run : M remoteScript (option error) :=
  rs <- this ;;
  match err rs with
  | Some e => emit (EvPrintln e) ;;; ret (Some e)
  | None =>
      if scriptType rs =? CommandLine then runCommands
      else if scriptType rs =? RawScript then runScript
      else if scriptType rs =? ScriptFile then runScriptFile
      else ret (Some unsupported_script_type)
  end.

(** [Output]: one [Run] with a private buffer in place of [stdout]. *)
Definition Output : M remoteScript (option gostring * option error) :=
  rs <- this ;;
  match err rs with
  | Some e => ret (None, Some e)
  | None =>
      let originalStdout := stdout rs in
      defer (set_stdout originalStdout)
        (out <- new_Buffer ;;
         set_stdout (Some (Buffer out)) ;;;
         e <- Run ;;
         b <- Buffer_Bytes out ;;
         ret (b, e))
  end.

(** [SmartOutput]: one [Run] with private buffers in place of both sinks. *)
Definition SmartOutput : M remoteScript (option gostring * option error) :=
  rs <- this ;;
  match err rs with
  | Some e => ret (None, Some e)
  | None =>
      let originalStdout := stdout rs in
      let originalStderr := stderr rs in
      defer (set_stdout originalStdout ;;; set_stderr originalStderr)
        (stdout <- new_Buffer ;;
         stderr <- new_Buffer ;;
         set_stdout (Some (Buffer stdout)) ;;;
         set_stderr (Some (Buffer stderr)) ;;;
         e <- Run ;;
         match e with
         | Some e => b <- Buffer_Bytes stderr ;; ret (b, Some e)
         | None => b <- Buffer_Bytes stdout ;; ret (b, None)
         end)
  end.
End WithEnv.

(** [SetStdio] and [Cmd] hand back their receiver; the value returned is
    the receiver as the call leaves it. *)
Definition SetStdio (stdout stderr : option Writer) : M remoteScript remoteScript :=
  set_stdout stdout ;;;
  set_stderr stderr ;;;
  this.

Definition Cmd (cmd : gostring) : M remoteScript remoteScript :=
  rs <- this ;;
  (if scriptType rs =? CommandLine then
     if is_empty (script rs) then set_script cmd
     else set_script (script rs ++ [newline] ++ cmd)
   else set_err (Some cmd_wrong_type)) ;;;
  this.

End RemoteScript.

(** ** The [remoteShell] driver *)

(** [type ShellType byte] *)
Definition ShellType := Z.
Definition InteractiveShell : ShellType := 0.
Definition NonInteractiveShell : ShellType := 1.

Module RemoteShell.

Record remoteShell := mk {
  client : option ssh_Client;
  shellType : ShellType;
  requestPty : bool;
  terminalConfig : option TerminalConfig;
  stdin : option Reader;
  stdout : option Writer;
  stderr : option Writer
}.

Definition set_stdin (i : option Reader) : M remoteShell unit :=
  fun rs w =>
    mkRes (Returned tt)
          (mk (client rs) (shellType rs) (requestPty rs) (terminalConfig rs)
              i (stdout rs) (stderr rs))
          (log (EvStore (StStdin i)) w).

Definition set_stdout (o : option Writer) : M remoteShell unit :=
  fun rs w =>
    mkRes (Returned tt)
          (mk (client rs) (shellType rs) (requestPty rs) (terminalConfig rs)
              (stdin rs) o (stderr rs))
          (log (EvStore (StStdout o)) w).

Definition set_stderr (o : option Writer) : M remoteShell unit :=
  fun rs w =>
    mkRes (Returned tt)
          (mk (client rs) (shellType rs) (requestPty rs) (terminalConfig rs)
              (stdin rs) (stdout rs) o)
          (log (EvStore (StStderr o)) w).

(** [setupStreams]: the caller's streams, or those of the process. *)
Definition setupStreams (rs : remoteShell) (session : Session) : Session :=
  let session :=
    match stdin rs with
    | None => mkSession (sid session) (Some os_Stdin) (Stdout session) (Stderr session)
    | Some i => mkSession (sid session) (Some i) (Stdout session) (Stderr session)
    end in
  let session :=
    match stdout rs with
    | None => mkSession (sid session) (Stdin session) (Some os_Stdout) (Stderr session)
    | Some o => mkSession (sid session) (Stdin session) (Some o) (Stderr session)
    end in
  match stderr rs with
  | None => mkSession (sid session) (Stdin session) (Stdout session) (Some os_Stderr)
  | Some e => mkSession (sid session) (Stdin session) (Stdout session) (Some e)
  end.

(** The terminal parameters [requestPseudoTerminal] settles on. *)
Definition terminal (rs : remoteShell) : TerminalConfig :=
  match terminalConfig rs with
  | None => DefaultTerminalConfig
  | Some tc => tc
  end.

Section WithEnv.
Variable env : Env.

Definition requestPseudoTerminal (session : Session) : M remoteShell (option error) :=
  rs <- this ;;
  let tc := terminal rs in
  call env session (ReqRequestPty (Term tc) (Height tc) (Width tc) (Modes tc)).

Definition Start (command : gostring) : M remoteShell (option error) :=
  rs <- this ;;
  r <- NewSession env (client rs) ;;
  match r with
  | inr e => ret (Some e)
  | inl session =>
      defer (Close session)
        (rs <- this ;;
         let session := setupStreams rs session in
         e <- (if requestPty rs then requestPseudoTerminal session else ret None) ;;
         match e with
         | Some e => ret (Some e)
         | None =>
             (if is_empty command then ret None
              else call env session (ReqRun command)) ;;;
             e <- call env session ReqShell ;;
             match e with
             | Some e => ret (Some e)
             | None => call env session ReqWait
             end
         end)
  end.
End WithEnv.

Definition SetStdio (stdin : option Reader) (stdout stderr : option Writer)
  : M remoteShell remoteShell :=
  set_stdin stdin ;;;
  set_stdout stdout ;;;
  set_stderr stderr ;;;
  this.

End RemoteShell.

(** ** client.go: the factories *)

Module Client.

(** Of the fields of [client], the factories below read [sshClient] only. *)
Record client := mk {
  sshClient : option ssh_Client
}.

Definition Command (c : client) (cmd : gostring) : RemoteScript.remoteScript :=
  RemoteScript.mk (sshClient c) CommandLine cmd [] None None None.

Definition Script (c : client) (script : gostring) : RemoteScript.remoteScript :=
  RemoteScript.mk (sshClient c) RawScript script [] None None None.

Definition ScriptFile (c : client) (path : gostring) : RemoteScript.remoteScript :=
  RemoteScript.mk (sshClient c) ScriptFile [] path None None None.

Definition Shell (c : client) : RemoteShell.remoteShell :=
  RemoteShell.mk (sshClient c) NonInteractiveShell false None None None None.

Definition InteractiveShell (c : client) (config : option TerminalConfig)
  : RemoteShell.remoteShell :=
  let config := match config with
                | None => DefaultTerminalConfig
                | Some tc => tc
                end in
  RemoteShell.mk (sshClient c) InteractiveShell true (Some config) None None None.

End Client.

(** ** Callers *)

(** A caller drives one executor through its public operations; a panic is
    recovered and the executor is used on. *)
Inductive Op :=
| OpRun
| OpOutput
| OpSmartOutput
| OpSetStdio (stdout stderr : option Writer)
| OpCmd (cmd : gostring).

Definition fmap {O A B} (f : A -> B) (m : M O A) : M O B :=
  a <- m ;; ret (f a).

Section Callers.
Variable env : Env.
Import RemoteScript.

(** One operation, reduced to the error it hands back. *)
Definition perform (op : Op) : M remoteScript (option error) :=
  match op with
  | OpRun => Run env
  | OpOutput => fmap snd (Output env)
  | OpSmartOutput => fmap snd (SmartOutput env)
  | OpSetStdio o e => fmap (fun _ => None) (SetStdio o e)
  | OpCmd c => fmap (fun _ => None) (Cmd c)
  end.

(** The outcomes of the operations, one after the other, and the executor
    and the world they leave. *)
Fixpoint perform_all (ops : list Op) (rs : remoteScript) (w : World)
  : list (outcome (option error)) * remoteScript * World :=
  match ops with
  | [] => ([], rs, w)
  | op :: ops' =>
      let r := perform op rs w in
      let '(os, rs', w') := perform_all ops' (self r) (world r) in
      (out r :: os, rs', w')
  end.
End Callers.

(** ** Vocabulary of the specification *)

(** The lines of a body that are commands: split on newlines, trimmed,
    blank ones dropped. *)
Definition commands_of (body : gostring) : list gostring :=
  List.filter (fun l => negb (is_empty l)) (map TrimSpace (Split body newline)).

(** A whitespace-only body (the empty one included). *)
Definition whitespace_only (body : gostring) : bool := forallb IsSpace body.

(** The bytes the remote side sent on one stream during a stretch of trace. *)
Fixpoint on_stream (fd : Fd) (cs : list (Fd * gostring)) : gostring :=
  match cs with
  | [] => []
  | (fd', p) :: cs' =>
      match fd, fd' with
      | FdOut, FdOut | FdErr, FdErr => p ++ on_stream fd cs'
      | _, _ => on_stream fd cs'
      end
  end.

Fixpoint emitted (fd : Fd) (evs : list Event) : gostring :=
  match evs with
  | [] => []
  | EvCall _ _ rp :: evs' => on_stream fd (chunks rp) ++ emitted fd evs'
  | _ :: evs' => emitted fd evs'
  end.

(** A byte slice as [bytes.Buffer.Bytes] hands it out. *)
Definition as_bytes (c : gostring) : option gostring :=
  match c with [] => None | _ => Some c end.

(** The calls that reach the transport. *)
Definition is_transport (e : Event) : bool :=
  match e with
  | EvNewSession _ _ _ | EvCall _ _ _ | EvClose _ => true
  | _ => false
  end.

Definition transport_calls (evs : list Event) : list Event :=
  List.filter is_transport evs.

(** How a call that answered [st] comes back to the Go code. *)
Definition outcome_of (st : Status) : outcome (option error) :=
  match st with
  | Done => Returned None
  | Failed msg => Returned (Some (foreign msg))
  | Aborted msg => Panicked msg
  end.

(** One command line in a session of its own: the session is opened under
    the next free number, bound to the two sinks, asked to run the line, and
    closed. *)
Definition line_session (w : World) (o e : option Writer) : Session :=
  mkSession (next_sid w) None o e.

Definition line_reply (env : Env) (c : ssh_Client) (w : World)
           (o e : option Writer) (line : gostring) : Reply :=
  serve env (trace w ++ [EvNewSession c Done (next_sid w)])
        (line_session w o e) (ReqRun line).

Definition after_line (env : Env) (c : ssh_Client) (w : World)
           (o e : option Writer) (line : gostring) : World :=
  let rp := line_reply env c w o e line in
  mkWorld (deliver (line_session w o e) (chunks rp) (heap w))
          (next_addr w) (S (next_sid w))
          (trace w ++ [EvNewSession c Done (next_sid w);
                       EvCall (line_session w o e) (ReqRun line) rp;
                       EvClose (next_sid w)]).

(** A sequence of command lines run one after the other on connection [c],
    from world [w]: how it ends, and the world it leaves.  Nothing is done
    for the lines that follow a failing one. *)
Inductive runs_lines (env : Env) (c : option ssh_Client) (o e : option Writer)
  : list gostring -> World -> outcome (option error) -> World -> Prop :=
| lines_done w :
    runs_lines env c o e [] w (Returned None) w
| lines_no_client line rest w :
    c = None ->
    runs_lines env c o e (line :: rest) w (Panicked nil_dereference) w
| lines_open_fails conn line rest w st :
    c = Some conn ->
    dial env (trace w) conn = st ->
    st <> Done ->
    runs_lines env c o e (line :: rest) w (outcome_of st)
               (log (EvNewSession conn st (next_sid w)) w)
| lines_line_fails conn line rest w :
    c = Some conn ->
    dial env (trace w) conn = Done ->
    status (line_reply env conn w o e line) <> Done ->
    runs_lines env c o e (line :: rest) w
               (outcome_of (status (line_reply env conn w o e line)))
               (after_line env conn w o e line)
| lines_line_ok conn line rest w res w' :
    c = Some conn ->
    dial env (trace w) conn = Done ->
    status (line_reply env conn w o e line) = Done ->
    runs_lines env c o e rest (after_line env conn w o e line) res w' ->
    runs_lines env c o e (line :: rest) w res w'.


(** The operations that attempt an execution, and what they gave in a run
    of [perform_all]. *)
Definition is_execution (op : Op) : bool :=
  match op with
  | OpRun | OpOutput | OpSmartOutput => true
  | _ => false
  end.

Definition is_Cmd (op : Op) : bool :=
  match op with OpCmd _ => true | _ => false end.


(** The two capturing wrappers, for a caller that only captures. *)
Inductive Capture := ViaOutput | ViaSmartOutput.

Definition capture_op (c : Capture) : Op :=
  match c with ViaOutput => OpOutput | ViaSmartOutput => OpSmartOutput end.

(** The command lines that were handed to [session.Run] during a stretch of
    trace, in order. *)
Fixpoint commands_run (evs : list Event) : list gostring :=
  match evs with
  | [] => []
  | EvCall _ (ReqRun cmd) _ :: evs' => cmd :: commands_run evs'
  | _ :: evs' => commands_run evs'
  end.

(** The sessions that were opened and those that were closed. *)
Fixpoint sessions_opened (evs : list Event) : list nat :=
  match evs with
  | [] => []
  | EvNewSession _ Done id :: evs' => id :: sessions_opened evs'
  | _ :: evs' => sessions_opened evs'
  end.

Fixpoint sessions_closed (evs : list Event) : list nat :=
  match evs with
  | [] => []
  | EvClose id :: evs' => id :: sessions_closed evs'
  | _ :: evs' => sessions_closed evs'
  end.

(** The invariant of the executors made by [Command]. *)
Definition well_formed (rs : RemoteScript.remoteScript) : Prop :=
  RemoteScript.scriptType rs = CommandLine /\ RemoteScript.err rs = None.

(** The world once connection [conn] has opened a session, the status the
    transport answers a request with, and the world once it has answered. *)
Definition opened (conn : ssh_Client) (w : World) : World :=
  mkWorld (heap w) (next_addr w) (S (next_sid w))
          (trace w ++ [EvNewSession conn Done (next_sid w)]).

Definition answer (env : Env) (s : Session) (q : Request) (w : World) : Status :=
  status (serve env (trace w) s q).

Definition step (env : Env) (s : Session) (q : Request) (w : World) : World :=
  log (EvCall s q (serve env (trace w) s q))
      (mkWorld (deliver s (chunks (serve env (trace w) s q)) (heap w))
               (next_addr w) (next_sid w) (trace w)).

(** The session of a shell, and the worlds [Start] goes through, as long as
    every step succeeds: the session is open, the pseudo-terminal is there if
    one is asked for, the initial command was run if there is one. *)
Definition shell_session (rs : RemoteShell.remoteShell) (w : World) : Session :=
  RemoteShell.setupStreams rs (mkSession (next_sid w) None None None).

Definition pty_request (rs : RemoteShell.remoteShell) : Request :=
  ReqRequestPty (Term (RemoteShell.terminal rs)) (Height (RemoteShell.terminal rs))
                (Width (RemoteShell.terminal rs)) (Modes (RemoteShell.terminal rs)).

Definition with_pty (env : Env) (rs : RemoteShell.remoteShell) (conn : ssh_Client)
           (w : World) : World :=
  if RemoteShell.requestPty rs
  then step env (shell_session rs w) (pty_request rs) (opened conn w)
  else opened conn w.

Definition with_command (env : Env) (rs : RemoteShell.remoteShell) (conn : ssh_Client)
           (command : gostring) (w : World) : World :=
  if is_empty command then with_pty env rs conn w
  else step env (shell_session rs w) (ReqRun command) (with_pty env rs conn w).


(** The command lines of a body, in the words of the specification and with
    no reference to the functions the executor calls.  The body is cut at its
    newlines: it is its pieces joined by newlines, and no piece holds one. *)
Fixpoint join_lines (pieces : list gostring) : gostring :=
  match pieces with
  | [] => []
  | [piece] => piece
  | piece :: pieces' => piece ++ newline :: join_lines pieces'
  end.

(** A string with no space in front. *)
Definition clean_start (s : gostring) : bool :=
  match s with [] => true | r :: _ => negb (IsSpace r) end.

(** [line] is [piece] without the white space around it: white space only is
    left out on either side, and [line] neither begins nor ends with any. *)
Definition trimmed_to (piece line : gostring) : Prop :=
  exists before after,
    piece = before ++ line ++ after /\
    whitespace_only before = true /\ whitespace_only after = true /\
    clean_start line = true /\ clean_start (rev line) = true.

(** [lines] are the command lines of [body]: its pieces, trimmed, the blank
    ones left out, in order. *)
Definition command_lines (body : gostring) (lines : list gostring) : Prop :=
  exists pieces trimmed,
    pieces <> [] /\
    body = join_lines pieces /\
    Forall (fun piece => ~ In newline piece) pieces /\
    Forall2 trimmed_to pieces trimmed /\
    lines = List.filter (fun line => negb (is_empty line)) trimmed.

(** ** Sample collaborators *)

Definition same (a b : gostring) : bool := bool_decide (a = b).

(** Every session opens; the command [fail] writes to both streams and
    fails, any other command echoes itself and succeeds; the file
    [missing.sh] does not exist, any other holds [echo hi]. *)
Definition sample_env : Env :=
  mkEnv
    (fun _ _ => Done)
    (fun _ _ q =>
       match q with
       | ReqRun cmd =>
           if same cmd (lit "fail")
           then mkReply [(FdOut, lit "partial"); (FdErr, lit "boom")]
                        (Failed (lit "Process exited with status 1"))
           else mkReply [(FdOut, cmd)] Done
       | _ => mkReply [] Done
       end)
    (fun _ path =>
       if same path (lit "missing.sh")
       then Failed (lit "open missing.sh: no such file or directory")
       else Done)
    (fun _ _ => (lit "echo hi", Done)).

(** As [sample_env], but the pseudo-terminal is refused. *)
Definition no_pty_env : Env :=
  mkEnv
    (dial sample_env)
    (fun h s q =>
       match q with
       | ReqRequestPty _ _ _ _ => mkReply [] (Failed (lit "ssh: pty-req failed"))
       | _ => serve sample_env h s q
       end)
    (fs_open sample_env)
    (fs_copy sample_env).

(** As [sample_env], but reading a file breaks off. *)
Definition bad_disk_env : Env :=
  mkEnv (dial sample_env) (serve sample_env) (fs_open sample_env)
        (fun _ _ => (lit "ec", Failed (lit "read script.sh: input/output error"))).

Definition empty_world : World := mkWorld ∅ 0 0 [].

Definition sample_client : Client.client := Client.mk (Some 1%nat).

(** Executors as the tests of the package build them. *)
Definition out_of_range_spec : RemoteScript.remoteScript :=
  RemoteScript.mk None 99 (lit "test") [] None None None.

Definition preset_error : error := errors_New (lit "pre-existing error").



(** An executor written out as no factory makes it and no test writes it: a
    raw script with an error of another origin. *)
Definition foreign_error_spec : RemoteScript.remoteScript :=
  RemoteScript.mk None RawScript (lit "original script") []
                  (Some preset_error) (Some (Buffer 0)) (Some (Buffer 1)).

Definition three_lines : gostring :=
  lit "ok" ++ [newline] ++ lit "  fail " ++ [newline; newline] ++ lit "never-runs".

Definition blank_lines : gostring :=
  [newline; 32; 32; newline; 9; newline].

(** ** More of the shell driver: the other factories *)

Module ShellFactories.

(** [client.ShellWithCustomTerminal] *)
Definition ShellWithCustomTerminal (c : Client.client) (term : gostring)
           (width height : Z) (modes : TerminalModes) : RemoteShell.remoteShell :=
  let config := mkTerminalConfig term width height modes in
  RemoteShell.mk (Client.sshClient c) InteractiveShell true (Some config) None None None.

(** [QuickShell] *)
Definition QuickShell (sshClient : option ssh_Client) : RemoteShell.remoteShell :=
  RemoteShell.mk sshClient NonInteractiveShell false None None None None.

(** [InteractiveShellWithDefaults] *)
Definition InteractiveShellWithDefaults (sshClient : option ssh_Client)
  : RemoteShell.remoteShell :=
  RemoteShell.mk sshClient InteractiveShell true (Some DefaultTerminalConfig) None None None.

End ShellFactories.

(** ** More vocabulary: resources and deliveries *)

(** The discipline of sessions along a stretch of trace, from the session
    that is open at its start (if any): a session is opened only when none is
    open, called and closed only while it is the open one.  The result is the
    session open at the end, or nothing when the discipline is broken. *)
Fixpoint session_protocol (cur : option nat) (evs : list Event) : option (option nat) :=
  match evs with
  | [] => Some cur
  | EvNewSession _ Done id :: evs' =>
      match cur with
      | None => session_protocol (Some id) evs'
      | Some _ => None
      end
  | EvCall s _ _ :: evs' =>
      match cur with
      | Some id => if (sid s =? id)%nat then session_protocol cur evs' else None
      | None => None
      end
  | EvClose id :: evs' =>
      match cur with
      | Some id' => if (id =? id')%nat then session_protocol None evs' else None
      | None => None
      end
  | _ :: evs' => session_protocol cur evs'
  end.

(** The same for the local script file: opened when none is, read and closed
    only while open. *)
Fixpoint file_protocol (cur : option gostring) (evs : list Event)
  : option (option gostring) :=
  match evs with
  | [] => Some cur
  | EvOpen path Done :: evs' =>
      match cur with
      | None => file_protocol (Some path) evs'
      | Some _ => None
      end
  | EvCopy path _ _ :: evs' =>
      match cur with
      | Some path' => if bool_decide (path = path') then file_protocol cur evs' else None
      | None => None
      end
  | EvFileClose path :: evs' =>
      match cur with
      | Some path' => if bool_decide (path = path') then file_protocol None evs' else None
      | None => None
      end
  | _ :: evs' => file_protocol cur evs'
  end.

(** From [w] to [w'] the trace grew by a stretch that opens and closes its
    sessions and files in good order and leaves none open. *)
Definition tidy (w w' : World) : Prop :=
  exists delta,
    trace w' = trace w ++ delta /\
    session_protocol None delta = Some None /\
    file_protocol None delta = Some None.

(** What reached the buffer at [a] during a stretch of trace: the chunks of
    the calls whose session had that buffer on the chunk's stream, in order
    of arrival. *)
Fixpoint routed (a : nat) (s : Session) (cs : list (Fd * gostring)) : gostring :=
  match cs with
  | [] => []
  | (fd, p) :: cs' =>
      match sink s fd with
      | Some (Buffer a') => if (a' =? a)%nat then p ++ routed a s cs' else routed a s cs'
      | _ => routed a s cs'
      end
  end.

Fixpoint received (a : nat) (evs : list Event) : gostring :=
  match evs with
  | [] => []
  | EvCall s _ rp :: evs' => routed a s (chunks rp) ++ received a evs'
  | _ :: evs' => received a evs'
  end.

(** Everything the remote side sent, both streams, in order of arrival. *)
Fixpoint all_chunks (cs : list (Fd * gostring)) : gostring :=
  match cs with
  | [] => []
  | (_, p) :: cs' => p ++ all_chunks cs'
  end.

Fixpoint emitted_all (evs : list Event) : gostring :=
  match evs with
  | [] => []
  | EvCall _ _ rp :: evs' => all_chunks (chunks rp) ++ emitted_all evs'
  | _ :: evs' => emitted_all evs'
  end.

(** Every call of a stretch of trace was made on a session bound to the
    sinks [o] and [e]. *)
Definition bound_to (o e : option Writer) (evs : list Event) : Prop :=
  Forall (fun ev => match ev with
                    | EvCall s _ _ => Stdout s = o /\ Stderr s = e
                    | _ => True
                    end) evs.

(** From [w] to [w']: calls on sessions bound to [o] and [e] only, every
    buffer grown by what was routed to it, no buffer allocated. *)
Definition delivers (o e : option Writer) (w w' : World) : Prop :=
  exists delta,
    trace w' = trace w ++ delta /\
    bound_to o e delta /\
    next_addr w' = next_addr w /\
    forall a, contents (heap w') a = contents (heap w) a ++ received a delta.

(** A command line as the executor sends it: not empty, with no space at
    either end, and on one line. *)
Definition sendable (cmd : gostring) : Prop :=
  cmd <> [] /\ clean_start cmd = true /\ clean_start (rev cmd) = true /\
  ~ In newline cmd.

(** The requests of a stretch of trace, in order. *)
Fixpoint requests (evs : list Event) : list Request :=
  match evs with
  | [] => []
  | EvCall _ q _ :: evs' => q :: requests evs'
  | _ :: evs' => requests evs'
  end.

(** The session [runScript] runs the script of [rs] in, opened in [w]. *)
Definition script_session (rs : RemoteScript.remoteScript) (w : World) : Session :=
  mkSession (next_sid w) (Some (strings_NewReader (RemoteScript.script rs)))
            (RemoteScript.stdout rs) (RemoteScript.stderr rs).

(** An executor with another script and script type. *)
Definition with_script (rs : RemoteScript.remoteScript) (t : ScriptType) (s : gostring)
  : RemoteScript.remoteScript :=
  RemoteScript.mk (RemoteScript.client rs) t s (RemoteScript.scriptFile rs)
                  (RemoteScript.err rs) (RemoteScript.stdout rs) (RemoteScript.stderr rs).

(** The world once the script file of [rs] has been opened and read, and its
    content stored as a raw script. *)
Definition loaded (rs : RemoteScript.remoteScript) (content : gostring) (w : World) : World :=
  mkWorld (heap w) (next_addr w) (next_sid w)
          (trace w ++ [EvOpen (RemoteScript.scriptFile rs) Done;
                       EvCopy (RemoteScript.scriptFile rs) content Done;
                       EvStore (StScript content);
                       EvStore (StScriptType RawScript)]).

(** Whether a sink is the buffer at [a]. *)
Definition is_buffer (a : nat) (o : option Writer) : bool :=
  match o with
  | Some (Buffer a') => (a' =? a)%nat
  | _ => false
  end.

(** What the buffer at [a] gets of a stretch of trace whose calls are bound
    to the sinks [o] and [e]: both streams in order of arrival when it is
    both sinks, one stream when it is one of them, nothing otherwise. *)
Definition share (a : nat) (o e : option Writer) (evs : list Event) : gostring :=
  if is_buffer a o then
    if is_buffer a e then emitted_all evs else emitted FdOut evs
  else
    if is_buffer a e then emitted FdErr evs else [].

(** A sink that is a buffer is one allocated before. *)
Definition allocated (w : World) (o : option Writer) : Prop :=
  match o with
  | Some (Buffer a) => (a < next_addr w)%nat
  | _ => True
  end.

(** A world in which the caller holds two buffers, the first one not empty. *)
Definition busy_world : World :=
  mkWorld (<[1%nat := []]> (<[0%nat := lit "earlier"]> ∅)) 2 0 [].

(** An executor whose sinks are the two buffers of [busy_world]. *)
Definition wired_spec : RemoteScript.remoteScript :=
  RemoteScript.mk (Some 1%nat) CommandLine (lit "fail") [] None
                  (Some (Buffer 0)) (Some (Buffer 1)).

(** The executor and the world of the inner [Run] of [Output]. *)
Definition capturing (rs : RemoteScript.remoteScript) (w : World)
  : RemoteScript.remoteScript :=
  RemoteScript.mk (RemoteScript.client rs) (RemoteScript.scriptType rs)
                  (RemoteScript.script rs) (RemoteScript.scriptFile rs)
                  (RemoteScript.err rs)
                  (Some (Buffer (next_addr w))) (RemoteScript.stderr rs).

Definition capturing_world (w : World) : World :=
  mkWorld (<[next_addr w := []]> (heap w)) (S (next_addr w)) (next_sid w)
          (trace w ++ [EvStore (StStdout (Some (Buffer (next_addr w))))]).

(** From [w] to [w'] the trace grew by a stretch that takes the session
    discipline from [c] to [c'] and the file discipline from [f] to [f']. *)
Definition proceeds (c c' : option nat) (f f' : option gostring) (w w' : World) : Prop :=
  exists delta,
    trace w' = trace w ++ delta /\
    session_protocol c delta = Some c' /\
    file_protocol f delta = Some f'.

(** What [Start] asks of its session, in order, when nothing fails. *)
Definition start_plan (rs : RemoteShell.remoteShell) (command : gostring) : list Request :=
  (if RemoteShell.requestPty rs then [pty_request rs] else [])
  ++ (if is_empty command then [] else [ReqRun command])
  ++ [ReqShell; ReqWait].

(** From [w] to [w'] the session [s] was asked [qs], in this order, and no
    other session was asked anything. *)
Definition asks (s : Session) (qs : list Request) (w w' : World) : Prop :=
  exists delta,
    trace w' = trace w ++ delta /\
    requests delta = qs /\
    Forall (fun ev => match ev with EvCall s' _ _ => s' = s | _ => True end) delta.

(** ** File transfer: the collaborators *)

Module Sftp.

(** [*sftp.Client], and an open file, local ([*os.File]) or remote
    ([*sftp.File]): each is named by the place in the trace of the call that
    made it. *)
Definition sftp_Client := nat.
Definition File := nat.

(** [os.FileInfo] and [os.FileMode] *)
Definition FileInfo := gostring.
Definition FileMode := Z.

(** [os.O_WRONLY], [os.O_CREATE] and [os.O_TRUNC], as on Linux. *)
Definition O_WRONLY : Z := 1.
Definition O_CREATE : Z := 64.
Definition O_TRUNC : Z := 512.

(** The calls into [sftp], [os], [io], [ssh] and [fmt]. *)
Inductive Call :=
| SftpNewClient (conn : ssh_Client)
| SftpOpen (s : sftp_Client) (name : gostring)
| SftpOpenFile (s : sftp_Client) (name : gostring) (flags : Z)
| OsOpen (path : gostring)
| OsOpenFile (path : gostring) (flags : Z) (perm : FileMode)
| IoReadAll (f : File)
| FileWrite (f : File) (data : gostring)
| IoCopy (dst src : File)
| FileClose (f : File)
| SftpMkdir (s : sftp_Client) (path : gostring)
| SftpMkdirAll (s : sftp_Client) (path : gostring)
| SftpRemove (s : sftp_Client) (path : gostring)
| SftpRemoveDirectory (s : sftp_Client) (path : gostring)
| SftpStat (s : sftp_Client) (path : gostring)
| SftpLstat (s : sftp_Client) (path : gostring)
| SftpReadDir (s : sftp_Client) (path : gostring)
| SftpChmod (s : sftp_Client) (path : gostring) (mode : FileMode)
| SftpChown (s : sftp_Client) (path : gostring) (uid gid : Z)
| SftpRename (s : sftp_Client) (oldname newname : gostring)
| SftpClose (s : sftp_Client)
| SshClose (conn : ssh_Client)
| FmtPrintf (text : gostring).

(** What a call hands back beside its error. *)
Inductive Value :=
| NoValue
| Bytes (b : gostring)
| Info (i : FileInfo)
| Infos (l : list FileInfo).

Record Answer := mkAnswer {
  value : Value;
  result : Status
}.

Inductive Step := Did (c : Call) (a : Answer).

(** The collaborators: each answer may depend on everything that happened
    before. *)
Definition Backend := list Step -> Call -> Answer.

(** Computations over the trace of calls; a panic ends them. *)
Definition T (A : Type) := list Step -> outcome A * list Step.

Definition pure {A} (a : A) : T A := fun t => (Returned a, t).

Definition crash {A} (msg : gostring) : T A := fun t => (Panicked msg, t).

Definition and_then {A B} (m : T A) (k : A -> T B) : T B :=
  fun t =>
    match m t with
    | (Returned a, t') => k a t'
    | (Panicked msg, t') => (Panicked msg, t')
    end.

Notation "x <~ m ;; k" := (and_then m (fun x => k))
  (at level 62, m at next level, right associativity, only parsing).

(** [defer d] in front of [body]. *)
Definition deferred {A} (d : T unit) (body : T A) : T A :=
  fun t =>
    match body t with
    | (res, t1) =>
        match d t1 with
        | (Returned _, t2) => (res, t2)
        | (Panicked msg, t2) => (Panicked msg, t2)
        end
    end.

Definition error_of (a : Answer) : option error :=
  match result a with
  | Failed msg => Some (foreign msg)
  | _ => None
  end.

Section WithBackend.
Variable b : Backend.

(** One call: it is answered, and recorded with its answer. *)
Definition ask (c : Call) : T Answer :=
  fun t =>
    let a := b t c in
    match result a with
    | Aborted msg => (Panicked msg, t ++ [Did c a])
    | _ => (Returned a, t ++ [Did c a])
    end.

(** A call that makes a client or opens a file. *)
Definition make (c : Call) : T (nat + error) :=
  fun t =>
    match ask c t with
    | (Returned a, t') =>
        match error_of a with
        | None => (Returned (inl (length t)), t')
        | Some e => (Returned (inr e), t')
        end
    | (Panicked msg, t') => (Panicked msg, t')
    end.

(** [f.Close()]; its error is never looked at. *)
Definition close (f : File) : T unit :=
  _ <~ ask (FileClose f) ;; pure tt.

(** [fmt.Printf], whose results are never looked at. *)
Definition say (text : gostring) : T unit :=
  fun t => (Returned tt, t ++ [Did (FmtPrintf text) (b t (FmtPrintf text))]).

(** A call on a [*sftp.Client] that may be nil. *)
Definition on_client {A} (s : option sftp_Client) (k : sftp_Client -> T A) : T A :=
  match s with
  | None => crash nil_dereference
  | Some s => k s
  end.
End WithBackend.

(** [SftpConfig] and the options that set its fields. *)
Record SftpConfig := mkSftpConfig {
  MaxPacket : Z;
  UseFstat : bool
}.

Definition SftpOption := SftpConfig -> SftpConfig.

Definition WithMaxPacket (size : Z) : SftpOption :=
  fun config => mkSftpConfig size (UseFstat config).

Definition WithFstat (enabled : bool) : SftpOption :=
  fun config => mkSftpConfig (MaxPacket config) enabled.

Definition FastSftpOptions : list SftpOption :=
  [WithMaxPacket 65536; WithFstat false].

Definition SafeSftpOptions : list SftpOption :=
  [WithMaxPacket 32768; WithFstat true].

Definition DefaultSftpOptions : list SftpOption :=
  [WithMaxPacket 32768; WithFstat false].

End Sftp.

(** ** The [remoteFileSystem] *)

Module RemoteFileSystem.
Import Sftp.

Record remoteFileSystem := mk {
  client : option ssh_Client;
  sftp : option sftp_Client;
  config : SftpConfig;
  err : option error
}.

Section WithBackend.
Variable b : Backend.

Definition ReadFile (rfs : remoteFileSystem) (name : gostring)
  : T (option gostring * option error) :=
  match err rfs with
  | Some e => pure (None, Some e)
  | None =>
      on_client (sftp rfs) (fun s =>
        r <~ make b (SftpOpen s name) ;;
        match r with
        | inr e => pure (None, Some e)
        | inl f =>
            deferred (close b f)
              (a <~ ask b (IoReadAll f) ;;
               pure (Some (match value a with Bytes data => data | _ => [] end),
                     error_of a))
        end)
  end.

Definition WriteFile (rfs : remoteFileSystem) (name data : gostring) (perm : FileMode)
  : T (option error) :=
  match err rfs with
  | Some e => pure (Some e)
  | None =>
      on_client (sftp rfs) (fun s =>
        r <~ make b (SftpOpenFile s name (Z.lor (Z.lor O_WRONLY O_CREATE) O_TRUNC)) ;;
        match r with
        | inr e => pure (Some e)
        | inl f =>
            deferred (close b f)
              (a <~ ask b (FileWrite f data) ;; pure (error_of a))
        end)
  end.

Definition Upload (rfs : remoteFileSystem) (localPath remotePath : gostring)
  : T (option error) :=
  match err rfs with
  | Some e => pure (Some e)
  | None =>
      r <~ make b (OsOpen localPath) ;;
      match r with
      | inr e => pure (Some e)
      | inl localFile =>
          deferred (close b localFile)
            (on_client (sftp rfs) (fun s =>
               r <~ make b (SftpOpenFile s remotePath
                              (Z.lor (Z.lor O_CREATE O_WRONLY) O_TRUNC)) ;;
               match r with
               | inr e => pure (Some e)
               | inl remoteFile =>
                   deferred (close b remoteFile)
                     (a <~ ask b (IoCopy remoteFile localFile) ;; pure (error_of a))
               end))
      end
  end.

Definition Download (rfs : remoteFileSystem) (remotePath localPath : gostring)
  : T (option error) :=
  match err rfs with
  | Some e => pure (Some e)
  | None =>
      on_client (sftp rfs) (fun s =>
        r <~ make b (SftpOpen s remotePath) ;;
        match r with
        | inr e => pure (Some e)
        | inl remoteFile =>
            deferred (close b remoteFile)
              (r <~ make b (OsOpenFile localPath
                              (Z.lor (Z.lor O_CREATE O_WRONLY) O_TRUNC) 420) ;;
               match r with
               | inr e => pure (Some e)
               | inl localFile =>
                   deferred (close b localFile)
                     (a <~ ask b (IoCopy localFile remoteFile) ;; pure (error_of a))
               end)
        end)
  end.

(** The methods that hand one call on to the SFTP client. *)
Definition forward (rfs : remoteFileSystem) (c : sftp_Client -> Call) : T Answer :=
  on_client (sftp rfs) (fun s => ask b (c s)).

Definition Mkdir (rfs : remoteFileSystem) (path : gostring) : T (option error) :=
  match err rfs with
  | Some e => pure (Some e)
  | None => a <~ forward rfs (fun s => SftpMkdir s path) ;; pure (error_of a)
  end.

Definition MkdirAll (rfs : remoteFileSystem) (path : gostring) : T (option error) :=
  match err rfs with
  | Some e => pure (Some e)
  | None => a <~ forward rfs (fun s => SftpMkdirAll s path) ;; pure (error_of a)
  end.

Definition Remove (rfs : remoteFileSystem) (path : gostring) : T (option error) :=
  match err rfs with
  | Some e => pure (Some e)
  | None => a <~ forward rfs (fun s => SftpRemove s path) ;; pure (error_of a)
  end.

Definition RemoveDirectory (rfs : remoteFileSystem) (path : gostring) : T (option error) :=
  match err rfs with
  | Some e => pure (Some e)
  | None => a <~ forward rfs (fun s => SftpRemoveDirectory s path) ;; pure (error_of a)
  end.

Definition info_of (a : Answer) : option FileInfo :=
  match value a with Info i => Some i | _ => None end.

Definition Stat (rfs : remoteFileSystem) (path : gostring)
  : T (option FileInfo * option error) :=
  match err rfs with
  | Some e => pure (None, Some e)
  | None => a <~ forward rfs (fun s => SftpStat s path) ;; pure (info_of a, error_of a)
  end.

Definition Lstat (rfs : remoteFileSystem) (path : gostring)
  : T (option FileInfo * option error) :=
  match err rfs with
  | Some e => pure (None, Some e)
  | None => a <~ forward rfs (fun s => SftpLstat s path) ;; pure (info_of a, error_of a)
  end.

Definition ReadDir (rfs : remoteFileSystem) (path : gostring)
  : T (option (list FileInfo) * option error) :=
  match err rfs with
  | Some e => pure (None, Some e)
  | None =>
      a <~ forward rfs (fun s => SftpReadDir s path) ;;
      pure (match value a with Infos l => Some l | _ => None end, error_of a)
  end.

Definition Chmod (rfs : remoteFileSystem) (path : gostring) (mode : FileMode)
  : T (option error) :=
  match err rfs with
  | Some e => pure (Some e)
  | None => a <~ forward rfs (fun s => SftpChmod s path mode) ;; pure (error_of a)
  end.

Definition Chown (rfs : remoteFileSystem) (path : gostring) (uid gid : Z)
  : T (option error) :=
  match err rfs with
  | Some e => pure (Some e)
  | None => a <~ forward rfs (fun s => SftpChown s path uid gid) ;; pure (error_of a)
  end.

Definition Rename (rfs : remoteFileSystem) (oldname newname : gostring)
  : T (option error) :=
  match err rfs with
  | Some e => pure (Some e)
  | None => a <~ forward rfs (fun s => SftpRename s oldname newname) ;; pure (error_of a)
  end.

Definition Close (rfs : remoteFileSystem) : T (option error) :=
  match err rfs with
  | Some e => pure (Some e)
  | None =>
      match sftp rfs with
      | Some s => a <~ ask b (SftpClose s) ;; pure (error_of a)
      | None => pure None
      end
  end.
End WithBackend.
End RemoteFileSystem.

(** ** The [client], with its SFTP session *)

Module Connection.
Import Sftp.

(** [type ConnectionStatus string] *)
Definition ConnectionStatus := gostring.
Definition StatusConnected : ConnectionStatus := lit "connected".
Definition StatusDisconnected : ConnectionStatus := lit "disconnected".
Definition StatusConnecting : ConnectionStatus := lit "connecting".
Definition StatusError : ConnectionStatus := lit "error".

(** [ClientConfig]; the durations in nanoseconds. *)
Record ClientConfig := mkClientConfig {
  Timeout : Z;
  KeepAlive : Z;
  MaxSessions : Z;
  RetryAttempts : Z;
  RetryDelay : Z
}.

Definition DefaultClientConfig : ClientConfig :=
  mkClientConfig 30000000000 5000000000 10 3 1000000000.

Record client := mk {
  sshClient : option ssh_Client;
  sftpClient : option sftp_Client;
  config : ClientConfig;
  status : ConnectionStatus
}.

Definition newClient (sshClient : option ssh_Client) (config : option ClientConfig)
  : client :=
  mk sshClient None (default DefaultClientConfig config) StatusConnected.

(** [fmt.Errorf("SSH client is nil")] *)
Definition ssh_client_is_nil : error := errors_New (lit "SSH client is nil").

(** The options applied in order to an empty [SftpConfig]. *)
Definition configure (opts : list SftpOption) : SftpConfig :=
  fold_left (fun config opt => opt config) opts (mkSftpConfig 0 false).

(** [multierror.Append] of one error, which may be nil, and [ErrorOrNil]. *)
Definition Append (merr : list error) (e : option error) : list error :=
  match e with
  | Some e => merr ++ [e]
  | None => merr
  end.

Definition ErrorOrNil (merr : list error) : option (list error) :=
  match merr with
  | [] => None
  | _ :: _ => Some merr
  end.

Section WithBackend.
Variable b : Backend.

(** [FileSystem]: the file system, and the client as the call leaves it. *)
Definition FileSystem (opts : list SftpOption) (c : client)
  : T (RemoteFileSystem.remoteFileSystem * client) :=
  let config := configure opts in
  match sftpClient c with
  | None =>
      match sshClient c with
      | None =>
          pure (RemoteFileSystem.mk (sshClient c) None config (Some ssh_client_is_nil), c)
      | Some conn =>
          r <~ make b (SftpNewClient conn) ;;
          match r with
          | inr e => pure (RemoteFileSystem.mk (sshClient c) None config (Some e), c)
          | inl s =>
              let c := mk (sshClient c) (Some s) (Connection.config c) (status c) in
              pure (RemoteFileSystem.mk (sshClient c) (sftpClient c) config None, c)
          end
      end
  | Some _ =>
      pure (RemoteFileSystem.mk (sshClient c) (sftpClient c) config None, c)
  end.

(** [Close]: the errors gathered, and the client as the call leaves it. *)
Definition Close (c : client) : T (option (list error) * client) :=
  if same (status c) StatusDisconnected then pure (None, c)
  else
    merr <~ match sftpClient c with
            | Some s => a <~ ask b (SftpClose s) ;; pure (Append [] (error_of a))
            | None => pure []
            end ;;
    merr <~ match sshClient c with
            | Some conn => a <~ ask b (SshClose conn) ;; pure (Append merr (error_of a))
            | None => pure merr
            end ;;
    pure (ErrorOrNil merr,
          mk (sshClient c) (sftpClient c) (config c) StatusDisconnected).
End WithBackend.

Definition Status (c : client) : ConnectionStatus := status c.

Definition UnderlyingClient (c : client) : option ssh_Client := sshClient c.

End Connection.

(** ** The command line *)

Module CLI.
Import Sftp.

(** ['@'] *)
Definition at_sign : rune := 64.

(** [extractUser] *)
Definition extractUser (host : gostring) : gostring :=
  let parts := Split host at_sign in
  if (1 <? length parts)%nat then nth 0 parts []
  else lit "root".

(** [extractHostAddr] *)
Definition extractHostAddr (host : gostring) : gostring :=
  if Contains host [at_sign] then
    let parts := Split host at_sign in
    if (1 <? length parts)%nat then nth 1 parts []
    else host
  else host.

(** [':'] *)
Definition colon : rune := 58.

Definition invalid_upload_format : error :=
  errors_New (lit "invalid upload format, use: local:remote").

Definition invalid_download_format : error :=
  errors_New (lit "invalid download format, use: remote:local").

Section WithBackend.
Variable b : Backend.

(** [handleUpload]: the error, and the client as the call leaves it. *)
Definition handleUpload (client : Connection.client) (upload : gostring)
  : T (option error * Connection.client) :=
  let parts := Split upload colon in
  if negb (length parts =? 2)%nat then pure (Some invalid_upload_format, client)
  else
    _ <~ say b (lit "Uploading " ++ nth 0 parts [] ++ lit " to " ++ nth 1 parts []
                ++ [newline]) ;;
    r <~ Connection.FileSystem b [] client ;;
    let fs := fst r in
    let client := snd r in
    deferred (_ <~ RemoteFileSystem.Close b fs ;; pure tt)
      (e <~ RemoteFileSystem.Upload b fs (nth 0 parts []) (nth 1 parts []) ;;
       pure (e, client)).

(** [handleDownload] *)
Definition handleDownload (client : Connection.client) (download : gostring)
  : T (option error * Connection.client) :=
  let parts := Split download colon in
  if negb (length parts =? 2)%nat then pure (Some invalid_download_format, client)
  else
    _ <~ say b (lit "Downloading " ++ nth 0 parts [] ++ lit " to " ++ nth 1 parts []
                ++ [newline]) ;;
    r <~ Connection.FileSystem b [] client ;;
    let fs := fst r in
    let client := snd r in
    deferred (_ <~ RemoteFileSystem.Close b fs ;; pure tt)
      (e <~ RemoteFileSystem.Download b fs (nth 0 parts []) (nth 1 parts []) ;;
       pure (e, client)).
End WithBackend.

End CLI.

(** ** Vocabulary for file transfer *)

(** The operations of a file system. *)
Inductive FsOp :=
| FsReadFile (name : gostring)
| FsWriteFile (name data : gostring) (perm : Sftp.FileMode)
| FsUpload (localPath remotePath : gostring)
| FsDownload (remotePath localPath : gostring)
| FsMkdir (path : gostring)
| FsMkdirAll (path : gostring)
| FsRemove (path : gostring)
| FsRemoveDirectory (path : gostring)
| FsStat (path : gostring)
| FsLstat (path : gostring)
| FsReadDir (path : gostring)
| FsChmod (path : gostring) (mode : Sftp.FileMode)
| FsChown (path : gostring) (uid gid : Z)
| FsRename (oldname newname : gostring)
| FsClose.

Definition no_data (m : Sftp.T (option error)) : Sftp.T (Sftp.Value * option error) :=
  Sftp.and_then m (fun e => Sftp.pure (Sftp.NoValue, e)).

Definition with_data {A} (f : A -> Sftp.Value) (m : Sftp.T (option A * option error))
  : Sftp.T (Sftp.Value * option error) :=
  Sftp.and_then m (fun r =>
    Sftp.pure (match fst r with Some a => f a | None => Sftp.NoValue end, snd r)).

(** One operation, with what it hands back: the data (if any) and the
    error. *)
Definition operate (b : Sftp.Backend) (op : FsOp) (rfs : RemoteFileSystem.remoteFileSystem)
  : Sftp.T (Sftp.Value * option error) :=
  match op with
  | FsReadFile name => with_data Sftp.Bytes (RemoteFileSystem.ReadFile b rfs name)
  | FsWriteFile name data perm => no_data (RemoteFileSystem.WriteFile b rfs name data perm)
  | FsUpload l r => no_data (RemoteFileSystem.Upload b rfs l r)
  | FsDownload r l => no_data (RemoteFileSystem.Download b rfs r l)
  | FsMkdir path => no_data (RemoteFileSystem.Mkdir b rfs path)
  | FsMkdirAll path => no_data (RemoteFileSystem.MkdirAll b rfs path)
  | FsRemove path => no_data (RemoteFileSystem.Remove b rfs path)
  | FsRemoveDirectory path => no_data (RemoteFileSystem.RemoveDirectory b rfs path)
  | FsStat path => with_data Sftp.Info (RemoteFileSystem.Stat b rfs path)
  | FsLstat path => with_data Sftp.Info (RemoteFileSystem.Lstat b rfs path)
  | FsReadDir path => with_data Sftp.Infos (RemoteFileSystem.ReadDir b rfs path)
  | FsChmod path mode => no_data (RemoteFileSystem.Chmod b rfs path mode)
  | FsChown path uid gid => no_data (RemoteFileSystem.Chown b rfs path uid gid)
  | FsRename o n => no_data (RemoteFileSystem.Rename b rfs o n)
  | FsClose => no_data (RemoteFileSystem.Close b rfs)
  end.

Definition is_open (f : Sftp.File) (open : list Sftp.File) : bool :=
  existsb (Nat.eqb f) open.

(** The discipline of file handles along a stretch of trace that starts at
    place [pos], from the files open at its start, the last opened first: a
    file is read, written or copied only while it is open, and the file that
    is closed is the one opened last.  The result is the files open at the
    end, or nothing when the discipline is broken. *)
Fixpoint handles (pos : nat) (open : list Sftp.File) (evs : list Sftp.Step)
  : option (list Sftp.File) :=
  match evs with
  | [] => Some open
  | Sftp.Did c a :: evs' =>
      match c with
      | Sftp.SftpOpen _ _ | Sftp.SftpOpenFile _ _ _ | Sftp.OsOpen _ | Sftp.OsOpenFile _ _ _ =>
          handles (S pos)
                  (match Sftp.result a with Done => pos :: open | _ => open end) evs'
      | Sftp.IoReadAll f | Sftp.FileWrite f _ =>
          if is_open f open then handles (S pos) open evs' else None
      | Sftp.IoCopy dst src =>
          if is_open dst open && is_open src open then handles (S pos) open evs' else None
      | Sftp.FileClose f =>
          match open with
          | top :: rest => if (f =? top)%nat then handles (S pos) rest evs' else None
          | [] => None
          end
      | _ => handles (S pos) open evs'
      end
  end.

(** Whether a call came back, with or without an error. *)
Definition came_back (a : Sftp.Answer) : Prop :=
  match Sftp.result a with Aborted _ => False | _ => True end.

(** The result of a call whose only result is an error. *)
Definition error_result (a : Sftp.Answer) : outcome (option error) :=
  match Sftp.result a with
  | Aborted msg => Panicked msg
  | _ => Returned (Sftp.error_of a)
  end.

(** A caller of the client: it asks for file systems and closes the client,
    in any order; a panic is recovered and the client is used on. *)
Inductive ClientOp :=
| DoFileSystem (opts : list Sftp.SftpOption)
| DoClose.

(** The file systems handed out, the client and the trace at the end. *)
Fixpoint drive (b : Sftp.Backend) (ops : list ClientOp) (c : Connection.client)
         (t : list Sftp.Step)
  : list RemoteFileSystem.remoteFileSystem * Connection.client * list Sftp.Step :=
  match ops with
  | [] => ([], c, t)
  | DoFileSystem opts :: ops' =>
      match Connection.FileSystem b opts c t with
      | (Returned (fs, c'), t') =>
          let '(fss, c2, t2) := drive b ops' c' t' in (fs :: fss, c2, t2)
      | (Panicked _, t') => drive b ops' c t'
      end
  | DoClose :: ops' =>
      match Connection.Close b c t with
      | (Returned (_, c'), t') => drive b ops' c' t'
      | (Panicked _, t') => drive b ops' c t'
      end
  end.

(** How many SFTP clients were made during a stretch of trace. *)
Fixpoint clients_made (evs : list Sftp.Step) : nat :=
  match evs with
  | [] => 0
  | Sftp.Did (Sftp.SftpNewClient _) a :: evs' =>
      (match Sftp.result a with Done => 1 | _ => 0 end + clients_made evs')%nat
  | _ :: evs' => clients_made evs'
  end.





(** A file system but for its configuration, and a client once closed. *)
Definition configured (rfs : RemoteFileSystem.remoteFileSystem) (config : Sftp.SftpConfig)
  : RemoteFileSystem.remoteFileSystem :=
  RemoteFileSystem.mk (RemoteFileSystem.client rfs) (RemoteFileSystem.sftp rfs) config
                      (RemoteFileSystem.err rfs).


(** ** Samples for file transfer *)

(** A server with one file; everything else succeeds with nothing to say. *)
Definition sample_backend : Sftp.Backend :=
  fun t c =>
    match c with
    | Sftp.IoReadAll _ => Sftp.mkAnswer (Sftp.Bytes (lit "hello")) Done
    | Sftp.SftpOpen _ name =>
        if same name (lit "/missing")
        then Sftp.mkAnswer Sftp.NoValue (Failed (lit "file does not exist"))
        else Sftp.mkAnswer Sftp.NoValue Done
    | _ => Sftp.mkAnswer Sftp.NoValue Done
    end.

(** A connection that refuses the SFTP subsystem. *)
Definition no_sftp_backend : Sftp.Backend :=
  fun t c =>
    match c with
    | Sftp.SftpNewClient _ =>
        Sftp.mkAnswer Sftp.NoValue (Failed (lit "subsystem request failed"))
    | _ => Sftp.mkAnswer Sftp.NoValue Done
    end.

Definition sample_connection : Connection.client :=
  Connection.newClient (Some 1%nat) None.

(** ** Vocabulary for the command line *)

(** What [defer fs.Close()] makes of a transfer that ended as [u]: the file
    system is closed, the error of closing is dropped, and a panic of closing
    takes the place of whatever the transfer gave. *)
Definition closing (b : Sftp.Backend) (fs : RemoteFileSystem.remoteFileSystem)
           (c : Connection.client) (u : outcome (option error) * list Sftp.Step)
  : outcome (option error * Connection.client) * list Sftp.Step :=
  match RemoteFileSystem.Close b fs (snd u) with
  | (Returned _, t') =>
      (match fst u with
       | Returned e => Returned (e, c)
       | Panicked msg => Panicked msg
       end, t')
  | (Panicked msg, t') => (Panicked msg, t')
  end.

(** A handler of the command line that takes [first:second] apart at its one
    colon and hands the two to [transfer] on a file system of the client,
    which it closes afterwards; a string with no colon, or with more than
    one, is refused before anything is done. *)
Definition transfers_by (b : Sftp.Backend)
           (handler : Connection.client -> gostring ->
                      Sftp.T (option error * Connection.client))
           (verb : gostring) (refusal : error)
           (transfer : RemoteFileSystem.remoteFileSystem -> gostring -> gostring ->
                       Sftp.T (option error)) : Prop :=
  forall (c : Connection.client) (t : list Sftp.Step),
    (forall spec, ~ In CLI.colon spec ->
                  handler c spec t = (Returned (Some refusal, c), t)) /\
    (forall x y z, handler c (x ++ CLI.colon :: y ++ CLI.colon :: z) t
                   = (Returned (Some refusal, c), t)) /\
    (forall first second,
        ~ In CLI.colon first -> ~ In CLI.colon second ->
        let said := Sftp.FmtPrintf (verb ++ first ++ lit " to " ++ second ++ [newline]) in
        handler c (first ++ CLI.colon :: second) t =
          match Connection.FileSystem b [] c (t ++ [Sftp.Did said (b t said)]) with
          | (Returned (fs, c'), t1) => closing b fs c' (transfer fs first second t1)
          | (Panicked msg, t1) => (Panicked msg, t1)
          end).

(** * Properties *)

(** ** Strings *)

Lemma TrimLeftSpace_whitespace (s : gostring) :
  forallb IsSpace s = true -> TrimLeftSpace s = [].
Proof.
  induction s as [|r s IH]; simpl; [reflexivity|].
  intros H. apply andb_true_iff in H as [Hr Hs].
  rewrite Hr. auto.
Qed.

Lemma TrimSpace_whitespace (s : gostring) :
  forallb IsSpace s = true -> TrimSpace s = [].
Proof.
  intros H. unfold TrimSpace. rewrite (TrimLeftSpace_whitespace s H). reflexivity.
Qed.

Lemma Split_whitespace (s : gostring) (sep : rune) :
  forallb IsSpace s = true ->
  Forall (fun piece => forallb IsSpace piece = true) (Split s sep).
Proof.
  induction s as [|r s IH]; simpl; intros H.
  - repeat constructor.
  - apply andb_true_iff in H as [Hr Hs]. specialize (IH Hs).
    destruct (r =? sep).
    + constructor; [reflexivity | exact IH].
    + destruct (Split s sep) as [|piece pieces].
      * repeat constructor. simpl. rewrite Hr. reflexivity.
      * inversion IH; subst. constructor; [|assumption].
        simpl. rewrite Hr. assumption.
Qed.

Lemma commands_of_whitespace (body : gostring) :
  whitespace_only body = true -> commands_of body = [].
Proof.
  intros H. unfold commands_of.
  pose proof (Split_whitespace body newline H) as HS.
  induction HS as [|piece pieces Hp _ IH]; simpl; [reflexivity|].
  rewrite (TrimSpace_whitespace piece Hp). simpl. exact IH.
Qed.

(** *** Splitting *)

Lemma Split_nonempty (s : gostring) (sep : rune) : Split s sep <> [].
Proof.
  destruct s as [|r s]; simpl; [discriminate|].
  destruct (r =? sep); [discriminate|].
  destruct (Split s sep); discriminate.
Qed.

(** Splitting on both sides of a separator. *)
Lemma Split_app (a b : gostring) (sep : rune) :
  Split (a ++ sep :: b) sep = Split a sep ++ Split b sep.
Proof.
  induction a as [|r a IH]; simpl.
  - rewrite Z.eqb_refl. reflexivity.
  - destruct (r =? sep).
    + rewrite IH. reflexivity.
    + rewrite IH. pose proof (Split_nonempty a sep) as Hn.
      destruct (Split a sep) as [|piece pieces]; [contradiction|]. reflexivity.
Qed.

Lemma Split_no_sep (s : gostring) (sep : rune) :
  ~ In sep s -> Split s sep = [s].
Proof.
  induction s as [|r s IH]; simpl; intros Hn; [reflexivity|].
  destruct (Z.eqb_spec r sep) as [E|E].
  - exfalso. apply Hn. left. exact E.
  - rewrite IH; [reflexivity|]. intros Hin. apply Hn. right. exact Hin.
Qed.

Lemma Split_pieces (s : gostring) (sep : rune) :
  Forall (fun piece => ~ In sep piece) (Split s sep).
Proof.
  induction s as [|r s IH]; simpl.
  - constructor; [intros []|constructor].
  - destruct (Z.eqb_spec r sep) as [E|E].
    + constructor; [intros []|exact IH].
    + destruct (Split s sep) as [|piece pieces].
      * constructor; [|constructor]. intros [H|[]]. exact (E H).
      * inversion IH as [|? ? Hp Hps]; subst. constructor; [|exact Hps].
        intros [H|H]; [exact (E H)|exact (Hp H)].
Qed.

(** The pieces of a split, joined again, are the string. *)
Lemma join_lines_Split (s : gostring) : join_lines (Split s newline) = s.
Proof.
  induction s as [|r s IH]; [reflexivity|]. simpl Split.
  pose proof (Split_nonempty s newline) as Hn.
  destruct (Z.eqb_spec r newline) as [E|E].
  - destruct (Split s newline) as [|p ps]; [contradiction|].
    change (join_lines ([] :: p :: ps)) with (newline :: join_lines (p :: ps)).
    rewrite IH, E. reflexivity.
  - destruct (Split s newline) as [|p ps]; [contradiction|].
    destruct ps as [|q qs].
    + simpl in *. rewrite IH. reflexivity.
    + change (join_lines ((r :: p) :: q :: qs))
        with (r :: (p ++ newline :: join_lines (q :: qs))).
      change (join_lines (p :: q :: qs)) with (p ++ newline :: join_lines (q :: qs)) in IH.
      rewrite IH. reflexivity.
Qed.

(** The pieces of a string are the only way to write it as pieces joined by
    newlines with no newline in any piece. *)
Lemma Split_join_lines (pieces : list gostring) :
  pieces <> [] ->
  Forall (fun piece => ~ In newline piece) pieces ->
  Split (join_lines pieces) newline = pieces.
Proof.
  induction pieces as [|p ps IH]; intros Hne Hall; [contradiction|].
  inversion Hall as [|? ? Hp Hps]; subst.
  destruct ps as [|q qs].
  - simpl. apply Split_no_sep. exact Hp.
  - change (join_lines (p :: q :: qs)) with (p ++ newline :: join_lines (q :: qs)).
    rewrite Split_app, (Split_no_sep p newline Hp), IH; [reflexivity|discriminate|exact Hps].
Qed.

Lemma commands_of_nil : commands_of [] = [].
Proof. reflexivity. Qed.

Lemma commands_of_app (a b : gostring) :
  commands_of (a ++ [newline] ++ b) = commands_of a ++ commands_of b.
Proof.
  unfold commands_of. simpl app. rewrite Split_app, map_app, List.filter_app. reflexivity.
Qed.

(** *** Trimming *)

Lemma forallb_rev {A} (f : A -> bool) (l : list A) :
  forallb f (rev l) = forallb f l.
Proof.
  induction l as [|a l IH]; [reflexivity|].
  simpl. rewrite forallb_app, IH. simpl. rewrite andb_true_r. apply andb_comm.
Qed.

Lemma TrimLeftSpace_suffix (s : gostring) :
  exists spaces, s = spaces ++ TrimLeftSpace s /\ forallb IsSpace spaces = true.
Proof.
  induction s as [|r s (spaces & IH & Hs)]; simpl.
  - exists []. split; reflexivity.
  - destruct (IsSpace r) eqn:E.
    + exists (r :: spaces). simpl. rewrite <- IH, E, Hs. split; reflexivity.
    + exists []. split; reflexivity.
Qed.

Lemma TrimLeftSpace_clean (s : gostring) : clean_start (TrimLeftSpace s) = true.
Proof.
  induction s as [|r s IH]; simpl; [reflexivity|].
  destruct (IsSpace r) eqn:E; [exact IH|]. simpl. rewrite E. reflexivity.
Qed.

Lemma TrimLeftSpace_fixed (s : gostring) :
  clean_start s = true -> TrimLeftSpace s = s.
Proof.
  destruct s as [|r s]; simpl; [reflexivity|].
  intros H. apply negb_true_iff in H. rewrite H. reflexivity.
Qed.

Lemma TrimLeftSpace_skip (spaces s : gostring) :
  forallb IsSpace spaces = true -> TrimLeftSpace (spaces ++ s) = TrimLeftSpace s.
Proof.
  induction spaces as [|r spaces IH]; simpl; intros H; [reflexivity|].
  apply andb_true_iff in H as [Hr Hs]. rewrite Hr. exact (IH Hs).
Qed.

Lemma TrimRightSpace_prefix (s : gostring) :
  exists spaces, s = TrimRightSpace s ++ spaces /\ forallb IsSpace spaces = true.
Proof.
  unfold TrimRightSpace. destruct (TrimLeftSpace_suffix (rev s)) as (spaces & H & Hs).
  exists (rev spaces). rewrite <- rev_app_distr, <- H, rev_involutive, forallb_rev.
  split; [reflexivity | exact Hs].
Qed.

Lemma TrimRightSpace_clean (s : gostring) :
  clean_start s = true -> clean_start (TrimRightSpace s) = true.
Proof.
  intros H. destruct (TrimRightSpace_prefix s) as (spaces & E & _).
  destruct (TrimRightSpace s) as [|r t]; [reflexivity|].
  rewrite E in H. exact H.
Qed.

Lemma TrimRightSpace_idempotent (s : gostring) :
  TrimRightSpace (TrimRightSpace s) = TrimRightSpace s.
Proof.
  unfold TrimRightSpace. rewrite rev_involutive.
  rewrite (TrimLeftSpace_fixed _ (TrimLeftSpace_clean (rev s))). reflexivity.
Qed.

Lemma TrimSpace_idempotent (s : gostring) : TrimSpace (TrimSpace s) = TrimSpace s.
Proof.
  unfold TrimSpace.
  rewrite (TrimLeftSpace_fixed _ (TrimRightSpace_clean _ (TrimLeftSpace_clean s))).
  apply TrimRightSpace_idempotent.
Qed.

Lemma TrimSpace_In (r : rune) (s : gostring) : In r (TrimSpace s) -> In r s.
Proof.
  unfold TrimSpace. intros H.
  destruct (TrimRightSpace_prefix (TrimLeftSpace s)) as (after & Ha & _).
  destruct (TrimLeftSpace_suffix s) as (before & Hb & _).
  rewrite Hb, Ha. apply in_or_app. right. apply in_or_app. left. exact H.
Qed.

Lemma TrimSpace_clean_start (s : gostring) : clean_start (TrimSpace s) = true.
Proof. apply TrimRightSpace_clean, TrimLeftSpace_clean. Qed.

Lemma TrimSpace_clean_end (s : gostring) : clean_start (rev (TrimSpace s)) = true.
Proof.
  unfold TrimSpace, TrimRightSpace. rewrite rev_involutive. apply TrimLeftSpace_clean.
Qed.

(** [TrimSpace] trims, and nothing else does. *)
Lemma TrimSpace_trimmed_to (piece : gostring) : trimmed_to piece (TrimSpace piece).
Proof.
  destruct (TrimLeftSpace_suffix piece) as (before & Hb & Hbs).
  destruct (TrimRightSpace_prefix (TrimLeftSpace piece)) as (after & Ha & Has).
  exists before, after. unfold whitespace_only. repeat split; try assumption.
  - fold (TrimSpace piece) in Ha. rewrite <- Ha. exact Hb.
  - apply TrimSpace_clean_start.
  - apply TrimSpace_clean_end.
Qed.

Lemma trimmed_to_TrimSpace (piece line : gostring) :
  trimmed_to piece line -> line = TrimSpace piece.
Proof.
  intros (before & after & -> & Hb & Ha & Hs & He). unfold whitespace_only in *.
  unfold TrimSpace. rewrite (TrimLeftSpace_skip before _ Hb).
  destruct line as [|r t].
  - simpl. rewrite (TrimLeftSpace_whitespace after Ha). reflexivity.
  - rewrite (TrimLeftSpace_fixed ((r :: t) ++ after)) by exact Hs.
    unfold TrimRightSpace. rewrite rev_app_distr, TrimLeftSpace_skip
      by (rewrite forallb_rev; exact Ha).
    rewrite (TrimLeftSpace_fixed _ He), rev_involutive. reflexivity.
Qed.

(** *** Command lines *)

(** What [runCommands] makes of the script are its command lines, and these
    are all there are. *)
Lemma commands_of_command_lines (body : gostring) :
  command_lines body (commands_of body).
Proof.
  exists (Split body newline), (map TrimSpace (Split body newline)).
  split; [apply Split_nonempty|]. split; [symmetry; apply join_lines_Split|].
  split; [apply Split_pieces|]. split; [|reflexivity].
  induction (Split body newline) as [|p ps IH]; constructor; [|exact IH].
  apply TrimSpace_trimmed_to.
Qed.

Lemma command_lines_commands_of (body : gostring) (lines : list gostring) :
  command_lines body lines -> lines = commands_of body.
Proof.
  intros (pieces & trimmed & Hne & -> & Hall & Ht & ->).
  unfold commands_of. rewrite (Split_join_lines pieces Hne Hall). f_equal.
  clear Hne Hall. induction Ht as [|p l ps ls Hp _ IH]; [reflexivity|].
  simpl. rewrite <- (trimmed_to_TrimSpace p l Hp), IH. reflexivity.
Qed.

Lemma command_lines_functional (body : gostring) (lines lines' : list gostring) :
  command_lines body lines -> command_lines body lines' -> lines = lines'.
Proof.
  intros H H'. rewrite (command_lines_commands_of body lines H).
  symmetry. apply command_lines_commands_of. exact H'.
Qed.

(** ** Running one command line *)

Section RemoteScriptFacts.
Variable env : Env.
Import RemoteScript.

Lemma log_trace (e : Event) (w : World) : trace (log e w) = trace w ++ [e].
Proof. reflexivity. Qed.

Lemma runSingleCommand_no_client cmd rs w :
  client rs = None ->
  runSingleCommand env cmd rs w = mkRes (Panicked nil_dereference) rs w.
Proof.
  intros Hc. unfold runSingleCommand, bind, this, NewSession. simpl.
  rewrite Hc. reflexivity.
Qed.

Lemma runSingleCommand_open_fails cmd rs w conn :
  client rs = Some conn ->
  dial env (trace w) conn <> Done ->
  runSingleCommand env cmd rs w =
    mkRes (outcome_of (dial env (trace w) conn)) rs
          (log (EvNewSession conn (dial env (trace w) conn) (next_sid w)) w).
Proof.
  intros Hc Hd. unfold runSingleCommand, bind, this, NewSession. simpl.
  rewrite Hc.
  destruct (dial env (trace w) conn) eqn:E; simpl; [congruence | reflexivity..].
Qed.

Lemma runSingleCommand_opened cmd rs w conn :
  client rs = Some conn ->
  dial env (trace w) conn = Done ->
  runSingleCommand env cmd rs w =
    mkRes (outcome_of (status (line_reply env conn w (stdout rs) (stderr rs) cmd))) rs
          (after_line env conn w (stdout rs) (stderr rs) cmd).
Proof.
  intros Hc Hd. unfold runSingleCommand, bind, this, NewSession. simpl.
  rewrite Hc, Hd. simpl.
  unfold defer, Close, emit, bind, this, call, after_line, line_reply, line_session, log.
  simpl.
  destruct (status _) eqn:E; simpl; rewrite <- !app_assoc; reflexivity.
Qed.

(** The loop of [runCommands] runs the command lines of its pieces one
    after the other, and leaves the executor as it found it. *)
Lemma runCommands_loop_runs_lines pieces rs w :
  self (runCommands_loop env pieces rs w) = rs /\
  runs_lines env (client rs) (stdout rs) (stderr rs)
             (List.filter (fun l => negb (is_empty l)) (map TrimSpace pieces))
             w
             (out (runCommands_loop env pieces rs w))
             (world (runCommands_loop env pieces rs w)).
Proof.
  revert w. induction pieces as [|piece pieces IH]; intros w; simpl.
  - split; [reflexivity | constructor].
  - destruct (is_empty (TrimSpace piece)) eqn:Hblank; simpl; [apply IH|].
    unfold bind.
    destruct (client rs) as [conn|] eqn:Hc.
    + destruct (dial env (trace w) conn) eqn:Hd.
      * rewrite (runSingleCommand_opened _ _ _ conn Hc Hd). simpl.
        destruct (status (line_reply env conn w (stdout rs) (stderr rs) (TrimSpace piece)))
          eqn:Hs; simpl.
        -- destruct (IH (after_line env conn w (stdout rs) (stderr rs) (TrimSpace piece)))
             as [IHs IHr].
           split; [exact IHs|].
           eapply lines_line_ok; eauto.
        -- split; [reflexivity|].
           pose proof (lines_line_fails env (Some conn) (stdout rs) (stderr rs) conn
                         (TrimSpace piece)
                         (List.filter (fun l => negb (is_empty l)) (map TrimSpace pieces))
                         w eq_refl Hd) as L.
           rewrite Hs in L. apply L. discriminate.
        -- split; [reflexivity|].
           pose proof (lines_line_fails env (Some conn) (stdout rs) (stderr rs) conn
                         (TrimSpace piece)
                         (List.filter (fun l => negb (is_empty l)) (map TrimSpace pieces))
                         w eq_refl Hd) as L.
           rewrite Hs in L. apply L. discriminate.
      * rewrite (runSingleCommand_open_fails _ _ _ conn Hc) by congruence.
        rewrite Hd. simpl. split; [reflexivity|].
        apply (lines_open_fails env (Some conn) (stdout rs) (stderr rs) conn _ _ w
                                (Failed msg) eq_refl Hd). discriminate.
      * rewrite (runSingleCommand_open_fails _ _ _ conn Hc) by congruence.
        rewrite Hd. simpl. split; [reflexivity|].
        apply (lines_open_fails env (Some conn) (stdout rs) (stderr rs) conn _ _ w
                                (Aborted msg) eq_refl Hd). discriminate.
    + rewrite (runSingleCommand_no_client _ _ _ Hc). simpl.
      split; [reflexivity|]. apply lines_no_client. reflexivity.
Qed.

Lemma runCommands_loop_blank pieces rs w :
  Forall (fun piece => TrimSpace piece = []) pieces ->
  runCommands_loop env pieces rs w = mkRes (Returned None) rs w.
Proof.
  induction 1 as [|piece pieces Hp _ IH]; simpl; [reflexivity|].
  rewrite Hp. simpl. exact IH.
Qed.

Lemma Run_CommandLine rs w :
  scriptType rs = CommandLine -> err rs = None ->
  Run env rs w = runCommands_loop env (Split (script rs) newline) rs w.
Proof.
  intros Ht He. unfold Run, bind, this. simpl. rewrite He, Ht. reflexivity.
Qed.

(** *** What [Run] leaves of its receiver *)

Lemma runScript_self rs w : self (runScript env rs w) = rs.
Proof.
  unfold runScript, bind, this, NewSession, defer, Close, emit, call. simpl.
  destruct (client rs); simpl; [|reflexivity].
  destruct (dial env (trace w) s); simpl; try reflexivity.
  destruct (status _); simpl; try reflexivity.
  destruct (status _); reflexivity.
Qed.

Lemma runCommands_self rs w : self (runCommands env rs w) = rs.
Proof. unfold runCommands, bind, this. simpl. apply runCommands_loop_runs_lines. Qed.

(** Whatever happens, [runScriptFile] leaves the connection, the path, the
    deferred error and the sinks alone; when it returns, the script and
    its type are back as well. *)
Lemma runScriptFile_frame rs w :
  let r := runScriptFile env rs w in
  client (self r) = client rs /\ scriptFile (self r) = scriptFile rs /\
  err (self r) = err rs /\ stdout (self r) = stdout rs /\
  stderr (self r) = stderr rs /\
  (forall e, out r = Returned e -> self r = rs).
Proof.
  unfold runScriptFile, bind, this, os_Open, defer, file_Close, emit, io_Copy. simpl.
  destruct (fs_open env (trace w) (scriptFile rs)); simpl;
    try (repeat split; solve [reflexivity | intros; destruct rs; reflexivity]).
  destruct (fs_copy env _ _) as [content st].
  destruct st; simpl;
    try (repeat split; solve [reflexivity | intros; destruct rs; reflexivity]).
  unfold set_script, set_scriptType. simpl.
  match goal with |- context [runScript env ?o ?v] =>
    pose proof (runScript_self o v) as Hs;
    destruct (runScript env o v) as [o' s' w'] end.
  simpl in *. subst s'.
  destruct o'; simpl;
    repeat split; try reflexivity; try discriminate.
  intros _ _. destruct rs; reflexivity.
Qed.

Lemma Run_frame rs w :
  let r := Run env rs w in
  client (self r) = client rs /\ scriptFile (self r) = scriptFile rs /\
  err (self r) = err rs /\ stdout (self r) = stdout rs /\
  stderr (self r) = stderr rs /\
  (forall e, out r = Returned e -> self r = rs).
Proof.
  unfold Run, bind, this, emit. simpl.
  destruct (err rs) eqn:He; simpl; [rewrite He; repeat split; reflexivity|].
  destruct (scriptType rs =? CommandLine).
  { rewrite runCommands_self, He. repeat split; reflexivity. }
  destruct (scriptType rs =? RawScript).
  { rewrite runScript_self, He. repeat split; reflexivity. }
  destruct (scriptType rs =? ScriptFile).
  { pose proof (runScriptFile_frame rs w) as H. rewrite He in H. exact H. }
  simpl. rewrite He. repeat split; reflexivity.
Qed.
End RemoteScriptFacts.

(** ** Deferred errors *)

Section DeferredError.
Variable env : Env.
Import RemoteScript.

Lemma Run_deferred rs w e :
  err rs = Some e ->
  Run env rs w = mkRes (Returned (Some e)) rs (log (EvPrintln e) w).
Proof. intros He. unfold Run, bind, this, emit, ret. simpl. rewrite He. reflexivity. Qed.

Lemma Output_deferred rs w e :
  err rs = Some e ->
  Output env rs w = mkRes (Returned (None, Some e)) rs w.
Proof. intros He. unfold Output, bind, this, ret. simpl. rewrite He. reflexivity. Qed.

Lemma SmartOutput_deferred rs w e :
  err rs = Some e ->
  SmartOutput env rs w = mkRes (Returned (None, Some e)) rs w.
Proof. intros He. unfold SmartOutput, bind, this, ret. simpl. rewrite He. reflexivity. Qed.

Lemma Cmd_err cmd rs w :
  err (self (Cmd cmd rs w)) =
    if scriptType rs =? CommandLine then err rs else Some cmd_wrong_type.
Proof.
  unfold Cmd, bind, this, set_script, set_err. simpl.
  destruct (scriptType rs =? CommandLine); [destruct (is_empty (script rs))|]; reflexivity.
Qed.

Lemma Cmd_scriptType cmd rs w : scriptType (self (Cmd cmd rs w)) = scriptType rs.
Proof.
  unfold Cmd, bind, this, set_script, set_err. simpl.
  destruct (scriptType rs =? CommandLine); [destruct (is_empty (script rs))|]; reflexivity.
Qed.

Lemma Cmd_quiet cmd rs w :
  transport_calls (trace (world (Cmd cmd rs w))) = transport_calls (trace w).
Proof.
  unfold Cmd, bind, this, set_script, set_err, transport_calls. simpl.
  destruct (scriptType rs =? CommandLine); [destruct (is_empty (script rs))|];
    simpl; rewrite List.filter_app; simpl; apply app_nil_r.
Qed.

(** One operation on an executor whose deferred error is set. *)
Lemma perform_deferred op rs w e :
  err rs = Some e ->
  let r := perform env op rs w in
  (is_execution op = true -> out r = Returned (Some e)) /\
  err (self r) =
    (if is_Cmd op && negb (scriptType rs =? CommandLine)
     then Some cmd_wrong_type else Some e) /\
  scriptType (self r) = scriptType rs /\
  transport_calls (trace (world r)) = transport_calls (trace w).
Proof.
  intros He. destruct op; simpl.
  - rewrite (Run_deferred _ _ _ He). simpl. repeat split; auto.
    unfold transport_calls. rewrite List.filter_app. simpl. apply app_nil_r.
  - unfold fmap, bind. rewrite (Output_deferred _ _ _ He). simpl. repeat split; auto.
  - unfold fmap, bind. rewrite (SmartOutput_deferred _ _ _ He). simpl. repeat split; auto.
  - unfold fmap, bind, SetStdio, bind, this, set_stdout, set_stderr, transport_calls. simpl.
    repeat split; auto; try discriminate.
    rewrite <- app_assoc, List.filter_app. simpl. apply app_nil_r.
  - unfold fmap, bind.
    pose proof (Cmd_err cmd rs w) as H1. pose proof (Cmd_scriptType cmd rs w) as H2.
    pose proof (Cmd_quiet cmd rs w) as H3.
    destruct (Cmd cmd rs w) as [o s' w']. simpl in *.
    destruct o; simpl; (split; [discriminate|]); rewrite H1, He;
      (split; [destruct (scriptType rs =? CommandLine); reflexivity | auto]).
Qed.

(** The deferred error is never cleared. *)
Lemma perform_all_deferred_set ops : forall rs w,
  is_Some (err rs) ->
  is_Some (err (snd (fst (perform_all env ops rs w)))).
Proof.
  induction ops as [|op ops IH]; intros rs w [e He]; simpl; [eauto|].
  destruct (perform_deferred op rs w e He) as (_ & Herr & _ & _).
  specialize (IH (self (perform env op rs w)) (world (perform env op rs w))).
  destruct (perform_all env ops _ _) as [[os rs'] w']. simpl in *.
  apply IH. rewrite Herr. destruct (_ && _); eauto.
Qed.


(** What one operation does to the deferred error, set or not. *)
Lemma Output_err rs w : err (self (Output env rs w)) = err rs.
Proof.
  unfold Output, bind, this, defer, new_Buffer, set_stdout. simpl.
  destruct (err rs) eqn:He; simpl; [exact He|].
  match goal with |- context [Run env ?o ?v] =>
    pose proof (Run_frame env o v) as (_ & _ & Hf & _);
    destruct (Run env o v) as [res s' w'] end.
  simpl in *. rewrite He in Hf.
  destruct res; simpl; [|exact Hf].
  unfold Buffer_Bytes. destruct (contents _ _); simpl; exact Hf.
Qed.

Lemma SmartOutput_err rs w : err (self (SmartOutput env rs w)) = err rs.
Proof.
  unfold SmartOutput, bind, this, defer, new_Buffer, set_stdout, set_stderr. simpl.
  destruct (err rs) eqn:He; simpl; [exact He|].
  match goal with |- context [Run env ?o ?v] =>
    pose proof (Run_frame env o v) as (_ & _ & Hf & _);
    destruct (Run env o v) as [res s' w'] end.
  simpl in *. rewrite He in Hf.
  destruct res as [[e|]|]; simpl; try exact Hf;
    unfold Buffer_Bytes; destruct (contents _ _); simpl; exact Hf.
Qed.

Lemma perform_err op rs w :
  err (self (perform env op rs w)) = err rs \/
  err (self (perform env op rs w)) = Some cmd_wrong_type.
Proof.
  destruct op; simpl.
  - left. apply (Run_frame env rs w).
  - left. unfold fmap, bind. pose proof (Output_err rs w) as H.
    destruct (Output env rs w) as [res s' w']. destruct res; exact H.
  - left. unfold fmap, bind. pose proof (SmartOutput_err rs w) as H.
    destruct (SmartOutput env rs w) as [res s' w']. destruct res; exact H.
  - left. reflexivity.
  - unfold fmap, bind. pose proof (Cmd_err cmd rs w) as H.
    destruct (Cmd cmd rs w) as [res s' w']. simpl in H.
    destruct res; simpl; rewrite H; destruct (scriptType rs =? CommandLine); auto.
Qed.

(** The only error an executor without deferred error can come to hold is
    the one of [Cmd]. *)
Lemma perform_all_err ops : forall rs w,
  err rs = None \/ err rs = Some cmd_wrong_type ->
  err (snd (fst (perform_all env ops rs w))) = None \/
  err (snd (fst (perform_all env ops rs w))) = Some cmd_wrong_type.
Proof.
  induction ops as [|op ops IH]; intros rs w H; simpl; [exact H|].
  specialize (IH (self (perform env op rs w)) (world (perform env op rs w))).
  destruct (perform_all env ops _ _) as [[os rs'] w']. simpl in *.
  apply IH. destruct (perform_err op rs w) as [E | E]; rewrite E; auto.
Qed.

End DeferredError.



(** Why the executor has to be one a program comes to hold: on a raw script
    written out with an error of another origin, which no factory makes and
    no test writes, [Cmd] stores its own error in the place of that one. *)
Example Cmd_on_a_foreign_error :
  RemoteScript.err foreign_error_spec = Some preset_error /\
  RemoteScript.err
    (self (RemoteScript.Cmd (lit "echo hello") foreign_error_spec empty_world))
  = Some RemoteScript.cmd_wrong_type.
Proof. split; reflexivity. Qed.

(** ** Unsupported script types *)

(** C8.  When the script type is none of [CommandLine], [RawScript] and
    [ScriptFile] and no deferred error is set, [Run] returns (it does not
    panic) the error "unsupported script type", whose message contains
    "unsupported", and the world is as before: no call to the transport was
    made. *)
Theorem Run_unsupported_script_type (env : Env) (rs : RemoteScript.remoteScript)
        (w : World) :
  RemoteScript.scriptType rs <> CommandLine ->
  RemoteScript.scriptType rs <> RawScript ->
  RemoteScript.scriptType rs <> ScriptFile ->
  RemoteScript.err rs = None ->
  RemoteScript.Run env rs w =
    mkRes (Returned (Some RemoteScript.unsupported_script_type)) rs w /\
  Contains (Error RemoteScript.unsupported_script_type) (lit "unsupported") = true /\
  transport_calls (trace (world (RemoteScript.Run env rs w))) = transport_calls (trace w).
Proof.
  intros H0 H1 H2 He.
  assert (E : RemoteScript.Run env rs w =
              mkRes (Returned (Some RemoteScript.unsupported_script_type)) rs w).
  { unfold RemoteScript.Run, bind, this. simpl. rewrite He.
    apply Z.eqb_neq in H0, H1, H2. rewrite H0, H1, H2. reflexivity. }
  rewrite E. repeat split; reflexivity.
Qed.

Lemma Run_unsupported_script_type_witness :
  RemoteScript.Run sample_env out_of_range_spec empty_world =
    mkRes (Returned (Some RemoteScript.unsupported_script_type))
          out_of_range_spec empty_world.
Proof.
  apply (Run_unsupported_script_type sample_env out_of_range_spec empty_world);
    vm_compute; congruence.
Defined.

(** ** Appending commands *)

Section Append.
Import RemoteScript.

Lemma Cmd_returns_receiver cmd rs w :
  out (Cmd cmd rs w) = Returned (self (Cmd cmd rs w)).
Proof.
  unfold Cmd, bind, this, set_script, set_err. simpl.
  destruct (scriptType rs =? CommandLine); [destruct (is_empty (script rs))|]; reflexivity.
Qed.

Lemma Cmd_CommandLine cmd rs w :
  scriptType rs = CommandLine ->
  script (self (Cmd cmd rs w)) =
    if is_empty (script rs) then cmd else script rs ++ [newline] ++ cmd.
Proof.
  intros Ht. unfold Cmd, bind, this, set_script. simpl. rewrite Ht. simpl.
  destruct (is_empty (script rs)); reflexivity.
Qed.

Lemma Cmd_other cmd rs w :
  scriptType rs <> CommandLine ->
  Cmd cmd rs w =
    mkRes (Returned (mk (client rs) (scriptType rs) (script rs) (scriptFile rs)
                        (Some cmd_wrong_type) (stdout rs) (stderr rs)))
          (mk (client rs) (scriptType rs) (script rs) (scriptFile rs)
              (Some cmd_wrong_type) (stdout rs) (stderr rs))
          (log (EvStore (StErr (Some cmd_wrong_type))) w).
Proof.
  intros Ht. apply Z.eqb_neq in Ht.
  unfold Cmd, bind, this, set_err. simpl. rewrite Ht. reflexivity.
Qed.
End Append.

(** C6.  On a [CommandLine] executor with an empty script, [Cmd "a"] followed
    by [Cmd "b"] leaves the script "a\nb": the first command is taken as it
    is, the second is joined by a newline (and so for any two commands of
    which the first is not empty).  On an executor of any other type, [Cmd]
    leaves the script as it is and sets the deferred error to "Cmd() can only
    be used with CommandLine script type"; the call itself returns the
    executor, and the error is what the next [Run], [Output] or [SmartOutput]
    returns. *)
Theorem Cmd_appends_or_defers (env : Env) (rs : RemoteScript.remoteScript) (w : World) :
  (RemoteScript.scriptType rs = CommandLine -> RemoteScript.script rs = [] ->
   let r1 := RemoteScript.Cmd (lit "a") rs w in
   let r2 := RemoteScript.Cmd (lit "b") (self r1) (world r1) in
   RemoteScript.script (self r2) = lit "a" ++ [newline] ++ lit "b" /\
   out r2 = Returned (self r2) /\
   forall a b, a <> [] ->
     RemoteScript.script
       (self (RemoteScript.Cmd b (self (RemoteScript.Cmd a rs w))
                               (world (RemoteScript.Cmd a rs w))))
     = a ++ [newline] ++ b) /\
  (RemoteScript.scriptType rs <> CommandLine ->
   forall cmd,
     let r := RemoteScript.Cmd cmd rs w in
     RemoteScript.script (self r) = RemoteScript.script rs /\
     RemoteScript.scriptFile (self r) = RemoteScript.scriptFile rs /\
     RemoteScript.err (self r) = Some RemoteScript.cmd_wrong_type /\
     Contains (Error RemoteScript.cmd_wrong_type)
              (lit "can only be used with CommandLine script type") = true /\
     out r = Returned (self r) /\
     transport_calls (trace (world r)) = transport_calls (trace w) /\
     out (RemoteScript.Run env (self r) (world r))
       = Returned (Some RemoteScript.cmd_wrong_type) /\
     out (RemoteScript.Output env (self r) (world r))
       = Returned (None, Some RemoteScript.cmd_wrong_type) /\
     out (RemoteScript.SmartOutput env (self r) (world r))
       = Returned (None, Some RemoteScript.cmd_wrong_type)).
Proof.
  split.
  - intros Ht Hs.
    assert (G : forall a b, a <> [] ->
      RemoteScript.script
        (self (RemoteScript.Cmd b (self (RemoteScript.Cmd a rs w))
                                (world (RemoteScript.Cmd a rs w))))
      = a ++ [newline] ++ b).
    { intros a b Ha.
      rewrite Cmd_CommandLine by (rewrite Cmd_scriptType; exact Ht).
      rewrite (Cmd_CommandLine a rs w Ht), Hs. simpl.
      destruct a; [congruence | reflexivity]. }
    simpl. split; [apply G; discriminate|].
    split; [apply Cmd_returns_receiver | exact G].
  - intros Ht cmd. cbv zeta. rewrite (Cmd_other cmd rs w Ht).
    cbn [self world out RemoteScript.script RemoteScript.scriptFile RemoteScript.err].
    split; [reflexivity|]. split; [reflexivity|]. split; [reflexivity|].
    split; [reflexivity|]. split; [reflexivity|].
    split; [unfold transport_calls; rewrite log_trace, List.filter_app; apply app_nil_r|].
    split; [erewrite Run_deferred by reflexivity; reflexivity|].
    split; [erewrite Output_deferred by reflexivity; reflexivity|].
    erewrite SmartOutput_deferred by reflexivity; reflexivity.
Qed.

Lemma Cmd_appends_or_defers_witness :
  RemoteScript.script
    (self (RemoteScript.Cmd (lit "b")
             (self (RemoteScript.Cmd (lit "a") (Client.Command sample_client []) empty_world))
             (world (RemoteScript.Cmd (lit "a") (Client.Command sample_client []) empty_world))))
  = lit "a" ++ [newline] ++ lit "b" /\
  RemoteScript.err
    (self (RemoteScript.Cmd (lit "echo hello")
             (Client.Script sample_client (lit "original script")) empty_world))
  = Some RemoteScript.cmd_wrong_type.
Proof.
  split.
  - destruct (proj1 (Cmd_appends_or_defers sample_env (Client.Command sample_client [])
                                           empty_world) eq_refl eq_refl) as [H _].
    exact H.
  - assert (Ht : RemoteScript.scriptType (Client.Script sample_client (lit "original script"))
                 <> CommandLine) by (vm_compute; congruence).
    destruct (proj2 (Cmd_appends_or_defers sample_env
                       (Client.Script sample_client (lit "original script")) empty_world)
                    Ht (lit "echo hello")) as (_ & _ & H & _).
    exact H.
Defined.

(** ** Capturing output: the sinks are put back *)

Section Restore.
Variable env : Env.
Import RemoteScript.

Lemma Output_restores rs w :
  stdout (self (Output env rs w)) = stdout rs /\
  stderr (self (Output env rs w)) = stderr rs.
Proof.
  unfold Output, bind, this, defer, new_Buffer, set_stdout. simpl.
  destruct (err rs); simpl; [auto|].
  match goal with |- context [Run env ?o ?v] =>
    pose proof (Run_frame env o v) as (_ & _ & _ & _ & Hse & _);
    destruct (Run env o v) as [res s' w'] end.
  simpl in *.
  destruct res; simpl; [|auto].
  unfold Buffer_Bytes. destruct (contents _ _); simpl; auto.
Qed.

Lemma SmartOutput_restores rs w :
  stdout (self (SmartOutput env rs w)) = stdout rs /\
  stderr (self (SmartOutput env rs w)) = stderr rs.
Proof.
  unfold SmartOutput, bind, this, defer, new_Buffer, set_stdout, set_stderr. simpl.
  destruct (err rs); simpl; [auto|].
  match goal with |- context [Run env ?o ?v] =>
    destruct (Run env o v) as [res s' w'] end.
  simpl.
  destruct res as [[e|]|]; simpl; auto;
    unfold Buffer_Bytes; destruct (contents _ _); simpl; auto.
Qed.

Lemma perform_capture_restores c rs w :
  stdout (self (perform env (capture_op c) rs w)) = stdout rs /\
  stderr (self (perform env (capture_op c) rs w)) = stderr rs.
Proof.
  destruct c; simpl; unfold fmap, bind.
  - pose proof (Output_restores rs w) as H.
    destruct (Output env rs w) as [res s' w']. destruct res; exact H.
  - pose proof (SmartOutput_restores rs w) as H.
    destruct (SmartOutput env rs w) as [res s' w']. destruct res; exact H.
Qed.

Lemma captures_restore cs : forall rs w,
  stdout (snd (fst (perform_all env (map capture_op cs) rs w))) = stdout rs /\
  stderr (snd (fst (perform_all env (map capture_op cs) rs w))) = stderr rs.
Proof.
  induction cs as [|c cs IH]; intros rs w; simpl; [auto|].
  destruct (perform_capture_restores c rs w) as [Ho He].
  specialize (IH (self (perform env (capture_op c) rs w))
                 (world (perform env (capture_op c) rs w))).
  destruct (perform_all env (map capture_op cs) _ _) as [[os rs'] w'].
  simpl in *. rewrite <- Ho, <- He. exact IH.
Qed.
End Restore.

(** C2.  Whatever the sinks of an executor are (nil included) and however the
    inner [Run] ends (it returns nil, it returns an error, or it panics),
    [Output] leaves [stdout] (and [stderr]) as it found it and [SmartOutput]
    leaves [stdout] and [stderr] as it found them; so any number of calls of
    the two, one after the other on the same executor, leaves the sinks as
    they were before the first. *)
Theorem capture_restores_sinks (env : Env) (rs : RemoteScript.remoteScript) (w : World) :
  RemoteScript.stdout (self (RemoteScript.Output env rs w)) = RemoteScript.stdout rs /\
  RemoteScript.stderr (self (RemoteScript.Output env rs w)) = RemoteScript.stderr rs /\
  RemoteScript.stdout (self (RemoteScript.SmartOutput env rs w)) = RemoteScript.stdout rs /\
  RemoteScript.stderr (self (RemoteScript.SmartOutput env rs w)) = RemoteScript.stderr rs /\
  forall cs : list Capture,
    RemoteScript.stdout (snd (fst (perform_all env (map capture_op cs) rs w)))
      = RemoteScript.stdout rs /\
    RemoteScript.stderr (snd (fst (perform_all env (map capture_op cs) rs w)))
      = RemoteScript.stderr rs.
Proof.
  pose proof (Output_restores env rs w) as [H1 H2].
  pose proof (SmartOutput_restores env rs w) as [H3 H4].
  repeat (split; [assumption|]).
  intros cs. apply captures_restore.
Qed.

(** The inner [Run] of [Output] writes to the private buffer, and the sink
    is back when it failed half way or panicked. *)
Example Output_restores_after_failure :
  let rs := RemoteScript.SetStdio (Some (Buffer 7)) None
              (Client.Command sample_client (lit "ok" ++ [newline] ++ lit "fail")) empty_world in
  let r := RemoteScript.Output sample_env (self rs) (world rs) in
  out r = Returned (Some (lit "okpartial"), Some (foreign (lit "Process exited with status 1")))
  /\ RemoteScript.stdout (self r) = Some (Buffer 7)
  /\ contents (heap (world r)) 7 = [].
Proof. vm_compute. repeat split; reflexivity. Qed.

Example SmartOutput_restores_after_panic :
  let rs := RemoteScript.SetStdio (Some (Buffer 7)) (Some (Buffer 8))
              (Client.Command (Client.mk None) (lit "echo hello")) empty_world in
  let r := RemoteScript.SmartOutput sample_env (self rs) (world rs) in
  out r = Panicked nil_dereference
  /\ RemoteScript.stdout (self r) = Some (Buffer 7)
  /\ RemoteScript.stderr (self r) = Some (Buffer 8).
Proof. vm_compute. repeat split; reflexivity. Qed.

(** ** Script files: the script and its type are put back *)

Section ScriptFiles.
Variable env : Env.
Import RemoteScript.

Lemma Run_ScriptFile rs w :
  scriptType rs = ScriptFile -> err rs = None ->
  Run env rs w = runScriptFile env rs w.
Proof.
  intros Ht He. unfold Run, bind, this. simpl. rewrite He, Ht. reflexivity.
Qed.

Lemma runScriptFile_open_fails rs w msg :
  fs_open env (trace w) (scriptFile rs) = Failed msg ->
  runScriptFile env rs w =
    mkRes (Returned (Some (foreign msg))) rs
          (log (EvOpen (scriptFile rs) (Failed msg)) w).
Proof.
  intros Ho. unfold runScriptFile, bind, this, os_Open. simpl. rewrite Ho. reflexivity.
Qed.

Lemma runScriptFile_copy_fails rs w content msg :
  fs_open env (trace w) (scriptFile rs) = Done ->
  fs_copy env (trace w ++ [EvOpen (scriptFile rs) Done]) (scriptFile rs)
    = (content, Failed msg) ->
  runScriptFile env rs w =
    mkRes (Returned (Some (foreign msg))) rs
          (mkWorld (heap w) (next_addr w) (next_sid w)
                   (trace w ++ [EvOpen (scriptFile rs) Done;
                                EvCopy (scriptFile rs) content (Failed msg);
                                EvFileClose (scriptFile rs)])).
Proof.
  intros Ho Hc.
  unfold runScriptFile, bind, this, os_Open, defer, io_Copy, file_Close, emit, log.
  simpl. rewrite Ho. simpl. rewrite Hc. simpl. rewrite <- !app_assoc. reflexivity.
Qed.
End ScriptFiles.

(** C3.  On a [ScriptFile] executor, whenever [Run] returns (with nil or with
    any error) the executor is as it was before the call: script type, script
    and path are the ones the caller set.  When the file cannot be opened or
    cannot be read, [Run] returns that very error, and the trace of the call
    holds the file operations only: no field was ever stored to, and the
    transport was never called. *)
Theorem Run_ScriptFile_restores (env : Env) (rs : RemoteScript.remoteScript) (w : World) :
  RemoteScript.scriptType rs = ScriptFile ->
  (forall e, out (RemoteScript.Run env rs w) = Returned e ->
             self (RemoteScript.Run env rs w) = rs) /\
  (RemoteScript.err rs = None ->
   forall msg,
     fs_open env (trace w) (RemoteScript.scriptFile rs) = Failed msg ->
     RemoteScript.Run env rs w =
       mkRes (Returned (Some (foreign msg))) rs
             (log (EvOpen (RemoteScript.scriptFile rs) (Failed msg)) w)) /\
  (RemoteScript.err rs = None ->
   forall content msg,
     fs_open env (trace w) (RemoteScript.scriptFile rs) = Done ->
     fs_copy env (trace w ++ [EvOpen (RemoteScript.scriptFile rs) Done])
             (RemoteScript.scriptFile rs) = (content, Failed msg) ->
     RemoteScript.Run env rs w =
       mkRes (Returned (Some (foreign msg))) rs
             (mkWorld (heap w) (next_addr w) (next_sid w)
                      (trace w ++ [EvOpen (RemoteScript.scriptFile rs) Done;
                                   EvCopy (RemoteScript.scriptFile rs) content (Failed msg);
                                   EvFileClose (RemoteScript.scriptFile rs)]))).
Proof.
  intros Ht. split; [|split].
  - apply (Run_frame env rs w).
  - intros He msg Ho. rewrite (Run_ScriptFile env rs w Ht He).
    apply runScriptFile_open_fails. exact Ho.
  - intros He content msg Ho Hc. rewrite (Run_ScriptFile env rs w Ht He).
    apply runScriptFile_copy_fails; assumption.
Qed.

Lemma Run_ScriptFile_restores_witness :
  self (RemoteScript.Run sample_env (Client.ScriptFile sample_client (lit "deploy.sh"))
                         empty_world)
    = Client.ScriptFile sample_client (lit "deploy.sh") /\
  RemoteScript.Run sample_env (Client.ScriptFile sample_client (lit "missing.sh")) empty_world
    = mkRes (Returned (Some (foreign (lit "open missing.sh: no such file or directory"))))
            (Client.ScriptFile sample_client (lit "missing.sh"))
            (log (EvOpen (lit "missing.sh")
                         (Failed (lit "open missing.sh: no such file or directory")))
                 empty_world) /\
  out (RemoteScript.Run bad_disk_env (Client.ScriptFile sample_client (lit "script.sh"))
                        empty_world)
    = Returned (Some (foreign (lit "read script.sh: input/output error"))).
Proof.
  split; [|split].
  - apply (proj1 (Run_ScriptFile_restores sample_env
                    (Client.ScriptFile sample_client (lit "deploy.sh")) empty_world eq_refl)
                 None).
    vm_compute. reflexivity.
  - apply (proj1 (proj2 (Run_ScriptFile_restores sample_env
                    (Client.ScriptFile sample_client (lit "missing.sh")) empty_world eq_refl))
                 eq_refl).
    vm_compute. reflexivity.
  - rewrite (proj2 (proj2 (Run_ScriptFile_restores bad_disk_env
                    (Client.ScriptFile sample_client (lit "script.sh")) empty_world eq_refl))
                   eq_refl (lit "ec") (lit "read script.sh: input/output error")
                   eq_refl eq_refl).
    reflexivity.
Defined.

(** When the run of the script panics, control leaves [runScriptFile] before
    the two fields are put back. *)
Example runScriptFile_panic_keeps_the_loaded_script :
  let r := RemoteScript.Run sample_env (Client.ScriptFile (Client.mk None) (lit "deploy.sh"))
                            empty_world in
  out r = Panicked nil_dereference
  /\ RemoteScript.scriptType (self r) = RawScript
  /\ RemoteScript.script (self r) = lit "echo hi".
Proof. vm_compute. repeat split; reflexivity. Qed.

(** ** Command sequences *)

Section Sequences.
Variable env : Env.
Import RemoteScript.

Lemma commands_run_app evs1 evs2 :
  commands_run (evs1 ++ evs2) = commands_run evs1 ++ commands_run evs2.
Proof.
  induction evs1 as [|ev evs1 IH]; simpl; [reflexivity|].
  destruct ev; simpl; auto. destruct q; simpl; auto. rewrite IH. reflexivity.
Qed.

Lemma sessions_opened_app evs1 evs2 :
  sessions_opened (evs1 ++ evs2) = sessions_opened evs1 ++ sessions_opened evs2.
Proof.
  induction evs1 as [|ev evs1 IH]; simpl; [reflexivity|].
  destruct ev; simpl; auto. destruct r; simpl; auto. rewrite IH. reflexivity.
Qed.

Lemma sessions_closed_app evs1 evs2 :
  sessions_closed (evs1 ++ evs2) = sessions_closed evs1 ++ sessions_closed evs2.
Proof.
  induction evs1 as [|ev evs1 IH]; simpl; [reflexivity|].
  destruct ev; simpl; auto. rewrite IH. reflexivity.
Qed.

Lemma outcome_of_nil st : outcome_of st = Returned None -> st = Done.
Proof. destruct st; simpl; congruence. Qed.

(** What a run of command lines leaves in the trace: the lines that were
    run are the first ones of the sequence, all of them if nil was
    returned; every session that was opened was closed. *)
Lemma runs_lines_prefix c o e cmds w res w' :
  runs_lines env c o e cmds w res w' ->
  exists delta k,
    trace w' = trace w ++ delta /\
    commands_run delta = firstn k cmds /\
    (res = Returned None -> commands_run delta = cmds) /\
    sessions_closed delta = sessions_opened delta.
Proof.
  induction 1 as [w | line rest w Hc | conn line rest w st Hc Hd Hst
                  | conn line rest w Hc Hd Hst
                  | conn line rest w res w' Hc Hd Hst Hrest IH].
  - exists [], 0%nat. rewrite app_nil_r. repeat split; reflexivity.
  - exists [], 0%nat. rewrite app_nil_r. repeat split; try reflexivity. discriminate.
  - exists [EvNewSession conn st (next_sid w)], 0%nat.
    repeat split; try reflexivity.
    + intros H. apply outcome_of_nil in H. contradiction.
    + destruct st; try reflexivity. contradiction.
  - exists [EvNewSession conn Done (next_sid w);
            EvCall (line_session w o e) (ReqRun line) (line_reply env conn w o e line);
            EvClose (next_sid w)], 1%nat.
    repeat split; try reflexivity.
    intros H. apply outcome_of_nil in H. contradiction.
  - destruct IH as (delta & k & Ht & Hp & Hall & Hcl).
    exists ([EvNewSession conn Done (next_sid w);
             EvCall (line_session w o e) (ReqRun line) (line_reply env conn w o e line);
             EvClose (next_sid w)] ++ delta), (S k).
    split; [rewrite Ht; simpl; rewrite <- app_assoc; reflexivity|].
    split; [simpl; rewrite Hp; reflexivity|].
    split; [intros Hr; simpl; rewrite (Hall Hr); reflexivity|].
    simpl. rewrite Hcl. reflexivity.
Qed.
End Sequences.

(** C4.  On a [CommandLine] executor with no deferred error, [Run] runs the
    command lines of the script, and these are: the pieces the script falls
    into at its newlines, each without the white space around it, the blank
    ones left out, in order (there is one such list only).  Each line is run
    in a session of its own, opened for it, bound to the two sinks of the
    executor and closed before the next line; the first line whose session
    cannot be opened or whose run fails ends [Run] with that error, and
    nothing is done for the lines after it.  So the lines that were run are
    the first ones of the list, and all of them when [Run] returns nil.  On
    an empty or whitespace-only script there is no line, [Run] returns nil and
    the world is as before. *)
Theorem Run_CommandLine_line_by_line (env : Env) (rs : RemoteScript.remoteScript) (w : World) :
  RemoteScript.scriptType rs = CommandLine ->
  RemoteScript.err rs = None ->
  exists lines,
    command_lines (RemoteScript.script rs) lines /\
    (forall lines', command_lines (RemoteScript.script rs) lines' -> lines' = lines) /\
    self (RemoteScript.Run env rs w) = rs /\
    runs_lines env (RemoteScript.client rs) (RemoteScript.stdout rs) (RemoteScript.stderr rs)
               lines w
               (out (RemoteScript.Run env rs w)) (world (RemoteScript.Run env rs w)) /\
    (exists delta k,
        trace (world (RemoteScript.Run env rs w)) = trace w ++ delta /\
        commands_run delta = firstn k lines /\
        (out (RemoteScript.Run env rs w) = Returned None -> commands_run delta = lines) /\
        sessions_closed delta = sessions_opened delta) /\
    (whitespace_only (RemoteScript.script rs) = true ->
     lines = [] /\ RemoteScript.Run env rs w = mkRes (Returned None) rs w).
Proof.
  intros Ht He. exists (commands_of (RemoteScript.script rs)).
  split; [apply commands_of_command_lines|].
  split; [intros lines' H'; apply command_lines_commands_of; exact H'|].
  rewrite (Run_CommandLine env rs w Ht He).
  destruct (runCommands_loop_runs_lines env (Split (RemoteScript.script rs) newline) rs w)
    as [Hs Hr].
  split; [exact Hs|]. split; [exact Hr|].
  split; [exact (runs_lines_prefix env _ _ _ _ _ _ _ Hr)|].
  intros Hw. split; [apply commands_of_whitespace; exact Hw|].
  apply runCommands_loop_blank.
  pose proof (Split_whitespace _ newline Hw) as HS.
  eapply List.Forall_impl; [|exact HS].
  intros piece Hp. apply TrimSpace_whitespace. exact Hp.
Qed.

Lemma Run_CommandLine_line_by_line_witness :
  let r := RemoteScript.Run sample_env (Client.Command sample_client three_lines)
                            empty_world in
  command_lines three_lines [lit "ok"; lit "fail"; lit "never-runs"] /\
  runs_lines sample_env (Some 1%nat) None None [lit "ok"; lit "fail"; lit "never-runs"]
             empty_world (out r) (world r) /\
  out r = Returned (Some (foreign (lit "Process exited with status 1"))) /\
  trace (world r) =
    [EvNewSession 1%nat Done 0;
     EvCall (mkSession 0 None None None) (ReqRun (lit "ok"))
            (mkReply [(FdOut, lit "ok")] Done);
     EvClose 0;
     EvNewSession 1%nat Done 1;
     EvCall (mkSession 1 None None None) (ReqRun (lit "fail"))
            (mkReply [(FdOut, lit "partial"); (FdErr, lit "boom")]
                     (Failed (lit "Process exited with status 1")));
     EvClose 1] /\
  RemoteScript.Run sample_env (Client.Command (Client.mk None) blank_lines) empty_world
    = mkRes (Returned None) (Client.Command (Client.mk None) blank_lines) empty_world /\
  forallb IsSpace [9; 10; 11; 12; 13; 32; 133; 160; 5760; 8192; 8197; 8202; 8232; 8233;
                   8239; 8287; 12288] = true /\
  existsb IsSpace [0; 8; 14; 31; 33; 65; 132; 134; 159; 161; 256; 5759; 5761; 8191; 8203;
                   8231; 8234; 8238; 8240; 8286; 8288; 12287; 12289; 65279] = false.
Proof.
  intros r.
  assert (Hthree : command_lines three_lines [lit "ok"; lit "fail"; lit "never-runs"]).
  { exists [lit "ok"; lit "  fail "; []; lit "never-runs"],
           [lit "ok"; lit "fail"; []; lit "never-runs"].
    split; [discriminate|]. split; [reflexivity|].
    split; [repeat constructor; vm_compute; intuition discriminate|].
    split; [|reflexivity].
    repeat constructor.
    - exists [], []. repeat split; reflexivity.
    - exists (lit "  "), (lit " "). repeat split; reflexivity.
    - exists [], []. repeat split; reflexivity.
    - exists [], []. repeat split; reflexivity. }
  split; [exact Hthree|].
  destruct (Run_CommandLine_line_by_line sample_env (Client.Command sample_client three_lines)
              empty_world eq_refl eq_refl) as (lines & _ & Hone & _ & Hruns & _ & _).
  rewrite <- (Hone _ Hthree) in Hruns.
  split; [exact Hruns|].
  split; [vm_compute; reflexivity|]. split; [vm_compute; reflexivity|].
  destruct (Run_CommandLine_line_by_line sample_env
              (Client.Command (Client.mk None) blank_lines)
              empty_world eq_refl eq_refl) as (lines' & _ & _ & _ & _ & _ & Hblank).
  split; [apply Hblank; vm_compute; reflexivity|].
  split; vm_compute; reflexivity.
Defined.

(** The scenario of the specification: the second of three lines fails. *)
Example second_line_fails :
  let r := RemoteScript.Run sample_env (Client.Command sample_client three_lines) empty_world in
  commands_of three_lines = [lit "ok"; lit "fail"; lit "never-runs"]
  /\ out r = Returned (Some (foreign (lit "Process exited with status 1")))
  /\ trace (world r) =
       [EvNewSession 1%nat Done 0;
        EvCall (mkSession 0 None None None) (ReqRun (lit "ok"))
               (mkReply [(FdOut, lit "ok")] Done);
        EvClose 0;
        EvNewSession 1%nat Done 1;
        EvCall (mkSession 1 None None None) (ReqRun (lit "fail"))
               (mkReply [(FdOut, lit "partial"); (FdErr, lit "boom")]
                        (Failed (lit "Process exited with status 1")));
        EvClose 1].
Proof. vm_compute. repeat split; reflexivity. Qed.

(** ** Capturing output: what the buffers hold *)

Section Capture.
Variable env : Env.
Variables a1 a2 : nat.
Hypothesis distinct : a1 <> a2.
Import RemoteScript.


Lemma contents_insert_eq (h : gmap nat gostring) a v :
  contents (<[a := v]> h) a = v.
Proof. unfold contents. rewrite lookup_insert_eq. reflexivity. Qed.

Lemma contents_insert_ne (h : gmap nat gostring) a b v :
  a <> b -> contents (<[a := v]> h) b = contents h b.
Proof. intros Hab. unfold contents. rewrite lookup_insert_ne by exact Hab. reflexivity. Qed.










End Capture.

Section Unfold.
Variable env : Env.
Import RemoteScript.

(** [SmartOutput] in terms of its one call of [Run]. *)
Lemma SmartOutput_unfold rs w :
  err rs = None ->
  let a1 := next_addr w in
  let a2 := S (next_addr w) in
  let r := Run env (mk (client rs) (scriptType rs) (script rs) (scriptFile rs) (err rs)
                       (Some (Buffer a1)) (Some (Buffer a2)))
                   (mkWorld (<[a2 := []]> (<[a1 := []]> (heap w))) (S a2) (next_sid w)
                            (trace w ++ [EvStore (StStdout (Some (Buffer a1)));
                                         EvStore (StStderr (Some (Buffer a2)))])) in
  SmartOutput env rs w =
    mkRes (match out r with
           | Returned (Some e) => Returned (as_bytes (contents (heap (world r)) a2), Some e)
           | Returned None => Returned (as_bytes (contents (heap (world r)) a1), None)
           | Panicked msg => Panicked msg
           end)
          (mk (client (self r)) (scriptType (self r)) (script (self r))
              (scriptFile (self r)) (err (self r)) (stdout rs) (stderr rs))
          (mkWorld (heap (world r)) (next_addr (world r)) (next_sid (world r))
                   (trace (world r) ++ [EvStore (StStdout (stdout rs));
                                        EvStore (StStderr (stderr rs))])).
Proof.
  intros He a1 a2. destruct rs as [c t s f e so se]. simpl in He. subst e.
  unfold SmartOutput, bind, this, defer, new_Buffer, set_stdout, set_stderr, ret,
    Buffer_Bytes, log, as_bytes.
  cbn -[Run]. rewrite <- !app_assoc. cbn -[Run].
  destruct (Run env _ _) as [[[e|]|] rs2 w2]; cbn;
    try destruct (contents _ _); cbn; rewrite <- ?app_assoc; reflexivity.
Qed.
End Unfold.



(** The scenario of the specification: the failing step wrote "boom" to
    standard error (and something to standard output). *)
Example SmartOutput_on_failure :
  out (RemoteScript.SmartOutput sample_env (Client.Command sample_client (lit "fail"))
                                empty_world)
    = Returned (Some (lit "boom"), Some (foreign (lit "Process exited with status 1")))
  /\ out (RemoteScript.SmartOutput sample_env (Client.Command sample_client (lit "ok"))
                                   empty_world)
    = Returned (Some (lit "ok"), None).
Proof. vm_compute. split; reflexivity. Qed.

(** ** Executors made by [Command] *)

Section CommandLineInvariant.
Variable env : Env.
Import RemoteScript.

Lemma runs_lines_foreign c o e cmds w res w' :
  runs_lines env c o e cmds w res w' ->
  forall msg, res <> Returned (Some (errors_New msg)).
Proof.
  induction 1; intros m; try discriminate; auto;
    match goal with |- outcome_of ?st <> _ => destruct st; discriminate end.
Qed.

Lemma Run_CommandLine_safe rs w :
  scriptType rs = CommandLine -> err rs = None ->
  self (Run env rs w) = rs /\
  forall msg, out (Run env rs w) <> Returned (Some (errors_New msg)).
Proof.
  intros Ht He. rewrite (Run_CommandLine env rs w Ht He).
  destruct (runCommands_loop_runs_lines env (Split (script rs) newline) rs w) as [Hs Hr].
  split; [exact Hs | exact (runs_lines_foreign _ _ _ _ _ _ _ Hr)].
Qed.

Lemma perform_well_formed op rs w :
  well_formed rs ->
  well_formed (self (perform env op rs w)) /\
  forall msg, out (perform env op rs w) <> Returned (Some (errors_New msg)).
Proof.
  intros [Ht He]. destruct op; simpl.
  - destruct (Run_CommandLine_safe rs w Ht He) as [Hs Hn].
    rewrite Hs. split; [split; assumption | exact Hn].
  - unfold fmap, Output, bind, this, defer, new_Buffer, set_stdout. simpl.
    rewrite He. simpl.
    match goal with |- context [Run env ?o ?v] =>
      destruct (Run_CommandLine_safe o v Ht He) as [Hs Hn];
      destruct (Run env o v) as [res s' w'] end.
    simpl in *. subst s'.
    destruct res as [e|]; simpl.
    + unfold Buffer_Bytes. destruct (contents _ _); simpl;
        (split; [split; assumption | intros m E; apply (Hn m); congruence]).
    + split; [split; assumption | discriminate].
  - unfold fmap, SmartOutput, bind, this, defer, new_Buffer, set_stdout, set_stderr. simpl.
    rewrite He. simpl.
    match goal with |- context [Run env ?o ?v] =>
      destruct (Run_CommandLine_safe o v Ht He) as [Hs Hn];
      destruct (Run env o v) as [res s' w'] end.
    simpl in *. subst s'.
    destruct res as [[e|]|]; simpl.
    + unfold Buffer_Bytes. destruct (contents _ _); simpl;
        (split; [split; assumption | intros m E; apply (Hn m); congruence]).
    + unfold Buffer_Bytes. destruct (contents _ _); simpl;
        (split; [split; assumption | discriminate]).
    + split; [split; assumption | discriminate].
  - unfold fmap, SetStdio, bind, this, set_stdout, set_stderr. simpl.
    split; [split; assumption | discriminate].
  - unfold fmap, bind.
    pose proof (Cmd_err cmd rs w) as H1. pose proof (Cmd_scriptType cmd rs w) as H2.
    pose proof (Cmd_returns_receiver cmd rs w) as H3.
    destruct (Cmd cmd rs w) as [res s' w']. simpl in *.
    rewrite Ht in H1. simpl in H1. rewrite H3. simpl.
    split; [split; congruence | discriminate].
Qed.

Lemma perform_all_well_formed ops : forall rs w,
  well_formed rs ->
  well_formed (snd (fst (perform_all env ops rs w))) /\
  Forall (fun o => forall msg, o <> Returned (Some (errors_New msg)))
         (fst (fst (perform_all env ops rs w))).
Proof.
  induction ops as [|op ops IH]; intros rs w Hwf; simpl; [split; [exact Hwf | constructor]|].
  destruct (perform_well_formed op rs w Hwf) as [Hwf' Hn].
  specialize (IH (self (perform env op rs w)) (world (perform env op rs w)) Hwf').
  destruct (perform_all env ops _ _) as [[os rs'] w']. simpl in *.
  destruct IH as [IH1 IH2]. split; [exact IH1 | constructor; assumption].
Qed.
End CommandLineInvariant.

(** C10.  An executor made by [Command] keeps its deferred error nil (and
    its type [CommandLine]) under every sequence of [Cmd], [SetStdio], [Run],
    [Output] and [SmartOutput], whatever the transport does and whether the
    calls return or panic; none of the calls returns the error of [Cmd]. *)
Theorem Command_never_defers (env : Env) (c : Client.client) (cmd : gostring)
        (ops : list Op) (w : World) :
  RemoteScript.err (snd (fst (perform_all env ops (Client.Command c cmd) w))) = None /\
  RemoteScript.scriptType (snd (fst (perform_all env ops (Client.Command c cmd) w)))
    = CommandLine /\
  Forall (fun o => o <> Returned (Some RemoteScript.cmd_wrong_type))
         (fst (fst (perform_all env ops (Client.Command c cmd) w))).
Proof.
  destruct (perform_all_well_formed env ops (Client.Command c cmd) w) as [[Ht He] Hn];
    [split; reflexivity|].
  split; [exact He|]. split; [exact Ht|].
  eapply List.Forall_impl; [|exact Hn].
  intros o Ho. apply Ho.
Qed.

(** ** The shell session driver *)

Section Shell.
Variable env : Env.
Import RemoteShell.

Lemma call_eq {O} s q (o : O) w :
  call env s q o w = mkRes (outcome_of (answer env s q w)) o (step env s q w).
Proof.
  unfold call, answer, step. destruct (status _); reflexivity.
Qed.

Lemma step_trace s q w :
  trace (step env s q w) = trace w ++ [EvCall s q (serve env (trace w) s q)].
Proof. reflexivity. Qed.

(** [Start] once the session is open: the pseudo-terminal if one is asked
    for, the initial command if there is one, the shell, the wait; the
    session is closed however this ends. *)
Lemma Start_opened command rs w conn :
  client rs = Some conn ->
  dial env (trace w) conn = Done ->
  let session := shell_session rs w in
  let w1 := opened conn w in
  let w2 := with_pty env rs conn w in
  let w3 := with_command env rs conn command w in
  let w4 := step env session ReqShell w3 in
  let pty := if requestPty rs then answer env session (pty_request rs) w1 else Done in
  let ran := if is_empty command then Done
             else answer env session (ReqRun command) w2 in
  Start env command rs w =
    match pty with
    | Done =>
        match ran with
        | Aborted msg => mkRes (Panicked msg) rs (log (EvClose (next_sid w)) w3)
        | _ =>
            match answer env session ReqShell w3 with
            | Done =>
                mkRes (outcome_of (answer env session ReqWait w4)) rs
                      (log (EvClose (next_sid w)) (step env session ReqWait w4))
            | st => mkRes (outcome_of st) rs (log (EvClose (next_sid w)) w4)
            end
        end
    | st => mkRes (outcome_of st) rs (log (EvClose (next_sid w)) w2)
    end.
Proof.
  intros Hc Hd. cbv zeta.
  unfold with_command, with_pty, shell_session, pty_request.
  destruct rs as [c ty rq tc i o e]. simpl in Hc. subst c.
  unfold Start, requestPseudoTerminal, bind, this, defer, Close, emit, ret, NewSession.
  cbn -[setupStreams step answer terminal]. rewrite Hd. cbn -[setupStreams step answer terminal].
  fold (opened conn w).
  destruct rq; cbn -[setupStreams step answer terminal].
  - rewrite call_eq.
    destruct (answer env _ (ReqRequestPty _ _ _ _) (opened conn w)); try reflexivity.
    cbn -[setupStreams step answer terminal].
    destruct (is_empty command); cbn -[setupStreams step answer terminal].
    + rewrite call_eq.
      destruct (answer env _ ReqShell _); try reflexivity.
      cbn -[setupStreams step answer terminal]. rewrite call_eq. reflexivity.
    + rewrite call_eq.
      destruct (answer env _ (ReqRun command) _); try reflexivity;
        cbn -[setupStreams step answer terminal]; rewrite call_eq;
        destruct (answer env _ ReqShell _); try reflexivity;
        cbn -[setupStreams step answer terminal]; rewrite call_eq; reflexivity.
  - destruct (is_empty command); cbn -[setupStreams step answer terminal].
    + rewrite call_eq.
      destruct (answer env _ ReqShell _); try reflexivity.
      cbn -[setupStreams step answer terminal]. rewrite call_eq. reflexivity.
    + rewrite call_eq.
      destruct (answer env _ (ReqRun command) _); try reflexivity;
        cbn -[setupStreams step answer terminal]; rewrite call_eq;
        destruct (answer env _ ReqShell _); try reflexivity;
        cbn -[setupStreams step answer terminal]; rewrite call_eq; reflexivity.
Qed.
End Shell.

(** C7.  When a shell asks for a pseudo-terminal and its session opens,
    [Start] requests the pseudo-terminal first thing after the session is
    open, with the caller's terminal parameters when there are some and with
    the default ("xterm", 80 wide, 40 high, no modes) otherwise.  If the
    request fails, [Start] returns that error and only closes the session:
    neither the initial command nor the shell nor the wait is attempted.  If
    it succeeds (and the initial command, if any, does not panic), the shell
    is started after it. *)
Theorem Start_negotiates_pty (env : Env) (rs : RemoteShell.remoteShell) (w : World)
        (command : gostring) (conn : ssh_Client) :
  RemoteShell.requestPty rs = true ->
  RemoteShell.client rs = Some conn ->
  dial env (trace w) conn = Done ->
  let session := shell_session rs w in
  let w1 := opened conn w in
  let reply := serve env (trace w1) session (pty_request rs) in
  (RemoteShell.terminalConfig rs = None ->
   pty_request rs = ReqRequestPty (lit "xterm") 40 80 []) /\
  (forall tc, RemoteShell.terminalConfig rs = Some tc ->
   pty_request rs = ReqRequestPty (Term tc) (Height tc) (Width tc) (Modes tc)) /\
  (exists rest,
     trace (world (RemoteShell.Start env command rs w)) =
       trace w ++ [EvNewSession conn Done (next_sid w);
                   EvCall session (pty_request rs) reply] ++ rest) /\
  (forall msg,
     status reply = Failed msg ->
     RemoteShell.Start env command rs w =
       mkRes (Returned (Some (foreign msg))) rs
             (log (EvClose (next_sid w)) (step env session (pty_request rs) w1)) /\
     trace (world (RemoteShell.Start env command rs w)) =
       trace w ++ [EvNewSession conn Done (next_sid w);
                   EvCall session (pty_request rs) reply;
                   EvClose (next_sid w)]) /\
  (status reply = Done ->
   (forall msg, is_empty command = false ->
                answer env session (ReqRun command) (with_pty env rs conn w) <> Aborted msg) ->
   (exists rest,
      trace (world (RemoteShell.Start env command rs w)) =
        trace (with_command env rs conn command w)
        ++ EvCall session ReqShell
                  (serve env (trace (with_command env rs conn command w)) session ReqShell)
        :: rest) /\
   (exists between,
      trace (with_command env rs conn command w) =
        trace w ++ [EvNewSession conn Done (next_sid w);
                    EvCall session (pty_request rs) reply] ++ between)).
Proof.
  intros Hpty Hc Hd session w1 reply.
  pose proof (Start_opened env command rs w conn Hc Hd) as E. cbv zeta in E.
  fold session in E. fold w1 in E. rewrite Hpty in E.
  assert (Hw2 : with_pty env rs conn w = step env session (pty_request rs) w1)
    by (unfold with_pty; rewrite Hpty; reflexivity).
  assert (Ht2 : trace (with_pty env rs conn w) =
                trace w ++ [EvNewSession conn Done (next_sid w);
                            EvCall session (pty_request rs) reply])
    by (rewrite Hw2; unfold step, w1, opened, log; cbn [trace];
        rewrite <- app_assoc; reflexivity).
  assert (Ht3 : exists between,
             trace (with_command env rs conn command w) =
               trace w ++ [EvNewSession conn Done (next_sid w);
                           EvCall session (pty_request rs) reply] ++ between).
  { unfold with_command. destruct (is_empty command).
    - exists []. rewrite Ht2. rewrite app_nil_r. reflexivity.
    - eexists. rewrite step_trace, Ht2, <- app_assoc. reflexivity. }
  split; [|split; [|split; [|split]]].
  - intros Hn. unfold pty_request, RemoteShell.terminal. rewrite Hn. reflexivity.
  - intros tc Hs. unfold pty_request, RemoteShell.terminal. rewrite Hs. reflexivity.
  - rewrite E. destruct Ht3 as [between Ht3].
    destruct (answer env session (pty_request rs) w1).
    + destruct (if is_empty command then Done else _).
      * destruct (answer env session ReqShell _); cbn [world out];
          rewrite !log_trace, ?step_trace, Ht3, <- ?app_assoc; eexists; reflexivity.
      * destruct (answer env session ReqShell _); cbn [world out];
          rewrite !log_trace, ?step_trace, Ht3, <- ?app_assoc; eexists; reflexivity.
      * cbn [world]. rewrite log_trace, Ht3, <- ?app_assoc. eexists; reflexivity.
    + cbn [world]. rewrite log_trace, Ht2, <- ?app_assoc. eexists; reflexivity.
    + cbn [world]. rewrite log_trace, Ht2, <- ?app_assoc. eexists; reflexivity.
  - intros msg Hf. rewrite E. unfold answer. fold reply. rewrite Hf.
    rewrite <- Hw2. split; [reflexivity|].
    cbn [world]. rewrite log_trace, Ht2, <- app_assoc. reflexivity.
  - intros Hok Hrun. rewrite E. unfold answer at 1. fold reply. rewrite Hok.
    split; [|exact Ht3].
    destruct (is_empty command) eqn:Hemp.
    + destruct (answer env session ReqShell _) eqn:Hs; cbn [world];
        rewrite !log_trace, ?step_trace, <- ?app_assoc; eexists; reflexivity.
    + destruct (answer env session (ReqRun command) _) eqn:Hr;
        [| |exfalso; exact (Hrun msg eq_refl eq_refl)];
        destruct (answer env session ReqShell _) eqn:Hs; cbn [world];
        rewrite !log_trace, ?step_trace, <- ?app_assoc; eexists; reflexivity.
Qed.

Lemma Start_negotiates_pty_witness :
  trace (world (RemoteShell.Start no_pty_env (lit "ls")
                                  (Client.InteractiveShell sample_client None) empty_world))
  = [EvNewSession 1%nat Done 0;
     EvCall (mkSession 0 (Some os_Stdin) (Some os_Stdout) (Some os_Stderr))
            (ReqRequestPty (lit "xterm") 40 80 [])
            (mkReply [] (Failed (lit "ssh: pty-req failed")));
     EvClose 0]
  /\ pty_request (RemoteShell.mk (Some 1%nat) InteractiveShell true None None None None)
     = ReqRequestPty (lit "xterm") 40 80 []
  /\ exists rest,
       trace (world (RemoteShell.Start sample_env (lit "ls")
                       (Client.InteractiveShell sample_client None) empty_world))
       = [EvNewSession 1%nat Done 0;
          EvCall (mkSession 0 (Some os_Stdin) (Some os_Stdout) (Some os_Stderr))
                 (ReqRequestPty (lit "xterm") 40 80 []) (mkReply [] Done);
          EvCall (mkSession 0 (Some os_Stdin) (Some os_Stdout) (Some os_Stderr))
                 (ReqRun (lit "ls")) (mkReply [(FdOut, lit "ls")] Done);
          EvCall (mkSession 0 (Some os_Stdin) (Some os_Stdout) (Some os_Stderr))
                 ReqShell (mkReply [] Done)] ++ rest.
Proof.
  split; [|split].
  - destruct (Start_negotiates_pty no_pty_env (Client.InteractiveShell sample_client None)
                empty_world (lit "ls") 1%nat eq_refl eq_refl eq_refl)
      as (_ & _ & _ & Hfail & _).
    destruct (Hfail (lit "ssh: pty-req failed") eq_refl) as [_ Ht]. exact Ht.
  - destruct (Start_negotiates_pty sample_env
                (RemoteShell.mk (Some 1%nat) InteractiveShell true None None None None)
                empty_world (lit "ls") 1%nat eq_refl eq_refl eq_refl)
      as (Hdefault & _).
    exact (Hdefault eq_refl).
  - destruct (Start_negotiates_pty sample_env (Client.InteractiveShell sample_client None)
                empty_world (lit "ls") 1%nat eq_refl eq_refl eq_refl)
      as (_ & _ & _ & _ & Hok).
    destruct (Hok eq_refl) as [[rest Hrest] _].
    + intros msg _. vm_compute. discriminate.
    + exists rest. exact Hrest.
Defined.

(** A whole interactive session with an initial command, on a transport
    where everything succeeds. *)
Example Start_in_order :
  let r := RemoteShell.Start sample_env (lit "ls")
             (Client.InteractiveShell sample_client None) empty_world in
  let session := mkSession 0 (Some os_Stdin) (Some os_Stdout) (Some os_Stderr) in
  out r = Returned None
  /\ trace (world r) =
       [EvNewSession 1%nat Done 0;
        EvCall session (ReqRequestPty (lit "xterm") 40 80 []) (mkReply [] Done);
        EvCall session (ReqRun (lit "ls")) (mkReply [(FdOut, lit "ls")] Done);
        EvCall session ReqShell (mkReply [] Done);
        EvCall session ReqWait (mkReply [] Done);
        EvClose 0].
Proof. vm_compute. split; reflexivity. Qed.

(** C9.  When [Start] is given an initial command, whatever error the run of
    that command returns is dropped: with the session open and the
    pseudo-terminal (if asked for) granted, what [Start] returns is the error
    of the shell request, or else that of the wait, whether the command
    succeeded or failed.  So [Start] can return nil although the initial
    command failed. *)
Theorem Start_discards_command_error (env : Env) (rs : RemoteShell.remoteShell) (w : World)
        (command : gostring) (conn : ssh_Client) :
  (is_empty command = false ->
   RemoteShell.client rs = Some conn ->
   dial env (trace w) conn = Done ->
   (RemoteShell.requestPty rs = true ->
    answer env (shell_session rs w) (pty_request rs) (opened conn w) = Done) ->
   let session := shell_session rs w in
   let w2 := with_pty env rs conn w in
   let w3 := step env session (ReqRun command) w2 in
   let w4 := step env session ReqShell w3 in
   (forall msg, answer env session (ReqRun command) w2 <> Aborted msg) ->
   out (RemoteShell.Start env command rs w) =
     match answer env session ReqShell w3 with
     | Done => outcome_of (answer env session ReqWait w4)
     | st => outcome_of st
     end) /\
  (let r := RemoteShell.Start sample_env (lit "fail") (Client.Shell sample_client)
                              empty_world in
   out r = Returned None /\
   In (EvCall (mkSession 0 (Some os_Stdin) (Some os_Stdout) (Some os_Stderr))
              (ReqRun (lit "fail"))
              (mkReply [(FdOut, lit "partial"); (FdErr, lit "boom")]
                       (Failed (lit "Process exited with status 1"))))
      (trace (world r))).
Proof.
  split.
  - intros Hne Hc Hd Hpty session w2 w3 w4 Hrun.
    pose proof (Start_opened env command rs w conn Hc Hd) as E. cbv zeta in E.
    rewrite E. clear E.
    assert (Hw3 : with_command env rs conn command w = w3)
      by (unfold with_command; rewrite Hne; reflexivity).
    rewrite Hw3, Hne. fold session. fold w2. fold w4.
    assert (Hp : (if RemoteShell.requestPty rs
                  then answer env session (pty_request rs) (opened conn w) else Done) = Done).
    { destruct (RemoteShell.requestPty rs); [apply Hpty|]; reflexivity. }
    rewrite Hp.
    destruct (answer env session (ReqRun command) w2) eqn:Hr;
      [| |exfalso; exact (Hrun msg eq_refl)];
      destruct (answer env session ReqShell w3); reflexivity.
  - vm_compute. split; [reflexivity|]. right. left. reflexivity.
Qed.

Lemma Start_discards_command_error_witness :
  out (RemoteShell.Start sample_env (lit "fail")
                         (Client.InteractiveShell sample_client None) empty_world)
  = Returned None.
Proof.
  rewrite (proj1 (Start_discards_command_error sample_env
                    (Client.InteractiveShell sample_client None) empty_world
                    (lit "fail") 1%nat)
                 eq_refl eq_refl eq_refl (fun _ => eq_refl)).
  - reflexivity.
  - intros msg. vm_compute. discriminate.
Defined.

(** * Further properties *)

(** ** Raw scripts *)

Section RawScripts.
Variable env : Env.
Import RemoteScript.

(** [runScript], computed: the session is opened, the shell is started on
    it, the wait follows only if the shell started, and the session is closed
    whatever happened after it was opened. *)
Lemma runScript_eq rs w :
  runScript env rs w =
    match client rs with
    | None => mkRes (Panicked nil_dereference) rs w
    | Some conn =>
        match dial env (trace w) conn with
        | Done =>
            let session := script_session rs w in
            let w1 := opened conn w in
            let w2 := step env session ReqShell w1 in
            match answer env session ReqShell w1 with
            | Done =>
                mkRes (outcome_of (answer env session ReqWait w2)) rs
                      (log (EvClose (next_sid w)) (step env session ReqWait w2))
            | st => mkRes (outcome_of st) rs (log (EvClose (next_sid w)) w2)
            end
        | st => mkRes (outcome_of st) rs (log (EvNewSession conn st (next_sid w)) w)
        end
    end.
Proof.
  destruct rs as [c t s f e so se].
  unfold runScript, bind, this, defer, Close, emit, ret, NewSession, script_session.
  cbn -[step answer opened].
  destruct c as [conn|]; [|reflexivity].
  destruct (dial env (trace w) conn) eqn:Hd; cbn -[step answer opened]; try reflexivity.
  fold (opened conn w). rewrite call_eq.
  destruct (answer env _ ReqShell (opened conn w)); cbn -[step answer opened];
    try reflexivity.
  rewrite call_eq. reflexivity.
Qed.
End RawScripts.

(** X1.  A raw script is run in one session: with the script as its standard
    input and the sinks of the executor as its outputs, the shell is started
    and, only if that succeeded, waited for; [Run] returns the first error of
    the two, the session is closed in either case, and the executor is left
    as it was.  When the session cannot be opened, [Run] returns that error
    and nothing else is called. *)
Theorem Run_RawScript_one_session (env : Env) (rs : RemoteScript.remoteScript) (w : World)
        (conn : ssh_Client) :
  RemoteScript.scriptType rs = RawScript ->
  RemoteScript.err rs = None ->
  RemoteScript.client rs = Some conn ->
  let session := script_session rs w in
  let shell := serve env (trace (opened conn w)) session ReqShell in
  let wait := serve env (trace (step env session ReqShell (opened conn w))) session ReqWait in
  self (RemoteScript.Run env rs w) = rs /\
  (dial env (trace w) conn <> Done ->
   out (RemoteScript.Run env rs w) = outcome_of (dial env (trace w) conn) /\
   trace (world (RemoteScript.Run env rs w)) =
     trace w ++ [EvNewSession conn (dial env (trace w) conn) (next_sid w)]) /\
  (dial env (trace w) conn = Done -> status shell <> Done ->
   out (RemoteScript.Run env rs w) = outcome_of (status shell) /\
   trace (world (RemoteScript.Run env rs w)) =
     trace w ++ [EvNewSession conn Done (next_sid w);
                 EvCall session ReqShell shell;
                 EvClose (next_sid w)]) /\
  (dial env (trace w) conn = Done -> status shell = Done ->
   out (RemoteScript.Run env rs w) = outcome_of (status wait) /\
   trace (world (RemoteScript.Run env rs w)) =
     trace w ++ [EvNewSession conn Done (next_sid w);
                 EvCall session ReqShell shell;
                 EvCall session ReqWait wait;
                 EvClose (next_sid w)]).
Proof.
  intros Ht He Hc session shell wait.
  assert (E : RemoteScript.Run env rs w = RemoteScript.runScript env rs w).
  { unfold RemoteScript.Run, bind, this. simpl. rewrite He, Ht. reflexivity. }
  rewrite E, runScript_eq, Hc. cbv zeta. fold session.
  split; [|split; [|split]].
  - destruct (dial env (trace w) conn); try reflexivity.
    destruct (answer env session ReqShell (opened conn w)); reflexivity.
  - intros Hd. destruct (dial env (trace w) conn); [contradiction| |]; split; reflexivity.
  - intros Hd Hs. rewrite Hd. unfold answer. fold shell.
    destruct (status shell) eqn:Hst; [contradiction| |];
      (split; [reflexivity|]);
      change (trace w ++ [EvNewSession conn Done (next_sid w); EvCall session ReqShell shell;
                          EvClose (next_sid w)])
        with (trace w ++ [EvNewSession conn Done (next_sid w)] ++ [EvCall session ReqShell shell]
                      ++ [EvClose (next_sid w)]);
      rewrite !app_assoc; reflexivity.
  - intros Hd Hs. rewrite Hd.
    assert (Ha : answer env session ReqShell (opened conn w) = Done) by exact Hs.
    rewrite Ha.
    split; [reflexivity|].
    change (trace w ++ [EvNewSession conn Done (next_sid w); EvCall session ReqShell shell;
                        EvCall session ReqWait wait; EvClose (next_sid w)])
      with (trace w ++ [EvNewSession conn Done (next_sid w)] ++ [EvCall session ReqShell shell]
                    ++ [EvCall session ReqWait wait] ++ [EvClose (next_sid w)]).
    rewrite !app_assoc. reflexivity.
Qed.

Lemma Run_RawScript_one_session_witness :
  let rs := Client.Script sample_client (lit "echo hi") in
  out (RemoteScript.Run sample_env rs empty_world) = Returned None /\
  trace (world (RemoteScript.Run sample_env rs empty_world)) =
    [EvNewSession 1%nat Done 0;
     EvCall (mkSession 0 (Some (strings_NewReader (lit "echo hi"))) None None)
            ReqShell (mkReply [] Done);
     EvCall (mkSession 0 (Some (strings_NewReader (lit "echo hi"))) None None)
            ReqWait (mkReply [] Done);
     EvClose 0].
Proof.
  intros rs.
  destruct (Run_RawScript_one_session sample_env rs empty_world 1%nat
              eq_refl eq_refl eq_refl) as (_ & _ & _ & H).
  exact (H eq_refl eq_refl).
Defined.

(** ** Script files, computed *)

Section ScriptFilesComputed.
Variable env : Env.
Import RemoteScript.

Lemma runScriptFile_eq rs w :
  runScriptFile env rs w =
    match fs_open env (trace w) (scriptFile rs) with
    | Done =>
        let w0 := log (EvOpen (scriptFile rs) Done) w in
        match fs_copy env (trace w0) (scriptFile rs) with
        | (content, Done) =>
            let r := runScript env (with_script rs RawScript content) (loaded rs content w) in
            match out r with
            | Returned e =>
                mkRes (Returned e) rs
                      (mkWorld (heap (world r)) (next_addr (world r)) (next_sid (world r))
                               (trace (world r) ++ [EvStore (StScript (script rs));
                                                    EvStore (StScriptType (scriptType rs));
                                                    EvFileClose (scriptFile rs)]))
            | Panicked msg =>
                mkRes (Panicked msg) (with_script rs RawScript content)
                      (log (EvFileClose (scriptFile rs)) (world r))
            end
        | (content, st) =>
            mkRes (outcome_of st) rs
                  (mkWorld (heap w) (next_addr w) (next_sid w)
                           (trace w ++ [EvOpen (scriptFile rs) Done;
                                        EvCopy (scriptFile rs) content st;
                                        EvFileClose (scriptFile rs)]))
        end
    | st => mkRes (outcome_of st) rs (log (EvOpen (scriptFile rs) st) w)
    end.
Proof.
  destruct rs as [c t s f e so se].
  unfold runScriptFile, bind, this, defer, file_Close, emit, ret, os_Open, io_Copy,
    set_script, set_scriptType, with_script, loaded.
  cbn -[runScript].
  destruct (fs_open env (trace w) f); cbn -[runScript]; try reflexivity.
  destruct (fs_copy env (trace w ++ [EvOpen f Done]) f) as [content st].
  destruct st; unfold log; cbn -[runScript]; rewrite <- ?app_assoc; cbn -[runScript];
    try reflexivity.
  match goal with |- context [runScript env ?o ?v] =>
    pose proof (runScript_self env o v) as Hs;
    destruct (runScript env o v) as [res s' w'] end.
  cbn in Hs. subst s'.
  destruct res; cbn -[runScript]; rewrite <- ?app_assoc; reflexivity.
Qed.
End ScriptFilesComputed.

(** X2.  A script file that can be read is run as the raw script of its
    content: [Run] returns what [Run] on the executor holding that content
    as a raw script returns, from the world in which the file has been read
    and the two fields stored; when that returns, the fields are stored back
    and the file is closed after it, and when it panics the file is still
    closed. *)
Theorem Run_ScriptFile_as_RawScript (env : Env) (rs : RemoteScript.remoteScript) (w : World)
        (content : gostring) :
  RemoteScript.scriptType rs = ScriptFile ->
  RemoteScript.err rs = None ->
  fs_open env (trace w) (RemoteScript.scriptFile rs) = Done ->
  fs_copy env (trace w ++ [EvOpen (RemoteScript.scriptFile rs) Done])
          (RemoteScript.scriptFile rs) = (content, Done) ->
  let raw := RemoteScript.Run env (with_script rs RawScript content) (loaded rs content w) in
  out (RemoteScript.Run env rs w) = out raw /\
  (forall e, out raw = Returned e ->
     self (RemoteScript.Run env rs w) = rs /\
     trace (world (RemoteScript.Run env rs w)) =
       trace (world raw) ++ [EvStore (StScript (RemoteScript.script rs));
                             EvStore (StScriptType ScriptFile);
                             EvFileClose (RemoteScript.scriptFile rs)]) /\
  (forall msg, out raw = Panicked msg ->
     self (RemoteScript.Run env rs w) = with_script rs RawScript content /\
     trace (world (RemoteScript.Run env rs w)) =
       trace (world raw) ++ [EvFileClose (RemoteScript.scriptFile rs)]).
Proof.
  intros Ht He Ho Hc raw.
  assert (E : RemoteScript.Run env rs w = RemoteScript.runScriptFile env rs w).
  { unfold RemoteScript.Run, bind, this. simpl. rewrite He, Ht. reflexivity. }
  assert (R : raw = RemoteScript.runScript env (with_script rs RawScript content)
                                           (loaded rs content w)).
  { unfold raw, RemoteScript.Run, bind, this, with_script. simpl. rewrite He. reflexivity. }
  rewrite E, runScriptFile_eq, Ho. cbv zeta. rewrite log_trace, Hc, <- R, Ht.
  destruct (out raw) as [e|msg]; cbn [out self world trace].
  - split; [reflexivity|]. split; [intros e' _; split; reflexivity | discriminate].
  - split; [reflexivity|]. split; [discriminate | intros m _; split; reflexivity].
Qed.

Lemma Run_ScriptFile_as_RawScript_witness :
  let rs := Client.ScriptFile sample_client (lit "deploy.sh") in
  out (RemoteScript.Run sample_env rs empty_world)
  = out (RemoteScript.Run sample_env (with_script rs RawScript (lit "echo hi"))
                          (loaded rs (lit "echo hi") empty_world)).
Proof.
  intros rs.
  apply (Run_ScriptFile_as_RawScript sample_env rs empty_world (lit "echo hi")
           eq_refl eq_refl eq_refl eq_refl).
Defined.

(** ** Where the remote output goes *)

Section Deliveries.
Variable env : Env.

Lemma received_app a evs1 evs2 :
  received a (evs1 ++ evs2) = received a evs1 ++ received a evs2.
Proof.
  induction evs1 as [|ev evs1 IH]; simpl; [reflexivity|].
  destruct ev; simpl; auto. rewrite IH, app_assoc. reflexivity.
Qed.

Lemma emitted_all_app evs1 evs2 :
  emitted_all (evs1 ++ evs2) = emitted_all evs1 ++ emitted_all evs2.
Proof.
  induction evs1 as [|ev evs1 IH]; simpl; [reflexivity|].
  destruct ev; simpl; auto. rewrite IH, app_assoc. reflexivity.
Qed.

Lemma deliver_routed s cs : forall h a,
  contents (deliver s cs h) a = contents h a ++ routed a s cs.
Proof.
  induction cs as [|[fd p] cs IH]; intros h a; simpl.
  - rewrite app_nil_r. reflexivity.
  - rewrite IH. unfold Write.
    destruct (sink s fd) as [[| |a']|]; try reflexivity.
    destruct (Nat.eqb_spec a' a) as [->|Hne].
    + rewrite contents_insert_eq, <- app_assoc. reflexivity.
    + rewrite contents_insert_ne by exact Hne. reflexivity.
Qed.

Lemma bound_to_app o e evs1 evs2 :
  bound_to o e evs1 -> bound_to o e evs2 -> bound_to o e (evs1 ++ evs2).
Proof. unfold bound_to. intros H1 H2. apply Forall_app. split; assumption. Qed.

Lemma delivers_refl o e w : delivers o e w w.
Proof.
  exists []. rewrite app_nil_r. repeat split; try constructor.
  intros a. rewrite app_nil_r. reflexivity.
Qed.

Lemma delivers_trans o e w1 w2 w3 :
  delivers o e w1 w2 -> delivers o e w2 w3 -> delivers o e w1 w3.
Proof.
  intros (d1 & Ht1 & Hb1 & Hn1 & Hh1) (d2 & Ht2 & Hb2 & Hn2 & Hh2).
  exists (d1 ++ d2). rewrite Ht2, Ht1, app_assoc.
  split; [reflexivity|]. split; [apply bound_to_app; assumption|].
  split; [congruence|].
  intros a. rewrite Hh2, Hh1, received_app, app_assoc. reflexivity.
Qed.

(** A step that calls no session and touches no buffer. *)
Lemma delivers_quiet o e w w' evs :
  heap w' = heap w -> next_addr w' = next_addr w -> trace w' = trace w ++ evs ->
  Forall (fun ev => match ev with EvCall _ _ _ => False | _ => True end) evs ->
  delivers o e w w'.
Proof.
  intros Hh Hn Ht Hq. exists evs. split; [exact Ht|].
  assert (Hr : forall a, received a evs = []).
  { intros a. clear Ht. induction Hq as [|ev evs Hev _ IH]; simpl; [reflexivity|].
    destruct ev; try exact IH. exfalso; exact Hev. }
  split.
  - unfold bound_to. eapply List.Forall_impl; [|exact Hq].
    intros ev Hev. destruct ev; auto. exfalso; exact Hev.
  - split; [exact Hn|]. intros a. rewrite Hh, Hr, app_nil_r. reflexivity.
Qed.

Lemma delivers_log o e ev w :
  match ev with EvCall _ _ _ => False | _ => True end ->
  delivers o e w (log ev w).
Proof.
  intros Hev. apply (delivers_quiet o e w (log ev w) [ev]); try reflexivity.
  constructor; [exact Hev | constructor].
Qed.

Lemma delivers_opened o e conn w : delivers o e w (opened conn w).
Proof.
  apply (delivers_quiet o e w (opened conn w) [EvNewSession conn Done (next_sid w)]);
    try reflexivity.
  repeat constructor.
Qed.

Lemma delivers_step s q w :
  delivers (Stdout s) (Stderr s) w (step env s q w).
Proof.
  exists [EvCall s q (serve env (trace w) s q)].
  split; [reflexivity|]. split; [repeat constructor|]. split; [reflexivity|].
  intros a. unfold step, log. cbn [heap received]. rewrite deliver_routed, app_nil_r.
  reflexivity.
Qed.

Lemma after_line_eq conn w o e line :
  after_line env conn w o e line =
    log (EvClose (next_sid w)) (step env (line_session w o e) (ReqRun line) (opened conn w)).
Proof.
  unfold after_line, line_reply, log, step, opened. cbn. rewrite <- !app_assoc. reflexivity.
Qed.

Lemma after_line_delivers conn w o e line :
  delivers o e w (after_line env conn w o e line).
Proof.
  rewrite after_line_eq.
  eapply delivers_trans; [apply delivers_opened|].
  eapply delivers_trans; [apply (delivers_step (line_session w o e))|].
  apply delivers_log. exact I.
Qed.

Lemma runs_lines_delivers c o e cmds w res w' :
  runs_lines env c o e cmds w res w' -> delivers o e w w'.
Proof.
  induction 1.
  - apply delivers_refl.
  - apply delivers_refl.
  - apply delivers_log. exact I.
  - apply after_line_delivers.
  - eapply delivers_trans; [apply after_line_delivers | eassumption].
Qed.

Import RemoteScript.

Lemma runScript_delivers rs w :
  delivers (stdout rs) (stderr rs) w (world (runScript env rs w)).
Proof.
  rewrite runScript_eq.
  destruct (client rs) as [conn|]; [|apply delivers_refl].
  destruct (dial env (trace w) conn); cbn [world]; try (apply delivers_log; exact I).
  cbv zeta.
  assert (H2 : delivers (stdout rs) (stderr rs) w
                        (step env (script_session rs w) ReqShell (opened conn w))).
  { eapply delivers_trans; [apply delivers_opened|].
    apply (delivers_step (script_session rs w)). }
  destruct (answer env (script_session rs w) ReqShell (opened conn w)); cbn [world].
  - eapply delivers_trans; [exact H2|].
    eapply delivers_trans; [apply (delivers_step (script_session rs w))|].
    apply delivers_log. exact I.
  - eapply delivers_trans; [exact H2|]. apply delivers_log. exact I.
  - eapply delivers_trans; [exact H2|]. apply delivers_log. exact I.
Qed.

Lemma runScriptFile_delivers rs w :
  delivers (stdout rs) (stderr rs) w (world (runScriptFile env rs w)).
Proof.
  rewrite runScriptFile_eq.
  destruct (fs_open env (trace w) (scriptFile rs)); cbn [world];
    try (apply delivers_log; exact I).
  cbv zeta. destruct (fs_copy env _ _) as [content st].
  assert (Hq : forall st', delivers (stdout rs) (stderr rs) w
            (mkWorld (heap w) (next_addr w) (next_sid w)
               (trace w ++ [EvOpen (scriptFile rs) Done;
                            EvCopy (scriptFile rs) content st';
                            EvFileClose (scriptFile rs)]))).
  { intros st'. eapply delivers_quiet; try reflexivity. repeat constructor. }
  destruct st; cbn [world]; try apply Hq.
  pose proof (runScript_delivers (with_script rs RawScript content) (loaded rs content w))
    as Hrun.
  assert (Hpre : delivers (stdout rs) (stderr rs) w (loaded rs content w)).
  { eapply delivers_quiet; try reflexivity. repeat constructor. }
  change (stdout (with_script rs RawScript content)) with (stdout rs) in Hrun.
  change (stderr (with_script rs RawScript content)) with (stderr rs) in Hrun.
  destruct (runScript env (with_script rs RawScript content) (loaded rs content w))
    as [res s' w'].
  cbn [out world] in *.
  eapply delivers_trans; [exact Hpre|]. eapply delivers_trans; [exact Hrun|].
  destruct res; cbn [world].
  - eapply delivers_quiet; try reflexivity. repeat constructor.
  - apply delivers_log. exact I.
Qed.

(** During [Run] every call goes to a session bound to the two sinks of the
    executor, each buffer grows by what is routed to it, and none is
    allocated. *)
Lemma Run_delivers rs w :
  delivers (stdout rs) (stderr rs) w (world (Run env rs w)).
Proof.
  unfold Run, bind, this, emit. simpl.
  destruct (err rs) eqn:Herr; simpl; [apply delivers_log; exact I|].
  destruct (scriptType rs =? CommandLine).
  { unfold runCommands, bind, this. simpl.
    destruct (runCommands_loop_runs_lines env (Split (script rs) newline) rs w) as [_ Hr].
    exact (runs_lines_delivers _ _ _ _ _ _ _ Hr). }
  destruct (scriptType rs =? RawScript); [apply runScript_delivers|].
  destruct (scriptType rs =? ScriptFile); [apply runScriptFile_delivers|].
  apply delivers_refl.
Qed.
End Deliveries.

Section Sinks.
Variable env : Env.
Import RemoteScript.

Lemma routed_bound a s cs :
  routed a s cs =
    if is_buffer a (Stdout s) then
      if is_buffer a (Stderr s) then all_chunks cs else on_stream FdOut cs
    else
      if is_buffer a (Stderr s) then on_stream FdErr cs else [].
Proof.
  induction cs as [|[fd p] cs IH]; simpl.
  - destruct (is_buffer a (Stdout s)), (is_buffer a (Stderr s)); reflexivity.
  - rewrite IH. unfold is_buffer.
    destruct fd; simpl;
      destruct (Stdout s) as [[| |ao]|]; destruct (Stderr s) as [[| |ae]|];
      try reflexivity;
      try destruct (ao =? a)%nat; try destruct (ae =? a)%nat; reflexivity.
Qed.

Lemma received_bound a o e evs :
  bound_to o e evs -> received a evs = share a o e evs.
Proof.
  unfold share. induction 1 as [|ev evs Hev _ IH]; simpl.
  - destruct (is_buffer a o), (is_buffer a e); reflexivity.
  - destruct ev; try exact IH.
    destruct Hev as [Ho He]. rewrite IH, routed_bound, Ho, He.
    destruct (is_buffer a o), (is_buffer a e); reflexivity.
Qed.
End Sinks.

(** X3.  During [Run], however it ends, each sink of the executor that is a
    buffer receives, appended in order of arrival, what the remote side sends
    on its stream; a buffer that is both sinks receives both streams as they
    arrive; every other buffer is left as it is. *)
Theorem Run_fills_the_sinks (env : Env) (rs : RemoteScript.remoteScript) (w : World) :
  exists during,
    trace (world (RemoteScript.Run env rs w)) = trace w ++ during /\
    bound_to (RemoteScript.stdout rs) (RemoteScript.stderr rs) during /\
    forall a,
      contents (heap (world (RemoteScript.Run env rs w))) a =
        contents (heap w) a
        ++ share a (RemoteScript.stdout rs) (RemoteScript.stderr rs) during.
Proof.
  destruct (Run_delivers env rs w) as (during & Ht & Hb & _ & Hh).
  exists during. split; [exact Ht|]. split; [exact Hb|].
  intros a. rewrite Hh, (received_bound a _ _ _ Hb). reflexivity.
Qed.

(** One buffer for both streams, on the sample transport. *)
Example Run_into_one_buffer :
  let rs := RemoteScript.SetStdio (Some (Buffer 1)) (Some (Buffer 1))
              (Client.Command sample_client (lit "fail")) busy_world in
  contents (heap (world (RemoteScript.Run sample_env (self rs) (world rs)))) 1
  = lit "partialboom".
Proof. vm_compute. reflexivity. Qed.

(** ** [Output], computed *)

Section OutputComputed.
Variable env : Env.
Import RemoteScript.

Lemma Output_unfold rs w :
  err rs = None ->
  let r := Run env (capturing rs w) (capturing_world w) in
  Output env rs w =
    mkRes (match out r with
           | Returned e => Returned (as_bytes (contents (heap (world r)) (next_addr w)), e)
           | Panicked msg => Panicked msg
           end)
          (mk (client (self r)) (scriptType (self r)) (script (self r))
              (scriptFile (self r)) (err (self r)) (stdout rs) (stderr (self r)))
          (log (EvStore (StStdout (stdout rs))) (world r)).
Proof.
  intros He. destruct rs as [c t s f e so se]. simpl in He. subst e.
  unfold Output, bind, this, defer, new_Buffer, set_stdout, ret, Buffer_Bytes, as_bytes,
    capturing, capturing_world, log.
  cbn -[Run].
  destruct (Run env _ _) as [[e|] rs2 w2]; cbn;
    try destruct (contents _ _); reflexivity.
Qed.

Lemma contents_capturing_world w a :
  (a < next_addr w)%nat -> contents (heap (capturing_world w)) a = contents (heap w) a.
Proof.
  intros Ha. unfold capturing_world. cbn [heap].
  apply contents_insert_ne. lia.
Qed.

Lemma is_buffer_allocated w o :
  allocated w o -> is_buffer (next_addr w) o = false.
Proof.
  destruct o as [[| |a]|]; simpl; try reflexivity.
  intros Ha. apply Nat.eqb_neq. lia.
Qed.
End OutputComputed.

(** X4.  On an executor with no deferred error, [Output] runs [Run] once with
    a fresh buffer in place of [stdout].  When that [Run] returns, with nil
    or with an error, [Output] returns its error together with the bytes the
    remote side sent on standard output meanwhile; when it panics, so does
    [Output].  Standard error goes to the executor's own [stderr], and no
    other buffer the caller holds is written to, its [stdout] included. *)
Theorem Output_returns_stdout (env : Env) (rs : RemoteScript.remoteScript) (w : World) :
  RemoteScript.err rs = None ->
  allocated w (RemoteScript.stderr rs) ->
  exists during,
    trace (world (RemoteScript.Run env (capturing rs w) (capturing_world w)))
      = trace (capturing_world w) ++ during /\
    trace (world (RemoteScript.Output env rs w))
      = trace (capturing_world w) ++ during
        ++ [EvStore (StStdout (RemoteScript.stdout rs))] /\
    bound_to (Some (Buffer (next_addr w))) (RemoteScript.stderr rs) during /\
    out (RemoteScript.Output env rs w) =
      match out (RemoteScript.Run env (capturing rs w) (capturing_world w)) with
      | Returned e => Returned (as_bytes (emitted FdOut during), e)
      | Panicked msg => Panicked msg
      end /\
    forall a, (a < next_addr w)%nat ->
      contents (heap (world (RemoteScript.Output env rs w))) a =
        contents (heap w) a
        ++ (if is_buffer a (RemoteScript.stderr rs) then emitted FdErr during else []).
Proof.
  intros He Hal.
  destruct (Run_delivers env (capturing rs w) (capturing_world w))
    as (during & Ht & Hb & _ & Hr).
  assert (Hh : forall a,
             contents (heap (world (RemoteScript.Run env (capturing rs w)
                                                     (capturing_world w)))) a =
               contents (heap (capturing_world w)) a
               ++ share a (RemoteScript.stdout (capturing rs w))
                        (RemoteScript.stderr (capturing rs w)) during)
    by (intros a; rewrite Hr, (received_bound a _ _ _ Hb); reflexivity).
  clear Hr. exists during. rewrite (Output_unfold env rs w He). cbv zeta. cbn [out world].
  split; [exact Ht|].
  split; [rewrite log_trace, Ht, <- app_assoc; reflexivity|].
  split; [exact Hb|].
  split.
  - rewrite (Hh (next_addr w)). unfold share. cbn [RemoteScript.stdout capturing
      RemoteScript.stderr is_buffer]. rewrite Nat.eqb_refl.
    change (match RemoteScript.stderr rs with
            | Some (Buffer a') => (a' =? next_addr w)%nat
            | _ => false
            end) with (is_buffer (next_addr w) (RemoteScript.stderr rs)).
    rewrite (is_buffer_allocated w _ Hal).
    unfold capturing_world. cbn [heap]. rewrite contents_insert_eq. reflexivity.
  - intros a Ha. unfold log. cbn [heap]. rewrite (Hh a), (contents_capturing_world w a Ha).
    unfold share. cbn [RemoteScript.stdout capturing RemoteScript.stderr is_buffer].
    assert (Hne : (next_addr w =? a)%nat = false) by (apply Nat.eqb_neq; lia).
    rewrite Hne. reflexivity.
Qed.

Lemma Output_returns_stdout_witness :
  exists during,
    out (RemoteScript.Output sample_env wired_spec busy_world) =
      Returned (as_bytes (emitted FdOut during),
                Some (foreign (lit "Process exited with status 1"))) /\
    contents (heap (world (RemoteScript.Output sample_env wired_spec busy_world))) 0
      = lit "earlier" /\
    contents (heap (world (RemoteScript.Output sample_env wired_spec busy_world))) 1
      = emitted FdErr during.
Proof.
  destruct (Output_returns_stdout sample_env wired_spec busy_world eq_refl)
    as (during & _ & _ & _ & Hout & Hh).
  - vm_compute. lia.
  - exists during. split; [exact Hout|]. split.
    + rewrite (Hh 0%nat) by (vm_compute; lia). apply app_nil_r.
    + rewrite (Hh 1%nat) by (vm_compute; lia). reflexivity.
Defined.

(** X5.  Whatever the executor and however it ends, [SmartOutput] writes to no
    buffer that existed before the call: the caller's own sinks receive
    nothing of what the remote side sends meanwhile. *)
Theorem SmartOutput_spares_the_callers_buffers (env : Env)
        (rs : RemoteScript.remoteScript) (w : World) (a : nat) :
  (a < next_addr w)%nat ->
  contents (heap (world (RemoteScript.SmartOutput env rs w))) a = contents (heap w) a.
Proof.
  intros Ha. destruct (RemoteScript.err rs) as [e|] eqn:He.
  - rewrite (SmartOutput_deferred env rs w e He). reflexivity.
  - rewrite (SmartOutput_unfold env rs w He). cbv zeta. cbn [world heap].
    match goal with |- context [RemoteScript.Run env ?o ?v] =>
      destruct (Run_delivers env o v) as (during & _ & Hb & _ & Hh) end.
    rewrite (Hh a), (received_bound a _ _ _ Hb). unfold share.
    cbn [RemoteScript.stdout RemoteScript.stderr is_buffer heap].
    assert (H1 : (next_addr w =? a)%nat = false) by (apply Nat.eqb_neq; lia).
    assert (H2 : (S (next_addr w) =? a)%nat = false) by (apply Nat.eqb_neq; lia).
    rewrite H1, H2, app_nil_r.
    rewrite !contents_insert_ne by lia. reflexivity.
Qed.

Lemma SmartOutput_spares_the_callers_buffers_witness :
  contents (heap (world (RemoteScript.SmartOutput sample_env wired_spec busy_world))) 0
  = lit "earlier".
Proof.
  rewrite (SmartOutput_spares_the_callers_buffers sample_env wired_spec busy_world 0).
  - reflexivity.
  - vm_compute. lia.
Defined.

(** ** Sessions and files are released *)

Section Tidy.
Variable env : Env.

Lemma session_protocol_app d1 : forall c d2,
  session_protocol c (d1 ++ d2) =
    match session_protocol c d1 with
    | Some c' => session_protocol c' d2
    | None => None
    end.
Proof.
  induction d1 as [|ev d1 IH]; intros c d2; simpl; [reflexivity|].
  destruct ev; simpl; auto.
  - destruct r; auto. destruct c; auto.
  - destruct c as [id|]; auto. destruct (sid s =? id)%nat; auto.
  - destruct c as [id'|]; auto. destruct (id =? id')%nat; auto.
Qed.

Lemma file_protocol_app d1 : forall f d2,
  file_protocol f (d1 ++ d2) =
    match file_protocol f d1 with
    | Some f' => file_protocol f' d2
    | None => None
    end.
Proof.
  induction d1 as [|ev d1 IH]; intros f d2; simpl; [reflexivity|].
  destruct ev; simpl; auto.
  - destruct r; auto. destruct f; auto.
  - destruct f as [p|]; auto. destruct (bool_decide (path = p)); auto.
  - destruct f as [p|]; auto. destruct (bool_decide (path = p)); auto.
Qed.

Lemma proceeds_refl c f w : proceeds c c f f w w.
Proof. exists []. rewrite app_nil_r. auto. Qed.

Lemma proceeds_trans c1 c2 c3 f1 f2 f3 w1 w2 w3 :
  proceeds c1 c2 f1 f2 w1 w2 -> proceeds c2 c3 f2 f3 w2 w3 ->
  proceeds c1 c3 f1 f3 w1 w3.
Proof.
  intros (d1 & Ht1 & Hs1 & Hf1) (d2 & Ht2 & Hs2 & Hf2).
  exists (d1 ++ d2). rewrite Ht2, Ht1, app_assoc, session_protocol_app, Hs1,
    file_protocol_app, Hf1. auto.
Qed.

Lemma proceeds_one c c' f f' ev w :
  session_protocol c [ev] = Some c' -> file_protocol f [ev] = Some f' ->
  proceeds c c' f f' w (log ev w).
Proof. intros Hs Hf. exists [ev]. auto. Qed.

Lemma proceeds_opened f conn w :
  proceeds None (Some (next_sid w)) f f w (opened conn w).
Proof. exists [EvNewSession conn Done (next_sid w)]. auto. Qed.

Lemma proceeds_step f s q w :
  proceeds (Some (sid s)) (Some (sid s)) f f w (step env s q w).
Proof.
  exists [EvCall s q (serve env (trace w) s q)]. simpl. rewrite Nat.eqb_refl. auto.
Qed.

Lemma proceeds_close f id w :
  proceeds (Some id) None f f w (log (EvClose id) w).
Proof. apply proceeds_one; simpl; [rewrite Nat.eqb_refl|]; reflexivity. Qed.

Lemma proceeds_store c f st w : proceeds c c f f w (log (EvStore st) w).
Proof. apply proceeds_one; reflexivity. Qed.

Lemma proceeds_dial_failed c f conn st id w :
  st <> Done -> proceeds c c f f w (log (EvNewSession conn st id) w).
Proof. intros Hst. apply proceeds_one; [|reflexivity]. destruct st; auto. contradiction. Qed.

(** Same trace, other heap and counters. *)
Lemma proceeds_same_trace c c' f f' w w1 w2 :
  trace w1 = trace w2 -> proceeds c c' f f' w w1 -> proceeds c c' f f' w w2.
Proof. intros Ht (d & H & Hs & Hf). exists d. rewrite <- Ht. auto. Qed.

Lemma after_line_proceeds f conn w o e line :
  proceeds None None f f w (after_line env conn w o e line).
Proof.
  rewrite after_line_eq.
  eapply proceeds_trans; [apply proceeds_opened|].
  eapply proceeds_trans; [apply (proceeds_step f (line_session w o e))|].
  apply proceeds_close.
Qed.

Lemma runs_lines_proceeds f c o e cmds w res w' :
  runs_lines env c o e cmds w res w' -> proceeds None None f f w w'.
Proof.
  induction 1.
  - apply proceeds_refl.
  - apply proceeds_refl.
  - apply proceeds_dial_failed. assumption.
  - apply after_line_proceeds.
  - eapply proceeds_trans; [apply after_line_proceeds | eassumption].
Qed.

Import RemoteScript.

Lemma runScript_proceeds f rs w :
  proceeds None None f f w (world (runScript env rs w)).
Proof.
  rewrite runScript_eq.
  destruct (client rs) as [conn|]; [|apply proceeds_refl].
  destruct (dial env (trace w) conn) eqn:Hd; cbn [world];
    try (apply proceeds_dial_failed; discriminate).
  cbv zeta.
  assert (H2 : proceeds None (Some (next_sid w)) f f w
                        (step env (script_session rs w) ReqShell (opened conn w))).
  { eapply proceeds_trans; [apply proceeds_opened|].
    apply (proceeds_step f (script_session rs w)). }
  destruct (answer env (script_session rs w) ReqShell (opened conn w)); cbn [world].
  - eapply proceeds_trans; [exact H2|].
    eapply proceeds_trans; [apply (proceeds_step f (script_session rs w))|].
    apply proceeds_close.
  - eapply proceeds_trans; [exact H2|]. apply proceeds_close.
  - eapply proceeds_trans; [exact H2|]. apply proceeds_close.
Qed.

Lemma runScriptFile_tidy rs w : tidy w (world (runScriptFile env rs w)).
Proof.
  rewrite runScriptFile_eq.
  destruct (fs_open env (trace w) (scriptFile rs)) eqn:Ho; cbn [world];
    try (apply proceeds_one; reflexivity).
  cbv zeta. destruct (fs_copy env _ _) as [content st].
  assert (Hq : forall st', tidy w
            (mkWorld (heap w) (next_addr w) (next_sid w)
               (trace w ++ [EvOpen (scriptFile rs) Done;
                            EvCopy (scriptFile rs) content st';
                            EvFileClose (scriptFile rs)]))).
  { intros st'. eexists. split; [reflexivity|]. simpl.
    rewrite !bool_decide_eq_true_2 by reflexivity. auto. }
  destruct st; cbn [world]; try apply Hq.
  pose proof (runScript_proceeds (Some (scriptFile rs))
                (with_script rs RawScript content) (loaded rs content w)) as Hrun.
  assert (Hpre : proceeds None None None (Some (scriptFile rs)) w (loaded rs content w)).
  { eexists. split; [reflexivity|]. simpl.
    rewrite !bool_decide_eq_true_2 by reflexivity. auto. }
  destruct (runScript env (with_script rs RawScript content) (loaded rs content w))
    as [res s' w'].
  cbn [out world] in *.
  pose proof (proceeds_trans _ _ _ _ _ _ _ _ _ Hpre Hrun) as H.
  destruct res; cbn [world].
  - eapply proceeds_trans; [exact H|].
    exists [EvStore (StScript (script rs)); EvStore (StScriptType (scriptType rs));
            EvFileClose (scriptFile rs)].
    split; [reflexivity|]. simpl. rewrite bool_decide_eq_true_2 by reflexivity. auto.
  - eapply proceeds_trans; [exact H|].
    apply proceeds_one; simpl; [|rewrite bool_decide_eq_true_2 by reflexivity]; reflexivity.
Qed.

Lemma Run_tidy rs w : tidy w (world (Run env rs w)).
Proof.
  unfold Run, bind, this, emit. simpl.
  destruct (err rs) eqn:Herr; simpl; [apply proceeds_one; reflexivity|].
  destruct (scriptType rs =? CommandLine).
  { unfold runCommands, bind, this. simpl.
    destruct (runCommands_loop_runs_lines env (Split (script rs) newline) rs w) as [_ Hr].
    exact (runs_lines_proceeds None _ _ _ _ _ _ _ Hr). }
  destruct (scriptType rs =? RawScript); [apply runScript_proceeds|].
  destruct (scriptType rs =? ScriptFile); [apply runScriptFile_tidy|].
  apply proceeds_refl.
Qed.

Lemma Output_tidy rs w : tidy w (world (Output env rs w)).
Proof.
  destruct (err rs) as [e|] eqn:He.
  - rewrite (Output_deferred env rs w e He). apply proceeds_refl.
  - rewrite (Output_unfold env rs w He). cbv zeta. cbn [world].
    eapply proceeds_trans; [|apply proceeds_store].
    eapply proceeds_trans; [|apply Run_tidy].
    eexists. split; [reflexivity|]. auto.
Qed.

Lemma SmartOutput_tidy rs w : tidy w (world (SmartOutput env rs w)).
Proof.
  destruct (err rs) as [e|] eqn:He.
  - rewrite (SmartOutput_deferred env rs w e He). apply proceeds_refl.
  - rewrite (SmartOutput_unfold env rs w He). cbv zeta. cbn [world].
    match goal with |- context [Run env ?o ?v] =>
      pose proof (Run_tidy o v) as Hrun;
      assert (Hpre : tidy w v) by (eexists; split; [reflexivity|]; auto) end.
    pose proof (proceeds_trans _ _ _ _ _ _ _ _ _ Hpre Hrun) as H.
    eapply proceeds_trans; [exact H|].
    eexists. split; [reflexivity|]. auto.
Qed.

Lemma perform_tidy op rs w : tidy w (world (perform env op rs w)).
Proof.
  destruct op; simpl.
  - apply Run_tidy.
  - unfold fmap, bind. pose proof (Output_tidy rs w) as H.
    destruct (Output env rs w) as [res s' w']. destruct res; exact H.
  - unfold fmap, bind. pose proof (SmartOutput_tidy rs w) as H.
    destruct (SmartOutput env rs w) as [res s' w']. destruct res; exact H.
  - unfold fmap, bind, SetStdio, bind, this, set_stdout, set_stderr. simpl.
    eapply proceeds_trans; apply proceeds_store.
  - unfold fmap, bind, Cmd, bind, this, set_script, set_err. simpl.
    destruct (scriptType rs =? CommandLine); [destruct (is_empty (script rs))|];
      simpl; apply proceeds_store.
Qed.
End Tidy.

(** X6.  Under every sequence of [Run], [Output], [SmartOutput], [SetStdio]
    and [Cmd] on an executor, whatever the transport and the file system
    answer and whether the calls return or panic: a session is opened only
    when none is open, every call is made on the session that is open, every
    session that was opened is closed, and the same holds of the script file;
    when the sequence is over neither a session nor a file is open. *)
Theorem executor_releases_sessions_and_files (env : Env) (ops : list Op)
        (rs : RemoteScript.remoteScript) (w : World) :
  tidy w (snd (perform_all env ops rs w)).
Proof.
  revert rs w. induction ops as [|op ops IH]; intros rs w; simpl.
  - apply proceeds_refl.
  - specialize (IH (self (perform env op rs w)) (world (perform env op rs w))).
    destruct (perform_all env ops _ _) as [[os rs'] w']. simpl in *.
    eapply proceeds_trans; [apply perform_tidy | exact IH].
Qed.

(** A script file whose run panics half way: the session and the file are
    closed all the same. *)
Example panic_releases_session_and_file :
  let env := mkEnv (dial sample_env)
                   (fun _ _ _ => mkReply [] (Aborted (lit "connection lost")))
                   (fs_open sample_env) (fs_copy sample_env) in
  let r := RemoteScript.Run env (Client.ScriptFile sample_client (lit "deploy.sh"))
                            empty_world in
  out r = Panicked (lit "connection lost")
  /\ List.filter (fun ev => match ev with
                            | EvClose _ | EvFileClose _ => true
                            | _ => false
                            end) (trace (world r))
     = [EvClose 0; EvFileClose (lit "deploy.sh")].
Proof. vm_compute. split; reflexivity. Qed.

(** ** The shell driver, further *)

Section ShellFurther.
Variable env : Env.
Import RemoteShell.

Lemma requests_app evs1 evs2 :
  requests (evs1 ++ evs2) = requests evs1 ++ requests evs2.
Proof.
  induction evs1 as [|ev evs1 IH]; simpl; [reflexivity|].
  destruct ev; simpl; auto. rewrite IH. reflexivity.
Qed.

Lemma asks_refl s w : asks s [] w w.
Proof. exists []. rewrite app_nil_r. repeat split. constructor. Qed.

Lemma asks_trans s qs1 qs2 w1 w2 w3 :
  asks s qs1 w1 w2 -> asks s qs2 w2 w3 -> asks s (qs1 ++ qs2) w1 w3.
Proof.
  intros (d1 & Ht1 & Hq1 & Hs1) (d2 & Ht2 & Hq2 & Hs2).
  exists (d1 ++ d2). rewrite Ht2, Ht1, app_assoc, requests_app, Hq1, Hq2.
  repeat split. apply Forall_app. split; assumption.
Qed.

Lemma asks_step s q w : asks s [q] w (step env s q w).
Proof. exists [EvCall s q (serve env (trace w) s q)]. repeat split. repeat constructor. Qed.

Lemma asks_log s ev w :
  match ev with EvCall _ _ _ => False | _ => True end -> asks s [] w (log ev w).
Proof.
  intros Hev. exists [ev]. split; [reflexivity|].
  destruct ev; try (exfalso; exact Hev); repeat split; repeat constructor.
Qed.

Lemma asks_opened s conn w : asks s [] w (opened conn w).
Proof. exists [EvNewSession conn Done (next_sid w)]. repeat split. repeat constructor. Qed.

(** [Start] when there is no session to work on. *)
Lemma Start_not_opened command rs w :
  Start env command rs w =
    match client rs with
    | None => mkRes (Panicked nil_dereference) rs w
    | Some conn =>
        match dial env (trace w) conn with
        | Done => Start env command rs w
        | st => mkRes (outcome_of st) rs (log (EvNewSession conn st (next_sid w)) w)
        end
    end.
Proof.
  destruct rs as [c ty rq tc i o e].
  destruct c as [conn|]; cbn [client]; [|reflexivity].
  destruct (dial env (trace w) conn) eqn:Hd; [reflexivity| |];
    unfold Start, bind, this, NewSession; cbn; rewrite Hd; reflexivity.
Qed.

Lemma with_pty_asks rs conn w :
  asks (shell_session rs w)
       (if requestPty rs then [pty_request rs] else [])
       w (with_pty env rs conn w).
Proof.
  unfold with_pty. destruct (requestPty rs).
  - eapply (asks_trans _ [] [_]); [apply asks_opened | apply asks_step].
  - apply asks_opened.
Qed.

Lemma with_command_asks rs conn command w :
  asks (shell_session rs w)
       ((if requestPty rs then [pty_request rs] else [])
        ++ (if is_empty command then [] else [ReqRun command]))
       w (with_command env rs conn command w).
Proof.
  unfold with_command. destruct (is_empty command).
  - rewrite app_nil_r. apply with_pty_asks.
  - eapply asks_trans; [apply with_pty_asks | apply asks_step].
Qed.

Lemma shell_session_sid rs w : sid (shell_session rs w) = next_sid w.
Proof.
  unfold shell_session, setupStreams.
  destruct (stdin rs), (stdout rs), (stderr rs); reflexivity.
Qed.

Lemma proceeds_shell_step rs q w w0 :
  proceeds (Some (next_sid w)) (Some (next_sid w)) None None
           w0 (step env (shell_session rs w) q w0).
Proof.
  pose proof (proceeds_step env None (shell_session rs w) q w0) as H.
  rewrite shell_session_sid in H. exact H.
Qed.

Lemma with_pty_proceeds rs conn w :
  proceeds None (Some (next_sid w)) None None w (with_pty env rs conn w).
Proof.
  unfold with_pty. destruct (requestPty rs).
  - eapply proceeds_trans; [apply proceeds_opened|].
    apply proceeds_shell_step.
  - apply proceeds_opened.
Qed.

Lemma with_command_proceeds rs conn command w :
  proceeds None (Some (next_sid w)) None None w (with_command env rs conn command w).
Proof.
  unfold with_command. destruct (is_empty command).
  - apply with_pty_proceeds.
  - eapply proceeds_trans; [apply with_pty_proceeds|].
    apply proceeds_shell_step.
Qed.
End ShellFurther.

(** X7.  [Start] leaves the shell as it found it, and however it ends (it
    returns nil or an error, or it panics) the one session it opened is
    closed: no call is made before the session is open or after it is
    closed, and none is left open. *)
Theorem Start_releases_its_session (env : Env) (command : gostring)
        (rs : RemoteShell.remoteShell) (w : World) :
  self (RemoteShell.Start env command rs w) = rs /\
  tidy w (world (RemoteShell.Start env command rs w)).
Proof.
  rewrite Start_not_opened.
  destruct (RemoteShell.client rs) as [conn|] eqn:Hc;
    [|split; [reflexivity | apply proceeds_refl]].
  destruct (dial env (trace w) conn) eqn:Hd;
    try (split; [reflexivity | apply proceeds_dial_failed; discriminate]).
  rewrite (Start_opened env command rs w conn Hc Hd). cbv zeta.
  pose proof (with_pty_proceeds env rs conn w) as H2.
  pose proof (with_command_proceeds env rs conn command w) as H3.
  assert (Hclose : forall w', proceeds None (Some (next_sid w)) None None w w' ->
                              tidy w (log (EvClose (next_sid w)) w')).
  { intros w' H. eapply proceeds_trans; [exact H | apply proceeds_close]. }
  assert (Hstep : forall q w', proceeds None (Some (next_sid w)) None None w w' ->
            proceeds None (Some (next_sid w)) None None w
                     (step env (shell_session rs w) q w')).
  { intros q w' H. eapply proceeds_trans; [exact H|].
    apply proceeds_shell_step. }
  destruct (if RemoteShell.requestPty rs then _ else Done);
    try (split; [reflexivity | apply Hclose; exact H2]).
  destruct (if is_empty command then Done else _);
    try (split; [reflexivity | apply Hclose; exact H3]);
    destruct (answer env (shell_session rs w) ReqShell _);
    (split; [reflexivity | apply Hclose; repeat apply Hstep; exact H3]).
Qed.

(** X8.  [Start] asks one session only, whose streams are the caller's where
    set and those of the process otherwise, and it asks in a fixed order: the
    pseudo-terminal if the shell wants one (never otherwise), the initial
    command if it is not empty (never otherwise), the shell, the wait.  What
    it has asked when it ends is a beginning of that list, and the whole list
    when it returns nil. *)
Theorem Start_follows_its_plan (env : Env) (command : gostring)
        (rs : RemoteShell.remoteShell) (w : World) :
  shell_session rs w =
    mkSession (next_sid w)
              (Some (default os_Stdin (RemoteShell.stdin rs)))
              (Some (default os_Stdout (RemoteShell.stdout rs)))
              (Some (default os_Stderr (RemoteShell.stderr rs))) /\
  exists asked rest,
    asks (shell_session rs w) asked w (world (RemoteShell.Start env command rs w)) /\
    start_plan rs command = asked ++ rest /\
    (out (RemoteShell.Start env command rs w) = Returned None -> rest = []).
Proof.
  split.
  { unfold shell_session, RemoteShell.setupStreams.
    destruct (RemoteShell.stdin rs), (RemoteShell.stdout rs), (RemoteShell.stderr rs);
      reflexivity. }
  rewrite Start_not_opened.
  destruct (RemoteShell.client rs) as [conn|] eqn:Hc.
  2:{ exists [], (start_plan rs command). split; [apply asks_refl|].
      split; [reflexivity | discriminate]. }
  destruct (dial env (trace w) conn) eqn:Hd.
  2,3: exists [], (start_plan rs command);
       (split; [apply asks_log; exact I|]); (split; [reflexivity | discriminate]).
  rewrite (Start_opened env command rs w conn Hc Hd). cbv zeta.
  pose proof (with_pty_asks env rs conn w) as H2.
  pose proof (with_command_asks env rs conn command w) as H3.
  unfold start_plan.
  set (pty := if RemoteShell.requestPty rs then [pty_request rs] else []) in *.
  set (run := if is_empty command then [] else [ReqRun command]) in *.
  assert (Hclose : forall qs w', asks (shell_session rs w) qs w w' ->
            asks (shell_session rs w) qs w (log (EvClose (next_sid w)) w')).
  { intros qs w' H. rewrite <- (app_nil_r qs).
    eapply asks_trans; [exact H | apply asks_log; exact I]. }
  assert (Hstep : forall qs q w', asks (shell_session rs w) qs w w' ->
            asks (shell_session rs w) (qs ++ [q]) w (step env (shell_session rs w) q w')).
  { intros qs q w' H. eapply asks_trans; [exact H | apply asks_step]. }
  destruct (if RemoteShell.requestPty rs then _ else Done) eqn:Hp.
  - destruct (if is_empty command then Done else _) eqn:Hr.
    + destruct (answer env (shell_session rs w) ReqShell _) eqn:Hs.
      * exists (((pty ++ run) ++ [ReqShell]) ++ [ReqWait]), [].
        split; [cbn [world]; apply Hclose; repeat apply Hstep; exact H3|].
        split; [rewrite app_nil_r, <- !app_assoc; reflexivity | reflexivity].
      * exists ((pty ++ run) ++ [ReqShell]), [ReqWait].
        split; [cbn [world]; apply Hclose; apply Hstep; exact H3|].
        split; [rewrite <- !app_assoc; reflexivity | discriminate].
      * exists ((pty ++ run) ++ [ReqShell]), [ReqWait].
        split; [cbn [world]; apply Hclose; apply Hstep; exact H3|].
        split; [rewrite <- !app_assoc; reflexivity | discriminate].
    + destruct (answer env (shell_session rs w) ReqShell _) eqn:Hs.
      * exists (((pty ++ run) ++ [ReqShell]) ++ [ReqWait]), [].
        split; [cbn [world]; apply Hclose; repeat apply Hstep; exact H3|].
        split; [rewrite app_nil_r, <- !app_assoc; reflexivity | reflexivity].
      * exists ((pty ++ run) ++ [ReqShell]), [ReqWait].
        split; [cbn [world]; apply Hclose; apply Hstep; exact H3|].
        split; [rewrite <- !app_assoc; reflexivity | discriminate].
      * exists ((pty ++ run) ++ [ReqShell]), [ReqWait].
        split; [cbn [world]; apply Hclose; apply Hstep; exact H3|].
        split; [rewrite <- !app_assoc; reflexivity | discriminate].
    + exists (pty ++ run), [ReqShell; ReqWait].
      split; [cbn [world]; apply Hclose; exact H3|].
      split; [rewrite <- !app_assoc; reflexivity | discriminate].
  - exists pty, (run ++ [ReqShell; ReqWait]).
    split; [cbn [world]; apply Hclose; exact H2|].
    split; [reflexivity | discriminate].
  - exists pty, (run ++ [ReqShell; ReqWait]).
    split; [cbn [world]; apply Hclose; exact H2|].
    split; [reflexivity | discriminate].
Qed.

(** A plain shell without initial command asks for the shell and waits,
    nothing else; its streams are those of the process. *)
Example Start_plain_shell :
  let r := RemoteShell.Start sample_env [] (ShellFactories.QuickShell (Some 1%nat))
                             empty_world in
  out r = Returned None
  /\ trace (world r) =
       [EvNewSession 1%nat Done 0;
        EvCall (mkSession 0 (Some os_Stdin) (Some os_Stdout) (Some os_Stderr))
               ReqShell (mkReply [] Done);
        EvCall (mkSession 0 (Some os_Stdin) (Some os_Stdout) (Some os_Stderr))
               ReqWait (mkReply [] Done);
        EvClose 0].
Proof. vm_compute. split; reflexivity. Qed.

Section CustomTerminal.
Variable env : Env.

(** Once the session is open, the trace of [Start] goes on from the world in
    which the pseudo-terminal (if any) has been asked for. *)
Lemma Start_goes_through_pty command rs w conn :
  RemoteShell.client rs = Some conn ->
  dial env (trace w) conn = Done ->
  exists rest,
    trace (world (RemoteShell.Start env command rs w)) =
      trace (with_pty env rs conn w) ++ rest.
Proof.
  intros Hc Hd. rewrite (Start_opened env command rs w conn Hc Hd). cbv zeta.
  assert (H3 : exists rest, trace (with_command env rs conn command w) =
                            trace (with_pty env rs conn w) ++ rest).
  { unfold with_command. destruct (is_empty command).
    - exists []. rewrite app_nil_r. reflexivity.
    - eexists. rewrite step_trace. reflexivity. }
  destruct H3 as [rest3 H3].
  destruct (if RemoteShell.requestPty rs then _ else Done);
    try (cbn [world]; rewrite log_trace; eexists; reflexivity).
  destruct (if is_empty command then Done else _);
    try destruct (answer env (shell_session rs w) ReqShell _);
    cbn [world]; rewrite log_trace, ?step_trace, H3, <- ?app_assoc; eexists; reflexivity.
Qed.
End CustomTerminal.

(** X9.  A shell made by [ShellWithCustomTerminal term width height modes]
    asks for its pseudo-terminal first thing after its session is open, on
    the streams of the process, and hands the transport the terminal type,
    then the height, then the width, then the modes. *)
Theorem custom_terminal_is_requested (env : Env) (c : Client.client) (conn : ssh_Client)
        (term : gostring) (width height : Z) (modes : TerminalModes)
        (command : gostring) (w : World) :
  Client.sshClient c = Some conn ->
  dial env (trace w) conn = Done ->
  let rs := ShellFactories.ShellWithCustomTerminal c term width height modes in
  let session := mkSession (next_sid w) (Some os_Stdin) (Some os_Stdout) (Some os_Stderr) in
  let request := ReqRequestPty term height width modes in
  exists rest,
    trace (world (RemoteShell.Start env command rs w)) =
      trace w ++ [EvNewSession conn Done (next_sid w);
                  EvCall session request
                         (serve env (trace w ++ [EvNewSession conn Done (next_sid w)])
                                session request)]
              ++ rest.
Proof.
  intros Hc Hd rs session request.
  destruct (Start_goes_through_pty env command rs w conn Hc Hd) as [rest Hrest].
  exists rest. rewrite Hrest. unfold with_pty. cbn [RemoteShell.requestPty rs
    ShellFactories.ShellWithCustomTerminal].
  rewrite step_trace. unfold opened. cbn [trace]. rewrite <- !app_assoc. reflexivity.
Qed.

Lemma custom_terminal_is_requested_witness :
  exists rest,
    trace (world (RemoteShell.Start sample_env []
                    (ShellFactories.ShellWithCustomTerminal sample_client
                       (lit "xterm-256color") 120 40 [(53, 1)])
                    empty_world)) =
      [EvNewSession 1%nat Done 0;
       EvCall (mkSession 0 (Some os_Stdin) (Some os_Stdout) (Some os_Stderr))
              (ReqRequestPty (lit "xterm-256color") 40 120 [(53, 1)])
              (mkReply [] Done)] ++ rest.
Proof.
  exact (custom_terminal_is_requested sample_env sample_client 1%nat
           (lit "xterm-256color") 120 40 [(53, 1)] [] empty_world eq_refl eq_refl).
Defined.

(** ** Command lines: what is sent *)

Section Lines.

Lemma commands_of_sendable (body : gostring) : Forall sendable (commands_of body).
Proof.
  unfold commands_of. pose proof (Split_pieces body newline) as HS.
  induction HS as [|piece pieces Hp _ IH]; simpl; [constructor|].
  destruct (TrimSpace piece) as [|r t] eqn:E; simpl; [exact IH|].
  constructor; [|exact IH]. rewrite <- E. repeat split.
  - rewrite E. discriminate.
  - apply TrimSpace_clean_start.
  - apply TrimSpace_clean_end.
  - intros Hin. apply Hp. exact (TrimSpace_In _ _ Hin).
Qed.

Lemma Forall_firstn {A} (P : A -> Prop) (k : nat) (l : list A) :
  Forall P l -> Forall P (firstn k l).
Proof.
  revert l. induction k as [|k IH]; intros [|a l] H; simpl; try constructor.
  - inversion H; assumption.
  - apply IH. inversion H; assumption.
Qed.
End Lines.

Section Chains.
Variable env : Env.
Import RemoteScript.

Lemma perform_Cmd cmd rs w :
  perform env (OpCmd cmd) rs w =
    mkRes (Returned None) (self (Cmd cmd rs w)) (world (Cmd cmd rs w)).
Proof.
  unfold perform, fmap, bind, ret.
  pose proof (Cmd_returns_receiver cmd rs w) as H.
  destruct (Cmd cmd rs w) as [o s v]. simpl in H. rewrite H. reflexivity.
Qed.

Lemma Cmd_keeps cmd rs w :
  client (self (Cmd cmd rs w)) = client rs /\
  stdout (self (Cmd cmd rs w)) = stdout rs /\
  stderr (self (Cmd cmd rs w)) = stderr rs /\
  scriptFile (self (Cmd cmd rs w)) = scriptFile rs.
Proof.
  unfold Cmd, bind, this, set_script, set_err. simpl.
  destruct (scriptType rs =? CommandLine); [destruct (is_empty (script rs))|];
    repeat split; reflexivity.
Qed.

Lemma Cmd_commands cmd rs w :
  scriptType rs = CommandLine ->
  commands_of (script (self (Cmd cmd rs w))) = commands_of (script rs) ++ commands_of cmd.
Proof.
  intros Ht. rewrite (Cmd_CommandLine cmd rs w Ht).
  destruct (script rs) as [|r s] eqn:E; simpl is_empty; cbv iota.
  - reflexivity.
  - apply commands_of_app.
Qed.

(** A chain of [Cmd] calls on a [CommandLine] executor. *)
Lemma Cmd_chain cmds : forall rs w,
  scriptType rs = CommandLine ->
  let rs' := snd (fst (perform_all env (map OpCmd cmds) rs w)) in
  commands_of (script rs') = commands_of (script rs) ++ concat (map commands_of cmds) /\
  scriptType rs' = CommandLine /\ err rs' = err rs /\
  client rs' = client rs /\ stdout rs' = stdout rs /\ stderr rs' = stderr rs.
Proof.
  induction cmds as [|cmd cmds IH]; intros rs w Ht; cbn [map perform_all concat].
  - cbn [fst snd]. rewrite app_nil_r. repeat split; try reflexivity. exact Ht.
  - rewrite perform_Cmd. cbn [self world out].
    assert (Ht' : scriptType (self (Cmd cmd rs w)) = CommandLine)
      by (rewrite Cmd_scriptType; exact Ht).
    specialize (IH (self (Cmd cmd rs w)) (world (Cmd cmd rs w)) Ht').
    destruct (perform_all env (map OpCmd cmds) (self (Cmd cmd rs w)) (world (Cmd cmd rs w)))
      as [[os rs'] w'].
    cbn [fst snd] in *.
    destruct IH as (Hc & Hty & He & Hcl & Ho & Hr).
    destruct (Cmd_keeps cmd rs w) as (Kc & Ko & Kr & _).
    rewrite Hc, (Cmd_commands cmd rs w Ht), <- app_assoc.
    repeat split; try assumption; try congruence.
    rewrite He, Cmd_err, Ht. reflexivity.
Qed.
End Chains.

(** X10.  Commands appended with [Cmd] to a [CommandLine] executor are run
    after those it already has, in the order of the calls: the command lines
    of the script after the chain are those of the script before, followed by
    those of each appended string in turn (an appended string of several lines
    gives several commands, a blank one gives none); the chain changes neither
    the sinks, nor the connection, nor the deferred error, and a [Run] that
    follows runs exactly that sequence, line by line. *)
Theorem Cmd_chain_runs_in_order (env : Env) (rs : RemoteScript.remoteScript)
        (cmds : list gostring) (w : World) :
  RemoteScript.scriptType rs = CommandLine ->
  let chained := perform_all env (map OpCmd cmds) rs w in
  let rs' := snd (fst chained) in
  let w' := snd chained in
  let lines := commands_of (RemoteScript.script rs) ++ concat (map commands_of cmds) in
  commands_of (RemoteScript.script rs') = lines /\
  RemoteScript.err rs' = RemoteScript.err rs /\
  RemoteScript.stdout rs' = RemoteScript.stdout rs /\
  RemoteScript.stderr rs' = RemoteScript.stderr rs /\
  (RemoteScript.err rs = None ->
   runs_lines env (RemoteScript.client rs) (RemoteScript.stdout rs) (RemoteScript.stderr rs)
              lines w'
              (out (RemoteScript.Run env rs' w')) (world (RemoteScript.Run env rs' w'))).
Proof.
  intros Ht chained rs' w' lines.
  destruct (Cmd_chain env cmds rs w Ht) as (Hc & Hty & He & Hcl & Ho & Hr).
  fold chained in Hc, Hty, He, Hcl, Ho, Hr. fold rs' in Hc, Hty, He, Hcl, Ho, Hr.
  repeat split; try assumption.
  intros Hn. rewrite (Run_CommandLine env rs' w' Hty (eq_trans He Hn)).
  destruct (runCommands_loop_runs_lines env (Split (RemoteScript.script rs') newline) rs' w')
    as [_ Hrun].
  rewrite Hcl, Ho, Hr in Hrun. unfold lines. rewrite <- Hc. exact Hrun.
Qed.

Lemma Cmd_chain_runs_in_order_witness :
  commands_of
    (RemoteScript.script
       (snd (fst (perform_all sample_env
                    (map OpCmd [lit "make"; lit "  "; newline :: lit "make test" ++ lit "
make install"])
                    (Client.Command sample_client (lit "cd /src")) empty_world))))
  = [lit "cd /src"] ++ concat [[lit "make"]; []; [lit "make test"; lit "make install"]].
Proof.
  apply (Cmd_chain_runs_in_order sample_env (Client.Command sample_client (lit "cd /src"))
           [lit "make"; lit "  "; newline :: lit "make test" ++ lit "
make install"] empty_world eq_refl).
Defined.

(** X11.  Whatever the script of a [CommandLine] executor holds, each command
    that [Run] hands to the transport is a non-empty string on one line that
    neither begins nor ends with white space. *)
Theorem Run_sends_trimmed_lines (env : Env) (rs : RemoteScript.remoteScript) (w : World) :
  RemoteScript.scriptType rs = CommandLine ->
  exists delta,
    trace (world (RemoteScript.Run env rs w)) = trace w ++ delta /\
    Forall sendable (commands_run delta).
Proof.
  intros Ht. destruct (RemoteScript.err rs) as [e|] eqn:He.
  - rewrite (Run_deferred env rs w e He). exists [EvPrintln e].
    split; [apply log_trace|constructor].
  - rewrite (Run_CommandLine env rs w Ht He).
    destruct (runCommands_loop_runs_lines env (Split (RemoteScript.script rs) newline) rs w)
      as [_ Hrun].
    destruct (runs_lines_prefix env _ _ _ _ _ _ _ Hrun) as (delta & k & Hd & Hk & _).
    exists delta. split; [exact Hd|]. rewrite Hk.
    apply Forall_firstn. apply (commands_of_sendable (RemoteScript.script rs)).
Qed.

Lemma Run_sends_trimmed_lines_witness :
  let r := RemoteScript.Run sample_env (Client.Command sample_client three_lines)
                            empty_world in
  commands_run (trace (world r)) = [lit "ok"; lit "fail"] /\
  Forall sendable [lit "ok"; lit "fail"] /\
  ~ sendable (lit "  fail ") /\ ~ sendable (lit "fail ").
Proof.
  intros r.
  assert (E : commands_run (trace (world r)) = [lit "ok"; lit "fail"])
    by (vm_compute; reflexivity).
  split; [exact E|]. split; [|split].
  - rewrite <- E.
    destruct (Run_sends_trimmed_lines sample_env (Client.Command sample_client three_lines)
                empty_world eq_refl) as (delta & Hd & HF).
    fold r in Hd. change (trace empty_world ++ delta) with delta in Hd.
    rewrite Hd. exact HF.
  - intros (_ & H & _). discriminate H.
  - intros (_ & _ & H & _). discriminate H.
Defined.

(** ** The command line: user and address of a host *)

Section Hosts.
Import CLI.

Lemma Contains_rune (s : gostring) (r : rune) :
  Contains s [r] = true <-> In r s.
Proof.
  induction s as [|c s IH].
  - simpl. split; [discriminate|intros []].
  - assert (U : Contains (c :: s) [r] = HasPrefix (c :: s) [r] || Contains s [r])
      by reflexivity.
    assert (E : HasPrefix (c :: s) [r] = (c =? r))
      by (simpl; destruct s; apply andb_true_r).
    rewrite U, E, orb_true_iff, IH, Z.eqb_eq. simpl. tauto.
Qed.

Lemma Split_first (user rest : gostring) (sep : rune) :
  ~ In sep user ->
  Split (user ++ sep :: rest) sep = user :: Split rest sep.
Proof. intros Hn. rewrite Split_app, (Split_no_sep user sep Hn). reflexivity. Qed.

Lemma extract_at (user addr : gostring) (more : list gostring) (host : gostring) :
  Split host at_sign = user :: addr :: more ->
  extractUser host = user /\ extractHostAddr host = addr.
Proof.
  intros HS. unfold extractUser, extractHostAddr. rewrite HS. simpl.
  split; [reflexivity|]. destruct (Contains host [at_sign]) eqn:E; [reflexivity|].
  exfalso. assert (Hn : ~ In at_sign host).
  { intros Hin. apply Contains_rune in Hin. congruence. }
  rewrite (Split_no_sep host at_sign Hn) in HS. discriminate.
Qed.
End Hosts.

(** X12.  A host given as [user@address] is taken apart into the user and the
    address; whatever follows a second [@] is dropped from the address.  A
    host with no [@] is an address as it stands, for the user [root]. *)
Theorem host_is_user_at_address (user addr : gostring) :
  ~ In CLI.at_sign user ->
  ~ In CLI.at_sign addr ->
  (CLI.extractUser (user ++ CLI.at_sign :: addr) = user /\
   CLI.extractHostAddr (user ++ CLI.at_sign :: addr) = addr) /\
  (forall tail,
      CLI.extractUser (user ++ CLI.at_sign :: addr ++ CLI.at_sign :: tail) = user /\
      CLI.extractHostAddr (user ++ CLI.at_sign :: addr ++ CLI.at_sign :: tail) = addr) /\
  (CLI.extractUser addr = lit "root" /\ CLI.extractHostAddr addr = addr).
Proof.
  intros Hu Ha. split; [|split].
  - apply (extract_at user addr []).
    rewrite (Split_first user addr _ Hu), (Split_no_sep addr _ Ha). reflexivity.
  - intros tail. pose proof (Split_nonempty tail CLI.at_sign) as Hn.
    destruct (Split tail CLI.at_sign) as [|t ts] eqn:E; [contradiction|].
    apply (extract_at user addr (t :: ts)).
    rewrite (Split_first user _ _ Hu), (Split_first addr _ _ Ha), E. reflexivity.
  - unfold CLI.extractUser, CLI.extractHostAddr.
    rewrite (Split_no_sep addr _ Ha). simpl.
    destruct (Contains addr [CLI.at_sign]); split; reflexivity.
Qed.

Lemma host_is_user_at_address_witness :
  (CLI.extractUser (lit "deploy@10.0.0.7:22") = lit "deploy" /\
   CLI.extractHostAddr (lit "deploy@10.0.0.7:22") = lit "10.0.0.7:22") /\
  (forall tail,
      CLI.extractUser (lit "deploy" ++ CLI.at_sign :: lit "10.0.0.7:22" ++ CLI.at_sign :: tail)
        = lit "deploy" /\
      CLI.extractHostAddr (lit "deploy" ++ CLI.at_sign :: lit "10.0.0.7:22" ++ CLI.at_sign :: tail)
        = lit "10.0.0.7:22") /\
  (CLI.extractUser (lit "10.0.0.7:22") = lit "root" /\
   CLI.extractHostAddr (lit "10.0.0.7:22") = lit "10.0.0.7:22").
Proof.
  apply (host_is_user_at_address (lit "deploy") (lit "10.0.0.7:22")).
  - vm_compute. intuition discriminate.
  - vm_compute. intuition discriminate.
Defined.

(** ** File transfer *)

Section FileOperations.
Variable b : Sftp.Backend.
Import Sftp RemoteFileSystem.

Lemma operate_deferred op rfs e t :
  err rfs = Some e ->
  operate b op rfs t = (Returned (NoValue, Some e), t).
Proof.
  intros He.
  destruct op; unfold operate, no_data, with_data, ReadFile, WriteFile, Upload, Download,
    Mkdir, MkdirAll, Remove, RemoveDirectory, Stat, Lstat, ReadDir, Chmod, Chown, Rename,
    Close, and_then, pure; rewrite He; reflexivity.
Qed.

Lemma length_snoc {A} (l : list A) (a : A) : length (l ++ [a]) = S (length l).
Proof. rewrite length_app. simpl. apply Nat.add_1_r. Qed.

Lemma FileSystem_cases opts c t :
  Connection.FileSystem b opts c t =
    match Connection.sftpClient c, Connection.sshClient c with
    | Some s, _ =>
        (Returned (mk (Connection.sshClient c) (Some s) (Connection.configure opts) None, c),
         t)
    | None, None =>
        (Returned (mk None None (Connection.configure opts)
                      (Some Connection.ssh_client_is_nil), c), t)
    | None, Some conn =>
        let a := b t (SftpNewClient conn) in
        (match result a with
         | Done => Returned (mk (Some conn) (Some (length t)) (Connection.configure opts) None,
                             Connection.mk (Some conn) (Some (length t))
                                           (Connection.config c) (Connection.status c))
         | Failed msg => Returned (mk (Some conn) None (Connection.configure opts)
                                      (Some (foreign msg)), c)
         | Aborted msg => Panicked msg
         end, t ++ [Did (SftpNewClient conn) a])
    end.
Proof.
  unfold Connection.FileSystem.
  destruct (Connection.sftpClient c) as [s|] eqn:Es; [reflexivity|].
  destruct (Connection.sshClient c) as [conn|] eqn:Ec; [|reflexivity].
  cbv beta iota delta [and_then make ask pure error_of].
  destruct (b t (SftpNewClient conn)) as [v []]; reflexivity.
Qed.
End FileOperations.

(** X13.  A file system that [FileSystem] hands out with an error (the client
    has no connection, or the SFTP client could not be made on it) is of no
    use: each of its operations returns that same error with no data and
    calls nothing, neither the server nor the local disk.  The client itself
    is left without an SFTP client. *)
Theorem failed_FileSystem_fails_every_operation
        (b : Sftp.Backend) (opts : list Sftp.SftpOption) (c c' : Connection.client)
        (t t' : list Sftp.Step) (fs : RemoteFileSystem.remoteFileSystem) (e : error) :
  Connection.FileSystem b opts c t = (Returned (fs, c'), t') ->
  RemoteFileSystem.err fs = Some e ->
  c' = c /\ Connection.sftpClient c = None /\
  (Connection.sshClient c = None /\ e = Connection.ssh_client_is_nil /\ t' = t
   \/ exists conn msg,
        Connection.sshClient c = Some conn /\
        Sftp.result (b t (Sftp.SftpNewClient conn)) = Failed msg /\
        e = foreign msg /\
        t' = t ++ [Sftp.Did (Sftp.SftpNewClient conn) (b t (Sftp.SftpNewClient conn))]) /\
  forall op t2, operate b op fs t2 = (Returned (Sftp.NoValue, Some e), t2).
Proof.
  intros Hfs He. rewrite FileSystem_cases in Hfs.
  assert (Hall : forall op t2, operate b op fs t2 = (Returned (Sftp.NoValue, Some e), t2))
    by (intros op t2; apply operate_deferred; exact He).
  destruct (Connection.sftpClient c) as [s|] eqn:Es.
  { inversion Hfs; subst. discriminate He. }
  destruct (Connection.sshClient c) as [conn|] eqn:Ec.
  - cbv zeta in Hfs.
    destruct (Sftp.result (b t (Sftp.SftpNewClient conn))) as [|msg|msg] eqn:Er;
      inversion Hfs; subst; try discriminate He.
    simpl in He. inversion He; subst.
    repeat split; try assumption. right. exists conn, msg. repeat split; assumption.
  - inversion Hfs; subst. simpl in He. inversion He; subst.
    repeat split; try assumption. left. repeat split.
Qed.

Lemma failed_FileSystem_fails_every_operation_witness :
  operate no_sftp_backend (FsUpload (lit "notes.txt") (lit "/tmp/notes.txt"))
          (RemoteFileSystem.mk (Some 1%nat) None (Connection.configure Sftp.FastSftpOptions)
                               (Some (foreign (lit "subsystem request failed"))))
          []
  = (Returned (Sftp.NoValue, Some (foreign (lit "subsystem request failed"))), []).
Proof.
  apply (failed_FileSystem_fails_every_operation no_sftp_backend Sftp.FastSftpOptions
           sample_connection sample_connection [] _ _ _ eq_refl eq_refl).
Defined.

(** X14.  Whatever a file system is asked to do and however the server and
    the disk answer, the operation closes every file it has opened before it
    ends, by a return or by a panic, the last opened first; it reads, writes
    and copies open files only, and closes nothing else. *)
Theorem operations_close_their_files (b : Sftp.Backend) (op : FsOp)
        (rfs : RemoteFileSystem.remoteFileSystem) (t : list Sftp.Step) :
  exists delta,
    snd (operate b op rfs t) = t ++ delta /\
    handles (length t) [] delta = Some [].
Proof.
  destruct rfs as [c s cfg [e|]].
  { rewrite (operate_deferred b op (RemoteFileSystem.mk c s cfg (Some e)) e t eq_refl).
    exists []. rewrite app_nil_r. split; reflexivity. }
  destruct op; destruct s as [s|];
    cbv beta iota delta [operate no_data with_data
      RemoteFileSystem.ReadFile RemoteFileSystem.WriteFile RemoteFileSystem.Upload
      RemoteFileSystem.Download RemoteFileSystem.Mkdir RemoteFileSystem.MkdirAll
      RemoteFileSystem.Remove RemoteFileSystem.RemoveDirectory RemoteFileSystem.Stat
      RemoteFileSystem.Lstat RemoteFileSystem.ReadDir RemoteFileSystem.Chmod
      RemoteFileSystem.Chown RemoteFileSystem.Rename RemoteFileSystem.Close
      RemoteFileSystem.forward Sftp.on_client Sftp.and_then Sftp.deferred Sftp.make
      Sftp.close Sftp.ask Sftp.pure Sftp.crash Sftp.error_of
      RemoteFileSystem.err RemoteFileSystem.sftp];
    repeat (match goal with
            | |- context [b ?t ?c] => destruct (b t c) as [? []]
            end; cbn [Sftp.result Sftp.value fst snd]);
    rewrite ?length_snoc; rewrite <- ?app_assoc; cbn [app];
    first [ exists []; split; [symmetry; apply app_nil_r | reflexivity]
          | (eexists; split; [reflexivity|]);
            cbn [handles Sftp.result is_open existsb]; rewrite ?Nat.eqb_refl; cbn [orb andb];
            rewrite ?orb_true_r; reflexivity ].
Qed.

(** Upload of a file that is not there, on a file system with no SFTP client
    at all: the error of the disk, and no panic. *)
Example Upload_of_a_missing_file :
  let disk : Sftp.Backend :=
    fun _ c => match c with
               | Sftp.OsOpen _ => Sftp.mkAnswer Sftp.NoValue (Failed (lit "no such file"))
               | _ => Sftp.mkAnswer Sftp.NoValue Done
               end in
  RemoteFileSystem.Upload disk
    (RemoteFileSystem.mk None None (Sftp.mkSftpConfig 0 false) None)
    (lit "/nonexistent/file.txt") (lit "/remote/test.txt") []
  = (Returned (Some (foreign (lit "no such file"))),
     [Sftp.Did (Sftp.OsOpen (lit "/nonexistent/file.txt"))
               (Sftp.mkAnswer Sftp.NoValue (Failed (lit "no such file")))]).
Proof. reflexivity. Qed.

(** ** Uploads and downloads *)

(** X15.  [Upload] on a usable file system opens the local file, then the
    remote one (created, or emptied if it is there), copies, and closes the
    remote file and then the local one.  When the local file cannot be opened
    the server is not called at all; when the remote file cannot be opened the
    local one is closed again; either error is returned as it is.  After the
    copy both files are closed whatever the copy gave, what [Upload] returns
    is the error of the copy, and what closing returns is dropped. *)
Theorem Upload_copies_then_closes (b : Sftp.Backend)
        (rfs : RemoteFileSystem.remoteFileSystem) (s : Sftp.sftp_Client)
        (localPath remotePath : gostring) (t : list Sftp.Step) :
  RemoteFileSystem.err rfs = None ->
  RemoteFileSystem.sftp rfs = Some s ->
  let localFile := length t in
  let remoteFile := S (length t) in
  let open_local := Sftp.OsOpen localPath in
  let open_remote :=
    Sftp.SftpOpenFile s remotePath (Z.lor (Z.lor Sftp.O_CREATE Sftp.O_WRONLY) Sftp.O_TRUNC) in
  let copy := Sftp.IoCopy remoteFile localFile in
  let a1 := b t open_local in
  let t1 := t ++ [Sftp.Did open_local a1] in
  let a2 := b t1 open_remote in
  let t2 := t1 ++ [Sftp.Did open_remote a2] in
  let a3 := b t2 copy in
  let t3 := t2 ++ [Sftp.Did copy a3] in
  let a4 := b t3 (Sftp.FileClose remoteFile) in
  let t4 := t3 ++ [Sftp.Did (Sftp.FileClose remoteFile) a4] in
  let a5 := b t4 (Sftp.FileClose localFile) in
  let a5' := b t2 (Sftp.FileClose localFile) in
  let r := RemoteFileSystem.Upload b rfs localPath remotePath t in
  (forall msg, Sftp.result a1 = Failed msg -> r = (Returned (Some (foreign msg)), t1)) /\
  (Sftp.result a1 = Done -> forall msg, Sftp.result a2 = Failed msg ->
   snd r = t2 ++ [Sftp.Did (Sftp.FileClose localFile) a5'] /\
   (came_back a5' -> fst r = Returned (Some (foreign msg)))) /\
  (Sftp.result a1 = Done -> Sftp.result a2 = Done ->
   snd r = t4 ++ [Sftp.Did (Sftp.FileClose localFile) a5] /\
   (came_back a4 -> came_back a5 -> fst r = error_result a3)).
Proof.
  destruct rfs as [c s0 cfg e0]. cbn [RemoteFileSystem.err RemoteFileSystem.sftp].
  intros -> ->. cbv zeta.
  cbv beta iota delta [RemoteFileSystem.Upload Sftp.on_client Sftp.and_then Sftp.deferred
    Sftp.make Sftp.close Sftp.ask Sftp.pure Sftp.crash Sftp.error_of
    RemoteFileSystem.err RemoteFileSystem.sftp came_back error_result].
  destruct (b t (Sftp.OsOpen localPath)) as [v1 r1]. cbn [Sftp.result].
  split; [|split].
  - intros msg ->. reflexivity.
  - intros -> msg. cbn [Sftp.result Sftp.value fst snd]. rewrite ?length_snoc.
    match goal with |- context [b ?u (Sftp.SftpOpenFile ?x ?y ?z)] =>
      destruct (b u (Sftp.SftpOpenFile x y z)) as [v2 r2] end.
    cbn [Sftp.result]. intros ->. cbn [Sftp.result Sftp.value fst snd]. rewrite ?length_snoc.
    match goal with |- context [b ?u (Sftp.FileClose ?f)] =>
      destruct (b u (Sftp.FileClose f)) as [v5 [| |]] end;
      cbn [Sftp.result fst snd]; (split; [reflexivity|]); intros []; reflexivity.
  - intros ->. cbn [Sftp.result Sftp.value fst snd]. rewrite ?length_snoc.
    match goal with |- context [b ?u (Sftp.SftpOpenFile ?x ?y ?z)] =>
      destruct (b u (Sftp.SftpOpenFile x y z)) as [v2 r2] end.
    cbn [Sftp.result]. intros ->. cbn [Sftp.result Sftp.value fst snd]. rewrite ?length_snoc.
    match goal with |- context [b ?u (Sftp.IoCopy ?x ?y)] =>
      destruct (b u (Sftp.IoCopy x y)) as [v3 [| |]] end;
      cbn [Sftp.result fst snd];
      (match goal with |- context [b ?u (Sftp.FileClose (S ?f))] =>
         destruct (b u (Sftp.FileClose (S f))) as [v4 [| |]] end);
      cbn [Sftp.result fst snd];
      (match goal with |- context [b ?u (Sftp.FileClose (length ?f))] =>
         destruct (b u (Sftp.FileClose (length f))) as [v5 [| |]] end);
      cbn [Sftp.result fst snd]; (split; [reflexivity|]);
      intros H4 H5; try contradiction; reflexivity.
Qed.

Lemma Upload_copies_then_closes_witness :
  let rfs := RemoteFileSystem.mk (Some 1%nat) (Some 0%nat) (Sftp.mkSftpConfig 0 false) None in
  let done := Sftp.mkAnswer Sftp.NoValue Done in
  snd (RemoteFileSystem.Upload sample_backend rfs (lit "notes.txt") (lit "/tmp/notes.txt")
         [Sftp.Did (Sftp.SftpNewClient 1%nat) done])
  = [Sftp.Did (Sftp.SftpNewClient 1%nat) done;
     Sftp.Did (Sftp.OsOpen (lit "notes.txt")) done;
     Sftp.Did (Sftp.SftpOpenFile 0%nat (lit "/tmp/notes.txt") 577) done;
     Sftp.Did (Sftp.IoCopy 2%nat 1%nat) done;
     Sftp.Did (Sftp.FileClose 2%nat) done;
     Sftp.Did (Sftp.FileClose 1%nat) done].
Proof.
  exact (proj1 (proj2 (proj2
           (Upload_copies_then_closes sample_backend
              (RemoteFileSystem.mk (Some 1%nat) (Some 0%nat) (Sftp.mkSftpConfig 0 false) None)
              0%nat (lit "notes.txt") (lit "/tmp/notes.txt")
              [Sftp.Did (Sftp.SftpNewClient 1%nat) (Sftp.mkAnswer Sftp.NoValue Done)]
              eq_refl eq_refl)) eq_refl eq_refl)).
Defined.

(** X16.  [Download] on a usable file system opens the remote file first, and
    only then the local one (created with mode 0644, or emptied if it is
    there); it copies, and closes the local file and then the remote one.
    When the remote file cannot be opened the local disk is not touched; when
    the local file cannot be opened the remote one is closed again; either
    error is returned as it is.  After the copy both files are closed whatever
    the copy gave, what [Download] returns is the error of the copy, and what
    closing returns is dropped. *)
Theorem Download_copies_then_closes (b : Sftp.Backend)
        (rfs : RemoteFileSystem.remoteFileSystem) (s : Sftp.sftp_Client)
        (remotePath localPath : gostring) (t : list Sftp.Step) :
  RemoteFileSystem.err rfs = None ->
  RemoteFileSystem.sftp rfs = Some s ->
  let remoteFile := length t in
  let localFile := S (length t) in
  let open_remote := Sftp.SftpOpen s remotePath in
  let open_local :=
    Sftp.OsOpenFile localPath (Z.lor (Z.lor Sftp.O_CREATE Sftp.O_WRONLY) Sftp.O_TRUNC) 420 in
  let copy := Sftp.IoCopy localFile remoteFile in
  let a1 := b t open_remote in
  let t1 := t ++ [Sftp.Did open_remote a1] in
  let a2 := b t1 open_local in
  let t2 := t1 ++ [Sftp.Did open_local a2] in
  let a3 := b t2 copy in
  let t3 := t2 ++ [Sftp.Did copy a3] in
  let a4 := b t3 (Sftp.FileClose localFile) in
  let t4 := t3 ++ [Sftp.Did (Sftp.FileClose localFile) a4] in
  let a5 := b t4 (Sftp.FileClose remoteFile) in
  let a5' := b t2 (Sftp.FileClose remoteFile) in
  let r := RemoteFileSystem.Download b rfs remotePath localPath t in
  (forall msg, Sftp.result a1 = Failed msg -> r = (Returned (Some (foreign msg)), t1)) /\
  (Sftp.result a1 = Done -> forall msg, Sftp.result a2 = Failed msg ->
   snd r = t2 ++ [Sftp.Did (Sftp.FileClose remoteFile) a5'] /\
   (came_back a5' -> fst r = Returned (Some (foreign msg)))) /\
  (Sftp.result a1 = Done -> Sftp.result a2 = Done ->
   snd r = t4 ++ [Sftp.Did (Sftp.FileClose remoteFile) a5] /\
   (came_back a4 -> came_back a5 -> fst r = error_result a3)).
Proof.
  destruct rfs as [c s0 cfg e0]. cbn [RemoteFileSystem.err RemoteFileSystem.sftp].
  intros -> ->. cbv zeta.
  cbv beta iota delta [RemoteFileSystem.Download Sftp.on_client Sftp.and_then Sftp.deferred
    Sftp.make Sftp.close Sftp.ask Sftp.pure Sftp.crash Sftp.error_of
    RemoteFileSystem.err RemoteFileSystem.sftp came_back error_result].
  destruct (b t (Sftp.SftpOpen s remotePath)) as [v1 r1]. cbn [Sftp.result].
  split; [|split].
  - intros msg ->. reflexivity.
  - intros -> msg. cbn [Sftp.result Sftp.value fst snd]. rewrite ?length_snoc.
    match goal with |- context [b ?u (Sftp.OsOpenFile ?x ?y ?z)] =>
      destruct (b u (Sftp.OsOpenFile x y z)) as [v2 r2] end.
    cbn [Sftp.result]. intros ->. cbn [Sftp.result Sftp.value fst snd]. rewrite ?length_snoc.
    match goal with |- context [b ?u (Sftp.FileClose ?f)] =>
      destruct (b u (Sftp.FileClose f)) as [v5 [| |]] end;
      cbn [Sftp.result fst snd]; (split; [reflexivity|]); intros []; reflexivity.
  - intros ->. cbn [Sftp.result Sftp.value fst snd]. rewrite ?length_snoc.
    match goal with |- context [b ?u (Sftp.OsOpenFile ?x ?y ?z)] =>
      destruct (b u (Sftp.OsOpenFile x y z)) as [v2 r2] end.
    cbn [Sftp.result]. intros ->. cbn [Sftp.result Sftp.value fst snd]. rewrite ?length_snoc.
    match goal with |- context [b ?u (Sftp.IoCopy ?x ?y)] =>
      destruct (b u (Sftp.IoCopy x y)) as [v3 [| |]] end;
      cbn [Sftp.result fst snd];
      (match goal with |- context [b ?u (Sftp.FileClose (S ?f))] =>
         destruct (b u (Sftp.FileClose (S f))) as [v4 [| |]] end);
      cbn [Sftp.result fst snd];
      (match goal with |- context [b ?u (Sftp.FileClose (length ?f))] =>
         destruct (b u (Sftp.FileClose (length f))) as [v5 [| |]] end);
      cbn [Sftp.result fst snd]; (split; [reflexivity|]);
      intros H4 H5; try contradiction; reflexivity.
Qed.

Lemma Download_copies_then_closes_witness :
  RemoteFileSystem.Download sample_backend
    (RemoteFileSystem.mk (Some 1%nat) (Some 0%nat) (Sftp.mkSftpConfig 0 false) None)
    (lit "/missing") (lit "copy.txt") []
  = (Returned (Some (foreign (lit "file does not exist"))),
     [Sftp.Did (Sftp.SftpOpen 0%nat (lit "/missing"))
               (Sftp.mkAnswer Sftp.NoValue (Failed (lit "file does not exist")))]).
Proof.
  exact (proj1 (Download_copies_then_closes sample_backend
                  (RemoteFileSystem.mk (Some 1%nat) (Some 0%nat) (Sftp.mkSftpConfig 0 false) None)
                  0%nat (lit "/missing") (lit "copy.txt") [] eq_refl eq_refl)
               (lit "file does not exist") eq_refl).
Defined.

(** ** The client and its SFTP client *)

Section Connections.
Variable b : Sftp.Backend.
Import Sftp.

Lemma clients_made_app evs1 evs2 :
  clients_made (evs1 ++ evs2) = (clients_made evs1 + clients_made evs2)%nat.
Proof.
  induction evs1 as [|[c a] evs1 IH]; simpl; [reflexivity|].
  destruct c; try exact IH. rewrite IH. apply Nat.add_assoc.
Qed.

(** [Close] makes no SFTP client and keeps the one the client has. *)
Lemma Close_keeps_sftp c t :
  exists done,
    snd (Connection.Close b c t) = t ++ done /\
    clients_made done = 0%nat /\
    forall e c', fst (Connection.Close b c t) = Returned (e, c') ->
                 Connection.sftpClient c' = Connection.sftpClient c.
Proof.
  destruct c as [ssh sftp cfg st].
  cbv beta iota delta [Connection.Close and_then ask pure error_of
    Connection.status Connection.sftpClient Connection.sshClient Connection.config].
  destruct (same st Connection.StatusDisconnected).
  { exists []. rewrite app_nil_r. repeat split. intros e c' H. inversion H. reflexivity. }
  destruct sftp as [s|], ssh as [conn|];
    repeat (match goal with
            | |- context [b ?t ?c] => destruct (b t c) as [? []]
            end; cbn [result value fst snd]);
    rewrite <- ?app_assoc; cbn [app];
    first [ exists []; split; [symmetry; apply app_nil_r|]
          | eexists; split; [reflexivity|] ];
    (split; [reflexivity|]); intros e c' H; inversion H; reflexivity.
Qed.
End Connections.

(** X17.  However often a caller asks a client for a file system, with
    whatever options, and closes the client in between, at most one SFTP
    client is ever made on the connection, and none when the client has one
    already, which it keeps.  All the file systems handed out without an
    error share that one SFTP client, also those handed out after [Close];
    none of them is without one. *)
Theorem one_sftp_client_per_connection (b : Sftp.Backend) (ops : list ClientOp)
        (c : Connection.client) (t : list Sftp.Step) :
  let r := drive b ops c t in
  let handed_out := fst (fst r) in
  let c' := snd (fst r) in
  exists delta,
    snd r = t ++ delta /\
    (clients_made delta <= 1)%nat /\
    (Connection.sftpClient c <> None ->
     clients_made delta = 0%nat /\ Connection.sftpClient c' = Connection.sftpClient c) /\
    Forall (fun fs => RemoteFileSystem.err fs = None ->
                      RemoteFileSystem.sftp fs <> None /\
                      RemoteFileSystem.sftp fs = Connection.sftpClient c')
           handed_out.
Proof.
  cbv zeta. revert c t.
  induction ops as [|[opts|] ops IH]; intros c t.
  - exists []. simpl. rewrite app_nil_r. repeat split; auto.
  - cbn [drive]. rewrite FileSystem_cases.
    destruct (Connection.sftpClient c) as [s|] eqn:Es.
    + destruct (IH c t) as (delta & Ht & Hm & Hk & Hf).
      destruct (drive b ops c t) as [[fss c2] t2]. cbn [fst snd] in *.
      exists delta. split; [exact Ht|]. split; [exact Hm|].
      rewrite Es in Hk. split; [exact Hk|].
      constructor; [|exact Hf]. cbn [RemoteFileSystem.sftp]. intros _.
      destruct (Hk ltac:(discriminate)) as [_ ->]. split; [discriminate|reflexivity].
    + destruct (Connection.sshClient c) as [conn|] eqn:Ec.
      * cbv zeta. destruct (b t (Sftp.SftpNewClient conn)) as [v [|msg|msg]] eqn:Ea;
          cbn [Sftp.result].
        -- set (c1 := Connection.mk (Some conn) (Some (length t)) (Connection.config c)
                                     (Connection.status c)).
           destruct (IH c1 (t ++ [Sftp.Did (Sftp.SftpNewClient conn) (Sftp.mkAnswer v Done)]))
             as (delta & Ht & Hm & Hk & Hf).
           destruct (drive b ops c1 _) as [[fss c2] t2]. cbn [fst snd] in *.
           destruct (Hk ltac:(discriminate)) as [H0 Hc2].
           exists (Sftp.Did (Sftp.SftpNewClient conn) (Sftp.mkAnswer v Done) :: delta).
           split; [rewrite Ht, <- app_assoc; reflexivity|].
           split; [cbn [clients_made Sftp.result]; rewrite H0; auto|].
           split; [intros H; contradiction|].
           constructor; [|exact Hf]. cbn [RemoteFileSystem.sftp]. intros _.
           rewrite Hc2. split; [discriminate|reflexivity].
        -- destruct (IH c (t ++ [Sftp.Did (Sftp.SftpNewClient conn) (Sftp.mkAnswer v (Failed msg))]))
             as (delta & Ht & Hm & Hk & Hf).
           destruct (drive b ops c _) as [[fss c2] t2]. cbn [fst snd] in *.
           exists (Sftp.Did (Sftp.SftpNewClient conn) (Sftp.mkAnswer v (Failed msg)) :: delta).
           split; [rewrite Ht, <- app_assoc; reflexivity|].
           split; [exact Hm|]. split; [intros H; contradiction|].
           constructor; [|exact Hf]. cbn [RemoteFileSystem.err]. discriminate.
        -- destruct (IH c (t ++ [Sftp.Did (Sftp.SftpNewClient conn) (Sftp.mkAnswer v (Aborted msg))]))
             as (delta & Ht & Hm & Hk & Hf).
           exists (Sftp.Did (Sftp.SftpNewClient conn) (Sftp.mkAnswer v (Aborted msg)) :: delta).
           split; [rewrite Ht, <- app_assoc; reflexivity|].
           split; [exact Hm|]. split; [intros H; contradiction|exact Hf].
      * destruct (IH c t) as (delta & Ht & Hm & Hk & Hf).
        destruct (drive b ops c t) as [[fss c2] t2]. cbn [fst snd] in *.
        exists delta. split; [exact Ht|]. split; [exact Hm|].
        split; [intros H; contradiction|].
        constructor; [|exact Hf]. cbn [RemoteFileSystem.err]. discriminate.
  - cbn [drive]. destruct (Close_keeps_sftp b c t) as (done & Hd & H0 & Hs).
    destruct (Connection.Close b c t) as [[[e c1]|msg] t1]; cbn [fst snd] in *; subst t1.
    + specialize (Hs e c1 eq_refl).
      destruct (IH c1 (t ++ done)) as (delta & Ht & Hm & Hk & Hf).
      exists (done ++ delta). rewrite Ht, app_assoc, clients_made_app, H0, <- Hs.
      split; [reflexivity|]. split; [exact Hm|]. split; [exact Hk|exact Hf].
    + destruct (IH c (t ++ done)) as (delta & Ht & Hm & Hk & Hf).
      exists (done ++ delta). rewrite Ht, app_assoc, clients_made_app, H0.
      split; [reflexivity|]. split; [exact Hm|]. split; [exact Hk|exact Hf].
Qed.

(** A file system asked for after [Close] is handed out without an error, on
    the SFTP client that [Close] has closed. *)
Example FileSystem_after_Close :
  drive sample_backend [DoFileSystem []; DoClose; DoFileSystem Sftp.SafeSftpOptions]
        sample_connection []
  = ([RemoteFileSystem.mk (Some 1%nat) (Some 0%nat) (Sftp.mkSftpConfig 0 false) None;
      RemoteFileSystem.mk (Some 1%nat) (Some 0%nat) (Sftp.mkSftpConfig 32768 true) None],
     Connection.mk (Some 1%nat) (Some 0%nat) Connection.DefaultClientConfig
                   Connection.StatusDisconnected,
     [Sftp.Did (Sftp.SftpNewClient 1%nat) (Sftp.mkAnswer Sftp.NoValue Done);
      Sftp.Did (Sftp.SftpClose 0%nat) (Sftp.mkAnswer Sftp.NoValue Done);
      Sftp.Did (Sftp.SshClose 1%nat) (Sftp.mkAnswer Sftp.NoValue Done)]).
Proof. vm_compute. reflexivity. Qed.


(** ** What is never used *)

(** X19.  The SFTP options have no effect on what is done: whatever options
    [FileSystem] is given, it makes the same calls (the SFTP client is made
    from the connection alone) and leaves the client the same, and the file
    systems it hands out differ by the stored configuration only, which no
    operation looks at.  Nor does [WriteFile] use the permissions it is
    given. *)
Theorem options_and_permissions_are_not_used (b : Sftp.Backend) :
  (forall opts opts' c t,
      snd (Connection.FileSystem b opts c t) = snd (Connection.FileSystem b opts' c t) /\
      match fst (Connection.FileSystem b opts c t),
            fst (Connection.FileSystem b opts' c t) with
      | Returned (fs, c1), Returned (fs', c1') =>
          c1 = c1' /\ fs' = configured fs (Connection.configure opts') /\
          RemoteFileSystem.config fs = Connection.configure opts
      | Panicked msg, Panicked msg' => msg = msg'
      | _, _ => False
      end) /\
  (forall op rfs config t, operate b op (configured rfs config) t = operate b op rfs t) /\
  (forall rfs name data perm perm' t,
      RemoteFileSystem.WriteFile b rfs name data perm t =
      RemoteFileSystem.WriteFile b rfs name data perm' t).
Proof.
  split; [|split].
  - intros opts opts' c t. rewrite !FileSystem_cases.
    destruct (Connection.sftpClient c) as [s|]; [repeat split|].
    destruct (Connection.sshClient c) as [conn|]; [|repeat split].
    cbv zeta. destruct (Sftp.result (b t (Sftp.SftpNewClient conn))); repeat split.
  - intros op [c s cfg e] config t. destruct op; reflexivity.
  - reflexivity.
Qed.

(** The presets of the package, as configurations. *)
Example option_presets :
  Connection.configure Sftp.FastSftpOptions = Sftp.mkSftpConfig 65536 false /\
  Connection.configure Sftp.SafeSftpOptions = Sftp.mkSftpConfig 32768 true /\
  Connection.configure Sftp.DefaultSftpOptions = Sftp.mkSftpConfig 32768 false /\
  Connection.configure [] = Sftp.mkSftpConfig 0 false.
Proof. repeat split; reflexivity. Qed.

(** ** The command line: uploads and downloads *)

Section TransferSpecs.
Variable b : Sftp.Backend.

Lemma Split_one_colon (first second : gostring) (sep : rune) :
  ~ In sep first -> ~ In sep second ->
  Split (first ++ sep :: second) sep = [first; second].
Proof.
  intros H1 H2. rewrite Split_app, (Split_no_sep first sep H1), (Split_no_sep second sep H2).
  reflexivity.
Qed.

Lemma Split_two_seps (x y z : gostring) (sep : rune) :
  (length (Split (x ++ sep :: y ++ sep :: z) sep) =? 2)%nat = false.
Proof.
  rewrite !Split_app, !length_app.
  pose proof (Split_nonempty x sep) as Hx.
  pose proof (Split_nonempty y sep) as Hy.
  pose proof (Split_nonempty z sep) as Hz.
  destruct (Split x sep); [contradiction|].
  destruct (Split y sep); [contradiction|].
  destruct (Split z sep); [contradiction|].
  apply Nat.eqb_neq. simpl. lia.
Qed.
End TransferSpecs.

(** X20.  [handleUpload] and [handleDownload] take their argument apart at
    its one colon.  An argument with no colon, or with more than one, is
    refused with the error of the format before anything is printed, opened or
    connected.  Otherwise the handler announces the transfer, asks the client
    for a file system with no options, hands the two paths to [Upload] (to
    [Download]) in the order they were written, and closes the file system
    when the transfer ends, by a return or by a panic; what the transfer
    returned is what the handler returns. *)
Theorem handlers_split_at_the_colon (b : Sftp.Backend) :
  transfers_by b (CLI.handleUpload b) (lit "Uploading ") CLI.invalid_upload_format
               (RemoteFileSystem.Upload b) /\
  transfers_by b (CLI.handleDownload b) (lit "Downloading ") CLI.invalid_download_format
               (RemoteFileSystem.Download b).
Proof.
  split; intros c t; (split; [|split]).
  - intros spec Hn. unfold CLI.handleUpload. rewrite (Split_no_sep spec _ Hn). reflexivity.
  - intros x y z. unfold CLI.handleUpload. rewrite Split_two_seps. reflexivity.
  - intros first second H1 H2 said. unfold CLI.handleUpload.
    rewrite (Split_one_colon first second _ H1 H2). cbn [length Nat.eqb negb nth].
    unfold Sftp.and_then at 1. unfold Sftp.say. fold said.
    unfold Sftp.and_then at 1.
    destruct (Connection.FileSystem b [] c (t ++ [Sftp.Did said (b t said)]))
      as [[[fs c']|msg] t1]; [|reflexivity].
    cbn [fst snd]. unfold closing, Sftp.deferred, Sftp.and_then, Sftp.pure.
    destruct (RemoteFileSystem.Upload b fs first second t1) as [[e|msg] t2]; cbn [fst snd];
      destruct (RemoteFileSystem.Close b fs t2) as [[e'|msg'] t3]; reflexivity.
  - intros spec Hn. unfold CLI.handleDownload. rewrite (Split_no_sep spec _ Hn). reflexivity.
  - intros x y z. unfold CLI.handleDownload. rewrite Split_two_seps. reflexivity.
  - intros first second H1 H2 said. unfold CLI.handleDownload.
    rewrite (Split_one_colon first second _ H1 H2). cbn [length Nat.eqb negb nth].
    unfold Sftp.and_then at 1. unfold Sftp.say. fold said.
    unfold Sftp.and_then at 1.
    destruct (Connection.FileSystem b [] c (t ++ [Sftp.Did said (b t said)]))
      as [[[fs c']|msg] t1]; [|reflexivity].
    cbn [fst snd]. unfold closing, Sftp.deferred, Sftp.and_then, Sftp.pure.
    destruct (RemoteFileSystem.Download b fs first second t1) as [[e|msg] t2]; cbn [fst snd];
      destruct (RemoteFileSystem.Close b fs t2) as [[e'|msg'] t3]; reflexivity.
Qed.

(** An upload from the command line, on a client with no SFTP client yet:
    the SFTP client is made, used and closed, and the client keeps it. *)
Example handleUpload_run :
  CLI.handleUpload sample_backend sample_connection (lit "notes.txt:/tmp/notes.txt") []
  = (Returned (None,
               Connection.mk (Some 1%nat) (Some 1%nat) Connection.DefaultClientConfig
                             Connection.StatusConnected),
     let done := Sftp.mkAnswer Sftp.NoValue Done in
     [Sftp.Did (Sftp.FmtPrintf (lit "Uploading notes.txt to /tmp/notes.txt
")) done;
      Sftp.Did (Sftp.SftpNewClient 1%nat) done;
      Sftp.Did (Sftp.OsOpen (lit "notes.txt")) done;
      Sftp.Did (Sftp.SftpOpenFile 1%nat (lit "/tmp/notes.txt") 577) done;
      Sftp.Did (Sftp.IoCopy 3%nat 2%nat) done;
      Sftp.Did (Sftp.FileClose 3%nat) done;
      Sftp.Did (Sftp.FileClose 2%nat) done;
      Sftp.Did (Sftp.SftpClose 1%nat) done]).
Proof. vm_compute. reflexivity. Qed.
